(** * Client-side upload engine: chunk planner, diagnostics, retry policy,
      scheduler and session controller.

    Shallow embedding of [client/src/services/UploadManager.js] and
    [client/src/utils/uploadUtils.js].

    Conventions of the embedding.
    - Byte counts, offsets, timestamps and counters are integers ([Z], [nat]).
    - Quantities the source computes with fractional JavaScript numbers
      (speed, latency, progress, delays, the tuner) are idealised as real
      numbers: [Math.sqrt] is [sqrt], [Math.log2 x] is [ln x / ln 2],
      [Math.round x] is the floor of [x + 1/2], [Math.min]/[Math.max] are
      [Rmin]/[Rmax].  Rounding of IEEE doubles, NaN and the infinities are
      not represented.
    - A JavaScript [Set] is an insertion-ordered list without duplicates, a
      [Map] an insertion-ordered association list.
    - Objects mutated in place are passed and returned explicitly; what a
      handler sends to a worker, to the network or to a timer is returned as
      a list of [Effect]s. *)

From Stdlib Require Import String DecimalString.
From Stdlib Require Import ZArith List Bool Arith Lia.
From Stdlib Require Import Reals Lra.
Import ListNotations.

Local Open Scope Z_scope.

(** ** Data model *)

(** [UPLOAD_STATUS] of uploadUtils.js; used for sessions and for chunks. *)
Inductive UPLOAD_STATUS : Type :=
| PENDING | UPLOADING | PAUSED | COMPLETED | FAILED | CANCELLED.

Definition UPLOAD_STATUS_eqb (a b : UPLOAD_STATUS) : bool :=
  match a, b with
  | PENDING, PENDING | UPLOADING, UPLOADING | PAUSED, PAUSED
  | COMPLETED, COMPLETED | FAILED, FAILED | CANCELLED, CANCELLED => true
  | _, _ => false
  end.

(** The part of a [File] the engine reads: [file.name] and [file.size]. *)
Module File.
Record t : Type := mk { name : string; size : Z }.
End File.

(** Result of [generateChunkMetadata].  The [chunk] field of the source is
    the blob [file.slice(start, end)]; it is determined by [start] and
    [end_] and is not duplicated here. *)
Module ChunkMetadata.
Record t : Type := mk {
  chunkIndex : nat;
  start : Z;
  end_ : Z;
  size : Z;
  isLast : bool
}.
End ChunkMetadata.

(** An entry of [upload.chunks]: the metadata spread, plus the scheduler's
    fields. *)
Module Chunk.
Record t : Type := mk {
  chunkIndex : nat;
  start : Z;
  end_ : Z;
  size : Z;
  isLast : bool;
  status : UPLOAD_STATUS;
  hash : option string;
  uploadUrl : option string;
  retryCount : nat
}.

Definition set_status (s : UPLOAD_STATUS) (c : t) : t :=
  mk (chunkIndex c) (start c) (end_ c) (size c) (isLast c) s
     (hash c) (uploadUrl c) (retryCount c).

Definition set_uploadUrl (u : option string) (c : t) : t :=
  mk (chunkIndex c) (start c) (end_ c) (size c) (isLast c) (status c)
     (hash c) u (retryCount c).

Definition set_retryCount (n : nat) (c : t) : t :=
  mk (chunkIndex c) (start c) (end_ c) (size c) (isLast c) (status c)
     (hash c) (uploadUrl c) n.

(** The triple the planner owns. *)
Definition boundaries (c : t) : Z * Z * Z := (start c, end_ c, size c).
End Chunk.

(** ** Chunk planner *)

(** [Math.ceil(a / b)] on integers, [b <> 0]. *)
Definition ceil_div (a b : Z) : Z := - ((- a) / b).

(** [generateChunkMetadata(file, chunkSize, chunkIndex)]. *)
Definition generateChunkMetadata (file : File.t) (chunkSize : Z)
  (chunkIndex : nat) : ChunkMetadata.t :=
  let start := Z.of_nat chunkIndex * chunkSize in
  let end_ := Z.min (start + chunkSize) (File.size file) in
  ChunkMetadata.mk chunkIndex start end_ (end_ - start)
                   (end_ =? File.size file).

(** The element function of [Array.from] in [calculateChunks]. *)
Definition newChunk (file : File.t) (chunkSize : Z) (index : nat) : Chunk.t :=
  let metadata := generateChunkMetadata file chunkSize index in
  Chunk.mk (ChunkMetadata.chunkIndex metadata) (ChunkMetadata.start metadata)
           (ChunkMetadata.end_ metadata) (ChunkMetadata.size metadata)
           (ChunkMetadata.isLast metadata)
           PENDING None None 0%nat.

(** The plan [calculateChunks] stores in [upload.chunks], as a function of
    the file and of [options.chunkSize].  [Array.from({length: n}, f)] is
    [map f (seq 0 n)]; a negative length yields the empty array.  With
    [chunkSize = 0] and a non-empty file (length Infinity), or with more
    than 2^32 - 1 chunks, the source throws a RangeError; the model is
    meant for the other cases. *)
Definition planChunks (file : File.t) (chunkSize : Z) : list Chunk.t :=
  let totalChunks := ceil_div (File.size file) chunkSize in
  map (newChunk file chunkSize) (seq 0 (Z.to_nat totalChunks)).

(** A list of chunks tiles [lo, hi): the first chunk starts at [lo], every
    chunk is a non-empty range starting where its predecessor ends, and the
    last one ends at [hi]. *)
Fixpoint tiles (lo : Z) (l : list Chunk.t) (hi : Z) : Prop :=
  match l with
  | [] => lo = hi
  | c :: r => Chunk.start c = lo /\ Chunk.start c < Chunk.end_ c
              /\ tiles (Chunk.end_ c) r hi
  end.

Definition sum_sizes (l : list Chunk.t) : Z :=
  fold_right (fun c acc => Chunk.size c + acc) 0 l.

(** ** JavaScript numbers and containers *)

(** [Math.round]: the nearest integer, halves rounded up. *)
Definition Math_round (x : R) : Z := Int_part (x + / 2).

(** [Math.log2]. *)
Definition Math_log2 (x : R) : R := (ln x / ln 2)%R.

(** Decimal rendering of a counter inside a template string. *)
Definition string_of_nat (n : nat) : string :=
  NilEmpty.string_of_uint (Nat.to_uint n).

(** [Set.prototype.has] and [Set.prototype.add] on an insertion-ordered
    list without duplicates; [size] is [length]. *)
Definition Set_has (k : nat) (s : list nat) : bool := existsb (Nat.eqb k) s.

Definition Set_add (k : nat) (s : list nat) : list nat :=
  if Set_has k s then s else s ++ [k].

(** In-place mutation of the object stored at position [i] of an array or
    of a Map's iteration order; nothing happens out of range. *)
Fixpoint update_nth {A : Type} (i : nat) (f : A -> A) (l : list A) : list A :=
  match l, i with
  | [], _ => []
  | x :: r, O => f x :: r
  | x :: r, S j => x :: update_nth j f r
  end.

(** ** Network diagnostics *)

Module Sample.
Record t : Type := mk { speed : R; latency : R; timestamp : Z }.
End Sample.

Module NetworkDiagnostics.
Record t : Type := mk { samples : list Sample.t; maxSamples : nat }.

(** The constructor. *)
Definition new : t := mk [] 10.

(** [addSample(speed, latency)]; [now] is the value of [Date.now()]. *)
Definition addSample (speed latency : R) (now : Z) (d : t) : t :=
  let pushed := samples d ++ [Sample.mk speed latency now] in
  if (maxSamples d <? length pushed)%nat
  then mk (tl pushed) (maxSamples d)
  else mk pushed (maxSamples d).

Definition getAverageSpeed (d : t) : R :=
  if (length (samples d) =? 0)%nat then 0%R
  else (fold_left (fun sum sample => sum + Sample.speed sample) (samples d) 0
        / INR (length (samples d)))%R.

Definition getAverageLatency (d : t) : R :=
  if (length (samples d) =? 0)%nat then 0%R
  else (fold_left (fun sum sample => sum + Sample.latency sample) (samples d) 0
        / INR (length (samples d)))%R.

(** Despite its name the source returns the square root of the variance. *)
Definition getLatencyVariance (d : t) : R :=
  if (length (samples d) <? 2)%nat then 0%R
  else
    let avgLatency := getAverageLatency d in
    let variance :=
      (fold_left (fun sum sample => sum + (Sample.latency sample - avgLatency) ^ 2)
                 (samples d) 0
       / INR (length (samples d)))%R in
    sqrt variance.

Definition getNetworkStability (d : t) : R :=
  let variance := getLatencyVariance d in
  let avgLatency := getAverageLatency d in
  if Rlt_dec 0 avgLatency then (1 - variance / avgLatency)%R else 0%R.
End NetworkDiagnostics.

(** ** Adaptive tuner *)

(** The [value]s of [CHUNK_SIZE_OPTIONS]. *)
Definition CHUNK_SIZE_OPTIONS : list Z :=
  [256 * 1024; 512 * 1024; 1024 * 1024; 2 * 1024 * 1024; 4 * 1024 * 1024;
   8 * 1024 * 1024; 16 * 1024 * 1024].

(** [calculateOptimalChunkSize(networkSpeed, latency, fileSize)].  The
    clamped size lies between 2^18 and 2^24, so the rounded exponent is a
    natural number and the result an integer. *)
Definition calculateOptimalChunkSize (networkSpeed latency : R) (fileSize : Z)
  : Z :=
  let baseChunkSize := IZR (1024 * 1024) in
  let speedFactor := Rmin (networkSpeed / IZR (1024 * 1024)) 8 in
  let latencyFactor := Rmin (latency / 100) 4 in
  let optimalSize := (baseChunkSize * speedFactor * (1 + latencyFactor))%R in
  let minSize := IZR (nth 0 CHUNK_SIZE_OPTIONS 0) in
  let maxSize :=
    IZR (nth (length CHUNK_SIZE_OPTIONS - 1) CHUNK_SIZE_OPTIONS 0) in
  let optimalSize := Rmax minSize (Rmin optimalSize maxSize) in
  2 ^ Math_round (Math_log2 optimalSize).

(** ** Retry policy *)

(** The error object [shouldRetry] inspects: [error.response.status] when a
    response is attached, and [error.code]. *)
Module UploadError.
Record t : Type := mk { response : option Z; code : option string }.
End UploadError.

Module RetryConfig.
Record t : Type := mk {
  delay : R;
  maxAttempts : nat;
  shouldRetry : UploadError.t -> bool
}.
End RetryConfig.

(** The [shouldRetry] closure of [getRetryConfig]. *)
Definition shouldRetry (error : UploadError.t) : bool :=
  match UploadError.response error with
  | None => true
  | Some status_ => (500 <=? status_) || (status_ =? 429)
  end
  || match UploadError.code error with
     | Some c => String.eqb c "NETWORK_ERROR"
     | None => false
     end.

(** [getRetryConfig(attempt)]; [random] is the value [Math.random()]
    returns. *)
Definition getRetryConfig (attempt : nat) (random : R) : RetryConfig.t :=
  let baseDelay := 1000%R in
  let maxDelay := 30000%R in
  let jitter := (random * (1 / 10))%R in
  let delay := Rmin (baseDelay * 2 ^ attempt * (1 + jitter)) maxDelay in
  RetryConfig.mk delay 5 shouldRetry.

(** ** Sessions *)

Module Options.
Record t : Type := mk { chunkSize : Z; concurrency : Z; autoTune : bool }.

Definition set_chunkSize (v : Z) (o : t) : t :=
  mk v (concurrency o) (autoTune o).

(** What a caller may override in [{ ...this.options, ...options }]. *)
Record overrides : Type := mkOverrides {
  o_chunkSize : option Z;
  o_concurrency : option Z;
  o_autoTune : option bool
}.

Definition merge (base : t) (o : overrides) : t :=
  mk (match o_chunkSize o with Some v => v | None => chunkSize base end)
     (match o_concurrency o with Some v => v | None => concurrency base end)
     (match o_autoTune o with Some v => v | None => autoTune base end).

(** Defaults of the [UploadManager] constructor. *)
Definition defaults : t := mk (1024 * 1024) 3 true.
End Options.

(** The strings [calculateETA] produces: ["Calculating..."], ["<n>s"],
    ["<n>m"], ["<n>h"]. *)
Inductive ETA : Type :=
| Calculating
| Seconds (n : Z)
| Minutes (n : Z)
| Hours (n : Z).

(** The upload record [createUpload] builds, with the fields later handlers
    add to it ([fileHash], [uploadId], [chunkUrls], [finalUrl]; [None] while
    absent). *)
Module Upload.
Record t : Type := mk {
  id : string;
  file : File.t;
  storageType : string;
  status : UPLOAD_STATUS;
  progress : R;
  speed : R;
  eta : ETA;
  chunks : list Chunk.t;
  completedChunks : list nat;
  failedChunks : list nat;
  startTime : option Z;
  endTime : option Z;
  error : option string;
  options : Options.t;
  fileHash : option string;
  uploadId : option string;
  chunkUrls : option (list string);
  finalUrl : option string
}.

Definition set_status (v : UPLOAD_STATUS) (u : t) : t :=
  mk (id u) (file u) (storageType u) v (progress u) (speed u) (eta u)
    (chunks u) (completedChunks u) (failedChunks u) (startTime u)
    (endTime u) (error u) (options u) (fileHash u) (uploadId u)
    (chunkUrls u) (finalUrl u).

Definition set_progress (v : R) (u : t) : t :=
  mk (id u) (file u) (storageType u) (status u) v (speed u) (eta u)
    (chunks u) (completedChunks u) (failedChunks u) (startTime u)
    (endTime u) (error u) (options u) (fileHash u) (uploadId u)
    (chunkUrls u) (finalUrl u).

Definition set_speed (v : R) (u : t) : t :=
  mk (id u) (file u) (storageType u) (status u) (progress u) v (eta u)
    (chunks u) (completedChunks u) (failedChunks u) (startTime u)
    (endTime u) (error u) (options u) (fileHash u) (uploadId u)
    (chunkUrls u) (finalUrl u).

Definition set_eta (v : ETA) (u : t) : t :=
  mk (id u) (file u) (storageType u) (status u) (progress u) (speed u) v
    (chunks u) (completedChunks u) (failedChunks u) (startTime u)
    (endTime u) (error u) (options u) (fileHash u) (uploadId u)
    (chunkUrls u) (finalUrl u).

Definition set_chunks (v : list Chunk.t) (u : t) : t :=
  mk (id u) (file u) (storageType u) (status u) (progress u) (speed u)
    (eta u) v (completedChunks u) (failedChunks u) (startTime u)
    (endTime u) (error u) (options u) (fileHash u) (uploadId u)
    (chunkUrls u) (finalUrl u).

Definition set_completedChunks (v : list nat) (u : t) : t :=
  mk (id u) (file u) (storageType u) (status u) (progress u) (speed u)
    (eta u) (chunks u) v (failedChunks u) (startTime u) (endTime u)
    (error u) (options u) (fileHash u) (uploadId u) (chunkUrls u)
    (finalUrl u).

Definition set_failedChunks (v : list nat) (u : t) : t :=
  mk (id u) (file u) (storageType u) (status u) (progress u) (speed u)
    (eta u) (chunks u) (completedChunks u) v (startTime u) (endTime u)
    (error u) (options u) (fileHash u) (uploadId u) (chunkUrls u)
    (finalUrl u).

Definition set_startTime (v : option Z) (u : t) : t :=
  mk (id u) (file u) (storageType u) (status u) (progress u) (speed u)
    (eta u) (chunks u) (completedChunks u) (failedChunks u) v (endTime u)
    (error u) (options u) (fileHash u) (uploadId u) (chunkUrls u)
    (finalUrl u).

Definition set_endTime (v : option Z) (u : t) : t :=
  mk (id u) (file u) (storageType u) (status u) (progress u) (speed u)
    (eta u) (chunks u) (completedChunks u) (failedChunks u) (startTime u)
    v (error u) (options u) (fileHash u) (uploadId u) (chunkUrls u)
    (finalUrl u).

Definition set_error (v : option string) (u : t) : t :=
  mk (id u) (file u) (storageType u) (status u) (progress u) (speed u)
    (eta u) (chunks u) (completedChunks u) (failedChunks u) (startTime u)
    (endTime u) v (options u) (fileHash u) (uploadId u) (chunkUrls u)
    (finalUrl u).

Definition set_options (v : Options.t) (u : t) : t :=
  mk (id u) (file u) (storageType u) (status u) (progress u) (speed u)
    (eta u) (chunks u) (completedChunks u) (failedChunks u) (startTime u)
    (endTime u) (error u) v (fileHash u) (uploadId u) (chunkUrls u)
    (finalUrl u).

Definition set_fileHash (v : option string) (u : t) : t :=
  mk (id u) (file u) (storageType u) (status u) (progress u) (speed u)
    (eta u) (chunks u) (completedChunks u) (failedChunks u) (startTime u)
    (endTime u) (error u) (options u) v (uploadId u) (chunkUrls u)
    (finalUrl u).

Definition set_uploadId (v : option string) (u : t) : t :=
  mk (id u) (file u) (storageType u) (status u) (progress u) (speed u)
    (eta u) (chunks u) (completedChunks u) (failedChunks u) (startTime u)
    (endTime u) (error u) (options u) (fileHash u) v (chunkUrls u)
    (finalUrl u).

Definition set_chunkUrls (v : option (list string)) (u : t) : t :=
  mk (id u) (file u) (storageType u) (status u) (progress u) (speed u)
    (eta u) (chunks u) (completedChunks u) (failedChunks u) (startTime u)
    (endTime u) (error u) (options u) (fileHash u) (uploadId u) v
    (finalUrl u).

Definition set_finalUrl (v : option string) (u : t) : t :=
  mk (id u) (file u) (storageType u) (status u) (progress u) (speed u)
    (eta u) (chunks u) (completedChunks u) (failedChunks u) (startTime u)
    (endTime u) (error u) (options u) (fileHash u) (uploadId u)
    (chunkUrls u) v.

End Upload.
(** ** Effects and manager state *)

(** What the manager hands to its workers, to [fetch] and to [setTimeout]. *)
Inductive Effect : Type :=
| HASH_FILE (file : File.t)
| HASH_CHUNK (chunkIndex : nat)
| UPLOAD_CHUNK (uploadUrl : option string) (chunkIndex : nat)
               (rangeFirst rangeLast total : Z) (chunkHash : option string)
| FetchInitialize (filename : string) (fileSize : Z)
                  (fileHash : option string) (chunkCount : nat)
                  (storageType : string)
| FetchFinalize (uploadId : option string) (storageType : string)
| SetTimeoutRetry (uploadKey : string) (chunkIndex : nat) (delay : R).

(** The fields of an [UploadManager] that handlers read and write.
    [uploads] lists the Map's entries in insertion order. *)
Module Manager.
Record t : Type := mk {
  options : Options.t;
  uploads : list (string * Upload.t);
  networkDiagnostics : NetworkDiagnostics.t
}.

Definition set_uploads (v : list (string * Upload.t)) (m : t) : t :=
  mk (options m) v (networkDiagnostics m).

Definition set_networkDiagnostics (v : NetworkDiagnostics.t) (m : t) : t :=
  mk (options m) (uploads m) v.

Definition new (options : Options.overrides) : t :=
  mk (Options.merge Options.defaults options) [] NetworkDiagnostics.new.
End Manager.

(** What running a method leaves behind: the manager, the effects issued in
    order, and whether the method ended by throwing (mutations made before
    the throw persist). *)
Module Outcome.
Record t : Type := mk {
  manager : Manager.t;
  effects : list Effect;
  threw : bool
}.
End Outcome.

(** [Map.prototype.get]. *)
Fixpoint Map_get (key : string) (uploads : list (string * Upload.t))
  : option Upload.t :=
  match uploads with
  | [] => None
  | (k, u) :: r => if String.eqb key k then Some u else Map_get key r
  end.

(** [Map.prototype.set]: an existing key keeps its place. *)
Fixpoint Map_set (key : string) (u : Upload.t)
  (uploads : list (string * Upload.t)) : list (string * Upload.t) :=
  match uploads with
  | [] => [(key, u)]
  | (k, v) :: r =>
      if String.eqb key k then (k, u) :: r else (k, v) :: Map_set key u r
  end.

(** Mutation of the upload object registered under [key]. *)
Fixpoint Map_update (key : string) (f : Upload.t -> Upload.t)
  (uploads : list (string * Upload.t)) : list (string * Upload.t) :=
  match uploads with
  | [] => []
  | (k, v) :: r =>
      if String.eqb key k then (k, f v) :: r else (k, v) :: Map_update key f r
  end.

(** ** Session controller *)

(** [calculateChunks(upload)]. *)
Definition calculateChunks (upload : Upload.t) : Upload.t :=
  Upload.set_chunks
    (planChunks (Upload.file upload)
                (Options.chunkSize (Upload.options upload)))
    upload.

(** [createUpload(file, storageType, options)]; [uploadId] is the value of
    [generateUploadId()]. *)
Definition createUpload (file : File.t) (storageType : string)
  (options : Options.overrides) (uploadId : string) (m : Manager.t)
  : Outcome.t :=
  let upload :=
    Upload.mk uploadId file storageType PENDING 0%R 0%R Calculating
              [] [] [] None None None
              (Options.merge (Manager.options m) options)
              None None None None in
  let upload := calculateChunks upload in
  Outcome.mk (Manager.set_uploads (Map_set uploadId upload (Manager.uploads m)) m)
             [HASH_FILE file] false.

(** [calculateETA(bytesUploaded, totalBytes, speed)]. *)
Definition calculateETA (bytesUploaded totalBytes : Z) (speed : R) : ETA :=
  if Req_EM_T speed 0 then Calculating
  else
    let remainingBytes := IZR (totalBytes - bytesUploaded) in
    let secondsRemaining := (remainingBytes / speed)%R in
    if Rlt_dec secondsRemaining 60 then Seconds (Math_round secondsRemaining)
    else if Rlt_dec secondsRemaining 3600
         then Minutes (Math_round (secondsRemaining / 60))
         else Hours (Math_round (secondsRemaining / 3600)).

(** [autoTuneChunkSize(upload)], reading the manager's diagnostics. *)
Definition autoTuneChunkSize (d : NetworkDiagnostics.t) (upload : Upload.t)
  : Upload.t :=
  let avgSpeed := NetworkDiagnostics.getAverageSpeed d in
  let stability := NetworkDiagnostics.getNetworkStability d in
  if Rlt_dec 0 avgSpeed then
    if Rlt_dec (7 / 10) stability then
      let optimalSize :=
        calculateOptimalChunkSize avgSpeed 0 (File.size (Upload.file upload)) in
      let chunkSize := Options.chunkSize (Upload.options upload) in
      if Rlt_dec (IZR chunkSize * (5 / 10)) (Rabs (IZR optimalSize - IZR chunkSize))
      then
        calculateChunks
          (Upload.set_options
             (Options.set_chunkSize optimalSize (Upload.options upload)) upload)
      else upload
    else upload
  else upload.

(** The [reduce] of [updateUploadProgress]: the bytes of the completed
    chunks; [None] when [upload.chunks[chunkIndex]] is undefined, where the
    source throws a TypeError. *)
Fixpoint completedBytes (chunks : list Chunk.t) (completed : list nat) (sum : Z)
  : option Z :=
  match completed with
  | [] => Some sum
  | chunkIndex :: r =>
      match nth_error chunks chunkIndex with
      | Some c => completedBytes chunks r (sum + Chunk.size c)
      | None => None
      end
  end.

(** [updateUploadProgress(upload)]; [None] when it throws (before any
    mutation).  Both reads of [Date.now()] in one call return [now]. *)
Definition updateUploadProgress (now : Z) (d : NetworkDiagnostics.t)
  (upload : Upload.t) : option (NetworkDiagnostics.t * Upload.t) :=
  match completedBytes (Upload.chunks upload) (Upload.completedChunks upload) 0
  with
  | None => None
  | Some bytes =>
      let upload :=
        Upload.set_progress
          (IZR bytes / IZR (File.size (Upload.file upload)) * 100)%R upload in
      let upload :=
        match Upload.startTime upload with
        | Some startTime =>
            if startTime =? 0 then upload
            else
              let elapsed := (IZR (now - startTime) / 1000)%R in
              let speed := (IZR bytes / elapsed)%R in
              Upload.set_eta
                (calculateETA bytes (File.size (Upload.file upload)) speed)
                (Upload.set_speed speed upload)
        | None => upload
        end in
      let d := NetworkDiagnostics.addSample (Upload.speed upload) 0 now d in
      let upload :=
        if Options.autoTune (Upload.options upload)
           && (5 <? length (Upload.completedChunks upload))%nat
        then autoTuneChunkSize d upload
        else upload in
      Some (d, upload)
  end.

(** [checkUploadCompletion(upload)]; [finalizeUpload] starts with the
    finalize request. *)
Definition checkUploadCompletion (now : Z) (upload : Upload.t)
  : Upload.t * list Effect :=
  if (length (Upload.completedChunks upload) =? length (Upload.chunks upload))%nat
  then
    (Upload.set_endTime (Some now) (Upload.set_status COMPLETED upload),
     [FetchFinalize (Upload.uploadId upload) (Upload.storageType upload)])
  else (upload, []).

(** [findUploadByChunkIndex(chunkIndex)]: the first upload, in the Map's
    iteration order, whose [chunks[chunkIndex]] is an object; returned with
    its position, which stands for the object reference. *)
Fixpoint findUploadByChunkIndex_from (pos : nat) (chunkIndex : nat)
  (uploads : list (string * Upload.t)) : option (nat * Upload.t) :=
  match uploads with
  | [] => None
  | (_, upload) :: r =>
      match nth_error (Upload.chunks upload) chunkIndex with
      | Some _ => Some (pos, upload)
      | None => findUploadByChunkIndex_from (S pos) chunkIndex r
      end
  end.

Definition findUploadByChunkIndex (chunkIndex : nat) (m : Manager.t)
  : option (nat * Upload.t) :=
  findUploadByChunkIndex_from 0 chunkIndex (Manager.uploads m).

(** Writes the mutated upload object back at its position. *)
Definition storeUpload (pos : nat) (upload : Upload.t) (m : Manager.t)
  : Manager.t :=
  Manager.set_uploads
    (update_nth pos (fun e => (fst e, upload)) (Manager.uploads m)) m.

(** The payload of a [CHUNK_UPLOAD_ERROR] message. *)
Module ErrorData.
Record t : Type := mk { chunkIndex : nat; error : string; retryable : bool }.
End ErrorData.

(** [handleChunkUploadComplete(data)]. *)
Definition handleChunkUploadComplete (now : Z) (chunkIndex : nat)
  (m : Manager.t) : Outcome.t :=
  match findUploadByChunkIndex chunkIndex m with
  | None => Outcome.mk m [] false
  | Some (pos, upload) =>
      let upload :=
        Upload.set_chunks
          (update_nth chunkIndex (Chunk.set_status COMPLETED)
                      (Upload.chunks upload)) upload in
      let upload :=
        Upload.set_completedChunks
          (Set_add chunkIndex (Upload.completedChunks upload)) upload in
      match updateUploadProgress now (Manager.networkDiagnostics m) upload with
      | None => Outcome.mk (storeUpload pos upload m) [] true
      | Some (d, upload) =>
          let '(upload, effects) := checkUploadCompletion now upload in
          Outcome.mk
            (Manager.set_networkDiagnostics d (storeUpload pos upload m))
            effects false
      end
  end.

(** The text of [upload.error] when the failure threshold trips. *)
Definition tooManyFailures (upload : Upload.t) : string :=
  ("Too many chunk failures: "
   ++ string_of_nat (length (Upload.failedChunks upload)) ++ "/"
   ++ string_of_nat (length (Upload.chunks upload)))%string.

(** The [else] branch of [handleChunkUploadError]: the chunk fails for
    good, and the session with it once [failedChunks.size] exceeds
    [chunks.length * 0.1]. *)
Definition markChunkFailed (chunkIndex : nat) (upload : Upload.t) : Upload.t :=
  let upload :=
    Upload.set_chunks
      (update_nth chunkIndex (Chunk.set_status FAILED) (Upload.chunks upload))
      upload in
  let upload :=
    Upload.set_failedChunks
      (Set_add chunkIndex (Upload.failedChunks upload)) upload in
  if Rlt_dec (INR (length (Upload.chunks upload)) * (1 / 10))
             (INR (length (Upload.failedChunks upload)))
  then Upload.set_error (Some (tooManyFailures upload))
                        (Upload.set_status FAILED upload)
  else upload.

(** [handleChunkUploadError(data)]; [random] is the value [Math.random()]
    returns inside [getRetryConfig]. *)
Definition handleChunkUploadError (now : Z) (random : R) (data : ErrorData.t)
  (m : Manager.t) : Outcome.t :=
  let chunkIndex := ErrorData.chunkIndex data in
  match findUploadByChunkIndex chunkIndex m with
  | None => Outcome.mk m [] false
  | Some (pos, upload) =>
      match nth_error (Upload.chunks upload) chunkIndex with
      | None => Outcome.mk m [] false
      | Some chunk =>
          let retryCount := S (Chunk.retryCount chunk) in
          let upload :=
            Upload.set_chunks
              (update_nth chunkIndex (Chunk.set_retryCount retryCount)
                          (Upload.chunks upload)) upload in
          let '(upload, effects) :=
            if ErrorData.retryable data && (retryCount <? 3)%nat
            then (upload,
                  [SetTimeoutRetry (Upload.id upload) chunkIndex
                     (RetryConfig.delay (getRetryConfig retryCount random))])
            else (markChunkFailed chunkIndex upload, []) in
          match updateUploadProgress now (Manager.networkDiagnostics m) upload
          with
          | None => Outcome.mk (storeUpload pos upload m) effects true
          | Some (d, upload) =>
              Outcome.mk
                (Manager.set_networkDiagnostics d (storeUpload pos upload m))
                effects false
          end
      end
  end.

(** ** Chunk scheduler *)

(** The counting semaphore.  A queued [resolve] callback is identified by
    the position of the chunk whose dispatch it guards. *)
Module Semaphore.
Record t : Type := mk {
  maxConcurrency : Z;
  currentConcurrency : Z;
  queue : list nat
}.

Definition new (maxConcurrency : Z) : t := mk maxConcurrency 0 [].

(** [acquire()]: [true] when the promise resolves at once. *)
Definition acquire (waiter : nat) (s : t) : bool * t :=
  if currentConcurrency s <? maxConcurrency s
  then (true, mk (maxConcurrency s) (currentConcurrency s + 1) (queue s))
  else (false, mk (maxConcurrency s) (currentConcurrency s) (queue s ++ [waiter])).

(** [release()]: the waiter it wakes, if any.  No method of the manager
    calls it. *)
Definition release (s : t) : option nat * t :=
  match queue s with
  | [] => (None, mk (maxConcurrency s) (currentConcurrency s - 1) [])
  | next :: rest =>
      (Some next, mk (maxConcurrency s) (currentConcurrency s - 1 + 1) rest)
  end.
End Semaphore.

(** Truthiness of [chunk.hash]. *)
Definition hasHash (c : Chunk.t) : bool :=
  match Chunk.hash c with
  | Some h => negb (String.eqb h "")
  | None => false
  end.

(** [uploadChunk(upload, chunk)] for the chunk object at position [pos],
    up to its first suspension: the status change, then either the hash
    request (the function then waits for the digest) or, when the digest is
    known, the transfer request. *)
Definition uploadChunk (pos : nat) (upload : Upload.t)
  : Upload.t * list Effect :=
  match nth_error (Upload.chunks upload) pos with
  | None => (upload, [])
  | Some chunk =>
      let upload' :=
        Upload.set_chunks
          (update_nth pos (Chunk.set_status UPLOADING) (Upload.chunks upload))
          upload in
      if hasHash chunk
      then (upload',
            [UPLOAD_CHUNK (Chunk.uploadUrl chunk) (Chunk.chunkIndex chunk)
               (Chunk.start chunk) (Chunk.end_ chunk - 1)
               (File.size (Upload.file upload)) (Chunk.hash chunk)])
      else (upload', [HASH_CHUNK (Chunk.chunkIndex chunk)])
  end.

(** The [filter] of [uploadChunksWithConcurrency], as positions in
    [upload.chunks]. *)
Definition pendingChunks (upload : Upload.t) : list nat :=
  map fst
    (filter
       (fun e =>
          UPLOAD_STATUS_eqb (Chunk.status (snd e)) PENDING
          && negb (Set_has (Chunk.chunkIndex (snd e))
                           (Upload.completedChunks upload)))
       (combine (seq 0 (length (Upload.chunks upload))) (Upload.chunks upload))).

(** The [for] loop: one [acquire] per pending chunk on a semaphore; the
    positions whose promise resolved at once, in order. *)
Fixpoint acquireAll (semaphore : Semaphore.t) (pending : list nat)
  : list nat * Semaphore.t :=
  match pending with
  | [] => ([], semaphore)
  | pos :: r =>
      let '(resolved, semaphore) := Semaphore.acquire pos semaphore in
      let '(granted, semaphore) := acquireAll semaphore r in
      (if resolved then pos :: granted else granted, semaphore)
  end.

(** The [then] callbacks, run in order once the loop has returned. *)
Fixpoint runDispatches (granted : list nat) (upload : Upload.t)
  : Upload.t * list Effect :=
  match granted with
  | [] => (upload, [])
  | pos :: r =>
      let '(upload, e1) := uploadChunk pos upload in
      let '(upload, e2) := runDispatches r upload in
      (upload, e1 ++ e2)
  end.

(** [uploadChunksWithConcurrency(upload)] together with the microtasks it
    queues (they run before any other event reaches the manager).  The
    semaphore is local to the call. *)
Definition uploadChunksWithConcurrency (upload : Upload.t)
  : Upload.t * list Effect :=
  let concurrency := Options.concurrency (Upload.options upload) in
  let pending := pendingChunks upload in
  let semaphore := Semaphore.new concurrency in
  let '(granted, _) := acquireAll semaphore pending in
  runDispatches granted upload.

(** [startUpload(uploadId)] up to the initialize request. *)
Definition startUpload (now : Z) (uploadId : string) (m : Manager.t)
  : Outcome.t :=
  match Map_get uploadId (Manager.uploads m) with
  | None => Outcome.mk m [] true
  | Some upload =>
      let f u := Upload.set_startTime (Some now) (Upload.set_status UPLOADING u) in
      Outcome.mk
        (Manager.set_uploads (Map_update uploadId f (Manager.uploads m)) m)
        [FetchInitialize (File.name (Upload.file upload))
           (File.size (Upload.file upload)) (Upload.fileHash upload)
           (length (Upload.chunks upload)) (Upload.storageType upload)]
        false
  end.

(** [chunks.forEach((chunk, index) => chunk.uploadUrl = chunkUrls[index])]. *)
Fixpoint assignUrls (index : nat) (chunkUrls : list string)
  (chunks : list Chunk.t) : list Chunk.t :=
  match chunks with
  | [] => []
  | c :: r =>
      Chunk.set_uploadUrl (nth_error chunkUrls index) c
      :: assignUrls (S index) chunkUrls r
  end.

(** The rest of [startUpload] once the initialize request has answered
    with [{uploadId, chunkUrls}]: the URLs are assigned and the chunks
    dispatched. *)
Definition startUpload_initialized (uploadId : string)
  (data_uploadId : string) (data_chunkUrls : list string) (m : Manager.t)
  : Outcome.t :=
  match Map_get uploadId (Manager.uploads m) with
  | None => Outcome.mk m [] false
  | Some upload =>
      let upload := Upload.set_uploadId (Some data_uploadId) upload in
      let upload := Upload.set_chunkUrls (Some data_chunkUrls) upload in
      let upload :=
        Upload.set_chunks
          (assignUrls 0 data_chunkUrls (Upload.chunks upload)) upload in
      let '(upload, effects) := uploadChunksWithConcurrency upload in
      Outcome.mk
        (Manager.set_uploads
           (Map_update uploadId (fun _ => upload) (Manager.uploads m)) m)
        effects false
  end.

(** The rest of [startUpload] when the initialize request fails: the
    [catch] of [initializeChunkUploads] records the error and rethrows. *)
Definition startUpload_initializeFailed (uploadId : string) (message : string)
  (m : Manager.t) : Outcome.t :=
  let f u := Upload.set_error (Some message) (Upload.set_status FAILED u) in
  Outcome.mk (Manager.set_uploads (Map_update uploadId f (Manager.uploads m)) m)
             [] true.

(** [pauseUpload(uploadId)]. *)
Definition pauseUpload (uploadId : string) (m : Manager.t) : Outcome.t :=
  match Map_get uploadId (Manager.uploads m) with
  | Some _ =>
      Outcome.mk
        (Manager.set_uploads
           (Map_update uploadId (Upload.set_status PAUSED) (Manager.uploads m)) m)
        [] false
  | None => Outcome.mk m [] false
  end.

(** [resumeUpload(uploadId)]. *)
Definition resumeUpload (uploadId : string) (m : Manager.t) : Outcome.t :=
  match Map_get uploadId (Manager.uploads m) with
  | Some upload =>
      if UPLOAD_STATUS_eqb (Upload.status upload) PAUSED then
        let upload := Upload.set_status UPLOADING upload in
        let '(upload, effects) := uploadChunksWithConcurrency upload in
        Outcome.mk
          (Manager.set_uploads
             (Map_update uploadId (fun _ => upload) (Manager.uploads m)) m)
          effects false
      else Outcome.mk m [] false
  | None => Outcome.mk m [] false
  end.

(** [cancelUpload(uploadId)]. *)
Definition cancelUpload (uploadId : string) (m : Manager.t) : Outcome.t :=
  match Map_get uploadId (Manager.uploads m) with
  | Some _ =>
      Outcome.mk
        (Manager.set_uploads
           (Map_update uploadId (Upload.set_status CANCELLED) (Manager.uploads m))
           m)
        [] false
  | None => Outcome.mk m [] false
  end.

(** ** Observations used by the properties *)

(** Number of chunks of an upload whose status is [UPLOADING]. *)
Definition uploadingCount (upload : Upload.t) : nat :=
  length (filter (fun c => UPLOAD_STATUS_eqb (Chunk.status c) UPLOADING)
                 (Upload.chunks upload)).

(** Terminal session states. *)
Definition terminal (s : UPLOAD_STATUS) : bool :=
  match s with
  | COMPLETED | FAILED | CANCELLED => true
  | _ => false
  end.

(** The session-level fields the tuner and the progress computation never
    write. *)
Definition sessionView (upload : Upload.t)
  : string * UPLOAD_STATUS * list nat * list nat * option string :=
  (Upload.id upload, Upload.status upload, Upload.completedChunks upload,
   Upload.failedChunks upload, Upload.error upload).

(** ** Further operations of the manager and of its collaborators *)

From Stdlib Require Import Permutation.
From Stdlib Require Strings.Ascii Strings.Byte.

(** A run of the diagnostics: [addSample] for each [(speed, latency, now)]
    in turn. *)
Definition addSamples (inputs : list (R * R * Z)) (d : NetworkDiagnostics.t)
  : NetworkDiagnostics.t :=
  fold_left
    (fun d input =>
       NetworkDiagnostics.addSample (fst (fst input)) (snd (fst input))
                                    (snd input) d)
    inputs d.

(** The sample [addSample] pushes. *)
Definition sampleOf (input : R * R * Z) : Sample.t :=
  Sample.mk (fst (fst input)) (snd (fst input)) (snd input).

(** A call on a semaphore by a caller of the program: [acquire()] by the
    caller [waiter], or [release()] by [caller]. *)
Inductive SemaphoreCall : Type :=
| acquireCall (waiter : nat)
| releaseCall (caller : nat).

(** A semaphore together with the callers that hold a permit: those whose
    [acquire] promise has been resolved, at once or by a later [release],
    and who have not called [release] since. *)
Module SemaphoreTrace.
Record t : Type := mk { semaphore : Semaphore.t; holders : list nat }.

Definition start (maxConcurrency : Z) : t :=
  mk (Semaphore.new maxConcurrency) [].
End SemaphoreTrace.

(** The caller gives its permit back, if it holds one. *)
Fixpoint removeHolder (caller : nat) (holders : list nat) : list nat :=
  match holders with
  | [] => []
  | h :: r => if Nat.eqb caller h then r else h :: removeHolder caller r
  end.

Definition semaphoreStep (t : SemaphoreTrace.t) (call : SemaphoreCall)
  : SemaphoreTrace.t :=
  match call with
  | acquireCall waiter =>
      let '(resolved, s) :=
        Semaphore.acquire waiter (SemaphoreTrace.semaphore t) in
      SemaphoreTrace.mk
        s (if resolved then SemaphoreTrace.holders t ++ [waiter]
           else SemaphoreTrace.holders t)
  | releaseCall caller =>
      let '(next, s) := Semaphore.release (SemaphoreTrace.semaphore t) in
      let holders := removeHolder caller (SemaphoreTrace.holders t) in
      SemaphoreTrace.mk
        s (match next with
           | Some waiter => holders ++ [waiter]
           | None => holders
           end)
  end.

Definition semaphoreRun (calls : list SemaphoreCall) (t : SemaphoreTrace.t)
  : SemaphoreTrace.t :=
  fold_left semaphoreStep calls t.

(** Every [release] of the run is called by a caller that holds a permit
    at that moment.  The semaphore itself does not check this. *)
Fixpoint releasedByHolders (calls : list SemaphoreCall) (t : SemaphoreTrace.t)
  : bool :=
  match calls with
  | [] => true
  | call :: rest =>
      match call with
      | acquireCall _ => true
      | releaseCall caller =>
          existsb (Nat.eqb caller) (SemaphoreTrace.holders t)
      end
      && releasedByHolders rest (semaphoreStep t call)
  end.

(** The permits held are the ones the counter counts, as long as only
    holders release. *)
Definition semaphoreInvariant (t : SemaphoreTrace.t) : Prop :=
  let s := SemaphoreTrace.semaphore t in
  Z.of_nat (length (SemaphoreTrace.holders t)) = Semaphore.currentConcurrency s
  /\ Semaphore.currentConcurrency s <= Semaphore.maxConcurrency s
  /\ (Semaphore.queue s <> [] ->
      Semaphore.currentConcurrency s = Semaphore.maxConcurrency s).

(** Membership of a position in a list of positions. *)
Definition memPos (p : nat) (l : list nat) : bool := existsb (Nat.eqb p) l.

(** The size of the chunk at a position (0 where there is none), and the
    bytes held by the chunks at a list of positions. *)
Definition sizeAt (chunks : list Chunk.t) (i : nat) : Z :=
  match nth_error chunks i with
  | Some c => Chunk.size c
  | None => 0
  end.

Definition bytesAt (chunks : list Chunk.t) (l : list nat) : Z :=
  fold_right (fun i acc => sizeAt chunks i + acc) 0 l.

(** A plan as [calculateChunks] leaves it, whatever the chunk statuses:
    the chunks tile the file and each [size] is [end - start]. *)
Definition planned (upload : Upload.t) : Prop :=
  tiles 0 (Upload.chunks upload) (File.size (Upload.file upload))
  /\ Forall (fun c => Chunk.size c = Chunk.end_ c - Chunk.start c)
            (Upload.chunks upload).

(** The diagnostics hold no latency measurement. *)
Definition zeroLatency (d : NetworkDiagnostics.t) : Prop :=
  Forall (fun sample => Sample.latency sample = 0%R)
         (NetworkDiagnostics.samples d).

(** [upload'] continues the session [upload] on the same plan: same file
    and options, same chunk boundaries, and the sets of completed and failed
    chunks have only grown. *)
Definition continues (upload upload' : Upload.t) : Prop :=
  Upload.id upload' = Upload.id upload
  /\ Upload.file upload' = Upload.file upload
  /\ Upload.options upload' = Upload.options upload
  /\ map Chunk.boundaries (Upload.chunks upload')
     = map Chunk.boundaries (Upload.chunks upload)
  /\ incl (Upload.completedChunks upload) (Upload.completedChunks upload')
  /\ incl (Upload.failedChunks upload) (Upload.failedChunks upload').

(** The same sessions under the same keys in the same order, each one
    continued. *)
Definition continuesAll (m m' : Manager.t) : Prop :=
  Forall2 (fun e e' => fst e' = fst e /\ continues (snd e) (snd e'))
          (Manager.uploads m) (Manager.uploads m').

(** [getUpload(uploadId)] and [getAllUploads()]. *)
Definition getUpload (uploadId : string) (m : Manager.t) : option Upload.t :=
  Map_get uploadId (Manager.uploads m).

Definition getAllUploads (m : Manager.t) : list Upload.t :=
  map snd (Manager.uploads m).

(** Assignment to [chunk.hash]. *)
Definition Chunk_set_hash (h : option string) (c : Chunk.t) : Chunk.t :=
  Chunk.mk (Chunk.chunkIndex c) (Chunk.start c) (Chunk.end_ c) (Chunk.size c)
           (Chunk.isLast c) (Chunk.status c) h (Chunk.uploadUrl c)
           (Chunk.retryCount c).

(** [handleChunkHashComplete(data)]. *)
Definition handleChunkHashComplete (hash : string) (chunkIndex : nat)
  (m : Manager.t) : Manager.t :=
  match findUploadByChunkIndex chunkIndex m with
  | Some (pos, upload) =>
      storeUpload pos
        (Upload.set_chunks
           (update_nth chunkIndex (Chunk_set_hash (Some hash))
                       (Upload.chunks upload)) upload) m
  | None => m
  end.

(** Truthiness of [upload.fileHash]. *)
Definition hasFileHash (upload : Upload.t) : bool :=
  match Upload.fileHash upload with
  | Some h => negb (String.eqb h "")
  | None => false
  end.

(** The loop of [handleFileHashComplete]: the first upload without a file
    hash receives it. *)
Fixpoint assignFileHash (hash : string) (uploads : list (string * Upload.t))
  : list (string * Upload.t) :=
  match uploads with
  | [] => []
  | (key, upload) :: r =>
      if hasFileHash upload
      then (key, upload) :: assignFileHash hash r
      else (key, Upload.set_fileHash (Some hash) upload) :: r
  end.

(** [handleFileHashComplete(data)]. *)
Definition handleFileHashComplete (hash : string) (m : Manager.t) : Manager.t :=
  Manager.set_uploads (assignFileHash hash (Manager.uploads m)) m.

(** The rest of [uploadChunk] for the chunk object at position [pos] once
    the digest of its chunk index has arrived: the listener stores the
    digest in the chunk and the transfer request is posted. *)
Definition uploadChunk_hashed (pos : nat) (hash : string) (upload : Upload.t)
  : Upload.t * list Effect :=
  match nth_error (Upload.chunks upload) pos with
  | None => (upload, [])
  | Some chunk =>
      (Upload.set_chunks
         (update_nth pos (Chunk_set_hash (Some hash)) (Upload.chunks upload))
         upload,
       [UPLOAD_CHUNK (Chunk.uploadUrl chunk) (Chunk.chunkIndex chunk)
          (Chunk.start chunk) (Chunk.end_ chunk - 1)
          (File.size (Upload.file upload)) (Some hash)])
  end.

(** The two ways [finalizeUpload] ends for the upload registered under
    [key]: the answer carries [finalUrl], or the request fails with
    [message]. *)
Definition finalizeUpload_succeeded (key : string) (finalUrl : string)
  (m : Manager.t) : Manager.t :=
  Manager.set_uploads
    (Map_update key (Upload.set_finalUrl (Some finalUrl)) (Manager.uploads m)) m.

Definition finalizeUpload_failed (key : string) (message : string)
  (m : Manager.t) : Manager.t :=
  Manager.set_uploads
    (Map_update key
       (fun u => Upload.set_error (Some message) (Upload.set_status FAILED u))
       (Manager.uploads m)) m.

(** ** S3 adapter *)

(** What [S3Adapter.uploadChunk] returns for an accepted part. *)
Module UploadedPart.
Record t : Type := mk { etag : string; partNumber : string + nat }.
End UploadedPart.

(** An entry of the [parts] array in the body of the finalize request. *)
Module CompletedPart.
Record t : Type := mk { ETag : string; PartNumber : nat }.
End CompletedPart.

(** The double quote character. *)
Definition quote : Ascii.ascii := Ascii.ascii_of_nat 34.

(** The [etag.replace] of [S3Adapter.uploadChunk]: every double quote is
    removed. *)
Fixpoint stripQuotes (s : string) : string :=
  match s with
  | EmptyString => EmptyString
  | String c r =>
      if Ascii.eqb c quote then stripQuotes r else String c (stripQuotes r)
  end.

(** The value [S3Adapter.uploadChunk] builds from an accepted response:
    [None] when the ETag header is missing or empty (the adapter throws),
    otherwise the ETag without quotes and the part number taken from the
    caller's X-Part-Number header, 1 when that header is absent or empty. *)
Definition S3_uploadedPart (etagHeader : option string)
  (xPartNumber : option string) : option UploadedPart.t :=
  match etagHeader with
  | None => None
  | Some etag =>
      if String.eqb etag "" then None
      else Some (UploadedPart.mk
                   (stripQuotes etag)
                   (match xPartNumber with
                    | Some h => if String.eqb h "" then inr 1%nat else inl h
                    | None => inr 1%nat
                    end))
  end.

(** [parts.map((part, index) => ({ETag: part.etag, PartNumber: index + 1}))]
    of [S3Adapter.finalizeUpload], from position [index] on. *)
Fixpoint S3_finalizeParts_from (index : nat) (parts : list UploadedPart.t)
  : list CompletedPart.t :=
  match parts with
  | [] => []
  | part :: r =>
      CompletedPart.mk (UploadedPart.etag part) (index + 1)
      :: S3_finalizeParts_from (S index) r
  end.

Definition S3_finalizeParts (parts : list UploadedPart.t)
  : list CompletedPart.t :=
  S3_finalizeParts_from 0 parts.

(** ** Hash worker *)

(** The hexadecimal digit of a value below 16. *)
Definition hexDigit (n : N) : Ascii.ascii :=
  if (n <? 10)%N then Ascii.ascii_of_N (48 + n)
  else Ascii.ascii_of_N (87 + n).

(** [value.toString(16)] for a byte value. *)
Definition toString16 (value : N) : string :=
  if (value <? 16)%N then String (hexDigit value) EmptyString
  else String (hexDigit (value / 16)) (String (hexDigit (value mod 16)) EmptyString).

(** [hexCode.padStart(2, '0')]. *)
Definition padStart2 (s : string) : string :=
  match String.length s with
  | O => "00"%string
  | S O => String (Ascii.ascii_of_nat 48) s
  | _ => s
  end.

(** [arrayBufferToHex(buffer)] on the bytes of the buffer. *)
Definition arrayBufferToHex (buffer : list Byte.byte) : string :=
  String.concat ""
    (map (fun value => padStart2 (toString16 (Byte.to_N value))) buffer).

(** Reading two hexadecimal digits back (used to state that the rendering
    loses nothing). *)
Definition hexValue (c : Ascii.ascii) : option N :=
  let n := Ascii.N_of_ascii c in
  if ((48 <=? n) && (n <=? 57))%N then Some (n - 48)%N
  else if ((97 <=? n) && (n <=? 102))%N then Some (n - 87)%N
  else None.

Fixpoint hexToBytes (s : string) : option (list Byte.byte) :=
  match s with
  | EmptyString => Some []
  | String hi (String lo r) =>
      match hexValue hi, hexValue lo, hexToBytes r with
      | Some h, Some l, Some bytes =>
          match Byte.of_N (16 * h + l) with
          | Some b => Some (b :: bytes)
          | None => None
          end
      | _, _, _ => None
      end
  | String _ EmptyString => None
  end.

(** ** Upload worker *)

(** [String.prototype.includes]. *)
Definition includes (search s : string) : bool :=
  match String.index 0 search s with
  | Some _ => true
  | None => false
  end.

(** How a [fetch] of the worker ends: a response with its status line, or
    a rejection with an error message. *)
Inductive FetchResult : Type :=
| Responded (status : nat) (statusText : string)
| Rejected (message : string).

(** [response.ok]. *)
Definition response_ok (status : nat) : bool :=
  ((200 <=? status) && (status <=? 299))%nat.

(** How the [try] block of the worker's [uploadChunk] ends: it returns
    with the accepted response's status, or it throws an error with a
    message. *)
Definition attemptResult (result : FetchResult) : nat + string :=
  match result with
  | Responded status statusText =>
      if response_ok status then inl status
      else inr ("HTTP " ++ string_of_nat status ++ ": " ++ statusText)%string
  | Rejected message => inr message
  end.

Module WorkerRetryConfig.
Record t : Type := mk { maxAttempts : nat; baseDelay : R }.

(** The default of the [retryConfig] parameter. *)
Definition default : t := mk 3 1000.
End WorkerRetryConfig.

(** How the worker's [uploadChunk] ends: it resolves, it throws the error
    built after the loop (with its [retryable] flag), or it throws the
    TypeError of reading [lastError.message] when no attempt was made. *)
Inductive WorkerOutcome : Type :=
| Uploaded (status : nat)
| UploadFailed (message : string) (retryable : bool)
| NoAttempt.

Module WorkerRun.
Record t : Type := mk {
  outcome : WorkerOutcome;
  fetches : nat;
  sleeps : list R
}.
End WorkerRun.

(** The statements after the loop. *)
Definition afterLoop (config : WorkerRetryConfig.t) (lastError : option string)
  : WorkerOutcome :=
  match lastError with
  | None => NoAttempt
  | Some message =>
      UploadFailed
        ("Upload failed after "
         ++ string_of_nat (WorkerRetryConfig.maxAttempts config)
         ++ " attempts: " ++ message)%string
        (includes "HTTP 5" message || includes "NetworkError" message)
  end.

(** The [for] loop of the worker's [uploadChunk] from iteration [attempt]
    on, [remaining] iterations being left; [fetch i] is how the request of
    iteration [i] ends and [random i] the jitter draw of its backoff. *)
Fixpoint uploadAttempts (remaining attempt : nat)
  (config : WorkerRetryConfig.t) (fetch : nat -> FetchResult)
  (random : nat -> R) (lastError : option string) : WorkerRun.t :=
  match remaining with
  | O => WorkerRun.mk (afterLoop config lastError) 0 []
  | S remaining' =>
      match attemptResult (fetch attempt) with
      | inl status => WorkerRun.mk (Uploaded status) 1 []
      | inr message =>
          if includes "HTTP 4" message && negb (includes "HTTP 429" message)
          then WorkerRun.mk (afterLoop config (Some message)) 1 []
          else
            let rest :=
              uploadAttempts remaining' (S attempt) config fetch random
                             (Some message) in
            WorkerRun.mk
              (WorkerRun.outcome rest) (S (WorkerRun.fetches rest))
              ((if (S attempt <? WorkerRetryConfig.maxAttempts config)%nat
                then [(WorkerRetryConfig.baseDelay config * 2 ^ attempt
                       * (1 + random attempt * (1 / 10)))%R]
                else [])
               ++ WorkerRun.sleeps rest)
      end
  end.

(** The worker's [uploadChunk]. *)
Definition worker_uploadChunk (config : WorkerRetryConfig.t)
  (fetch : nat -> FetchResult) (random : nat -> R) : WorkerRun.t :=
  uploadAttempts (WorkerRetryConfig.maxAttempts config) 0 config fetch random
                 None.

(** The message the worker posts back for an UPLOAD_CHUNK request:
    CHUNK_UPLOAD_COMPLETE, or CHUNK_UPLOAD_ERROR with its payload
    ([retryable] is [error.retryable !== false]; [typeError] is the text of
    the engine's TypeError). *)
Inductive WorkerMessage : Type :=
| CHUNK_UPLOAD_COMPLETE (chunkIndex : nat)
| CHUNK_UPLOAD_ERROR (data : ErrorData.t).

Definition workerMessage (typeError : string) (chunkIndex : nat)
  (outcome : WorkerOutcome) : WorkerMessage :=
  match outcome with
  | Uploaded _ => CHUNK_UPLOAD_COMPLETE chunkIndex
  | UploadFailed message retryable =>
      CHUNK_UPLOAD_ERROR (ErrorData.mk chunkIndex message retryable)
  | NoAttempt => CHUNK_UPLOAD_ERROR (ErrorData.mk chunkIndex typeError true)
  end.

(** ** File names *)

(** [String.prototype.toLowerCase] on the ASCII letters of a file name. *)
Definition lowerAscii (c : Ascii.ascii) : Ascii.ascii :=
  let n := Ascii.nat_of_ascii c in
  if ((65 <=? n) && (n <=? 90))%nat then Ascii.ascii_of_nat (n + 32) else c.

Fixpoint toLowerCase (s : string) : string :=
  match s with
  | EmptyString => EmptyString
  | String c r => String (lowerAscii c) (toLowerCase r)
  end.

(** The dot. *)
Definition dot : Ascii.ascii := Ascii.ascii_of_nat 46.

(** [s.split('.').pop()]: what follows the last dot, the whole string when
    it has no dot; [current] collects the segment being read. *)
Fixpoint lastSegment_from (current s : string) : string :=
  match s with
  | EmptyString => current
  | String c r =>
      if Ascii.eqb c dot then lastSegment_from EmptyString r
      else lastSegment_from (current ++ String c EmptyString) r
  end.

Definition lastSegment (s : string) : string := lastSegment_from EmptyString s.

Definition compressibleTypes : list string :=
  ["txt"; "json"; "xml"; "html"; "css"; "js"; "csv"; "log";
   "md"; "yml"; "yaml"; "ini"; "cfg"; "conf"]%string.

Definition alreadyCompressed : list string :=
  ["zip"; "rar"; "7z"; "tar"; "gz"; "bz2"; "xz";
   "jpg"; "jpeg"; "png"; "gif"; "webp"; "mp4"; "mp3"; "avi"; "mkv"]%string.

(** [Array.prototype.includes] on strings. *)
Definition listIncludes (l : list string) (s : string) : bool :=
  existsb (String.eqb s) l.

(** [isCompressibleFile(filename)], for a file name in ASCII. *)
Definition isCompressibleFile (filename : string) : bool :=
  let extension := lastSegment (toLowerCase filename) in
  listIncludes compressibleTypes extension
  && negb (listIncludes alreadyCompressed extension).


(** ** The manager in its event loop *)

(** The [onmessage] listener of the upload worker. *)
Definition onUploadWorkerMessage (now : Z) (random : R)
  (message : WorkerMessage) (m : Manager.t) : Outcome.t :=
  match message with
  | CHUNK_UPLOAD_COMPLETE chunkIndex =>
      handleChunkUploadComplete now chunkIndex m
  | CHUNK_UPLOAD_ERROR data => handleChunkUploadError now random data m
  end.

(** The callback of the retry timer set by [handleChunkUploadError]:
    [this.uploadChunk(upload, chunk)] on the upload object at position
    [pos] of the Map and on its chunk object at [chunkIndex]. *)
Definition retryTimer (pos chunkIndex : nat) (m : Manager.t) : Outcome.t :=
  match nth_error (Manager.uploads m) pos with
  | Some (_, upload) =>
      let '(upload, effects) := uploadChunk chunkIndex upload in
      Outcome.mk (storeUpload pos upload m) effects false
  | None => Outcome.mk m [] false
  end.

(** What surrounds the manager during the life of one chunk: how the
    request of attempt [i] of dispatch [d] ends ([fetch d i]), the jitter
    draws of the worker ([jitter d i]) and of the manager ([random d]), the
    clock when report [d] is handled, and the text of the engine's
    TypeError. *)
Module Environment.
Record t : Type := mk {
  fetch : nat -> nat -> FetchResult;
  jitter : nat -> nat -> R;
  random : nat -> R;
  now : nat -> Z;
  typeError : string
}.
End Environment.

(** One dispatch of chunk [chunkIndex]: the worker serves the transfer
    request (the message the manager posts carries no [retryConfig], so the
    worker runs with its default), posts its report, the listener handles
    it, and a retry timer set by the handler fires.  The result is the
    manager afterwards, the number of requests the worker made, and whether
    the timer's [uploadChunk] posted a new transfer request. *)
Definition chunkRound (dispatch : nat) (env : Environment.t)
  (chunkIndex : nat) (m : Manager.t) : Manager.t * nat * bool :=
  let run :=
    worker_uploadChunk WorkerRetryConfig.default
                       (Environment.fetch env dispatch)
                       (Environment.jitter env dispatch) in
  let message :=
    workerMessage (Environment.typeError env) chunkIndex
                  (WorkerRun.outcome run) in
  let out :=
    onUploadWorkerMessage (Environment.now env dispatch)
                          (Environment.random env dispatch) message m in
  match Outcome.effects out, findUploadByChunkIndex chunkIndex m with
  | [SetTimeoutRetry _ _ _], Some (pos, _) =>
      let again := retryTimer pos chunkIndex (Outcome.manager out) in
      (Outcome.manager again, WorkerRun.fetches run,
       match Outcome.effects again with
       | [UPLOAD_CHUNK _ _ _ _ _ _] => true
       | _ => false
       end)
  | _, _ => (Outcome.manager out, WorkerRun.fetches run, false)
  end.

(** The life of a chunk from its first transfer request on. *)
Module ChunkLife.
Record t : Type := mk {
  manager : Manager.t;
  dispatches : nat;
  requests : nat
}.
End ChunkLife.

(** The dispatches of chunk [chunkIndex] one after the other, from
    dispatch number [dispatch] on, until a report schedules no retry;
    at most [rounds] dispatches are followed. *)
Fixpoint chunkLife (rounds dispatch : nat) (env : Environment.t)
  (chunkIndex : nat) (m : Manager.t) : ChunkLife.t :=
  match rounds with
  | O => ChunkLife.mk m 0 0
  | S rounds' =>
      let '(m', requests, again) := chunkRound dispatch env chunkIndex m in
      if again
      then
        let rest := chunkLife rounds' (S dispatch) env chunkIndex m' in
        ChunkLife.mk (ChunkLife.manager rest) (S (ChunkLife.dispatches rest))
                     (requests + ChunkLife.requests rest)
      else ChunkLife.mk m' 1 requests
  end.

(** ** Live sessions *)

(** [Array.from] in [calculateChunks] throws a RangeError, before
    [createUpload] has registered anything, when the number of chunks is
    infinite (chunk size 0 and a non-empty file) or exceeds 2^32 - 1. *)
Definition planThrows (file : File.t) (chunkSize : Z) : bool :=
  if chunkSize =? 0 then 0 <? File.size file
  else 2 ^ 32 <=? ceil_div (File.size file) chunkSize.

(** What happens to a manager: the calls of its public methods, the
    messages of its two workers, the answers to its requests, and its
    timers.  The continuations of [uploadChunk] name the upload object by
    its key and the chunk object by its position. *)
Inductive Event : Type :=
| CreateUpload (file : File.t) (storageType : string)
               (options : Options.overrides) (uploadId : string)
| StartUpload (now : Z) (uploadId : string)
| InitializeAnswered (uploadId data_uploadId : string)
                     (data_chunkUrls : list string)
| InitializeFailed (uploadId message : string)
| FileHashComplete (hash : string)
| ChunkHashComplete (hash : string) (chunkIndex : nat)
| ChunkDigestArrived (uploadKey : string) (pos : nat) (hash : string)
| ChunkUploadComplete (now : Z) (chunkIndex : nat)
| ChunkUploadError (now : Z) (random : R) (data : ErrorData.t)
| RetryTimerFired (uploadKey : string) (pos : nat)
| FinalizeAnswered (uploadKey finalUrl : string)
| FinalizeFailed (uploadKey message : string)
| PauseUpload (uploadId : string)
| ResumeUpload (uploadId : string)
| CancelUpload (uploadId : string)
| Destroy.

(** The manager after an event. *)
Definition step (e : Event) (m : Manager.t) : Manager.t :=
  match e with
  | CreateUpload file storageType options uploadId =>
      if planThrows file
           (Options.chunkSize (Options.merge (Manager.options m) options))
      then m
      else Outcome.manager (createUpload file storageType options uploadId m)
  | StartUpload now uploadId => Outcome.manager (startUpload now uploadId m)
  | InitializeAnswered uploadId data_uploadId data_chunkUrls =>
      Outcome.manager
        (startUpload_initialized uploadId data_uploadId data_chunkUrls m)
  | InitializeFailed uploadId message =>
      Outcome.manager (startUpload_initializeFailed uploadId message m)
  | FileHashComplete hash => handleFileHashComplete hash m
  | ChunkHashComplete hash chunkIndex =>
      handleChunkHashComplete hash chunkIndex m
  | ChunkDigestArrived uploadKey pos hash =>
      Manager.set_uploads
        (Map_update uploadKey (fun u => fst (uploadChunk_hashed pos hash u))
                    (Manager.uploads m)) m
  | ChunkUploadComplete now chunkIndex =>
      Outcome.manager (handleChunkUploadComplete now chunkIndex m)
  | ChunkUploadError now random data =>
      Outcome.manager (handleChunkUploadError now random data m)
  | RetryTimerFired uploadKey pos =>
      Manager.set_uploads
        (Map_update uploadKey (fun u => fst (uploadChunk pos u))
                    (Manager.uploads m)) m
  | FinalizeAnswered uploadKey finalUrl =>
      finalizeUpload_succeeded uploadKey finalUrl m
  | FinalizeFailed uploadKey message => finalizeUpload_failed uploadKey message m
  | PauseUpload uploadId => Outcome.manager (pauseUpload uploadId m)
  | ResumeUpload uploadId => Outcome.manager (resumeUpload uploadId m)
  | CancelUpload uploadId => Outcome.manager (cancelUpload uploadId m)
  | Destroy => Manager.set_uploads [] m
  end.

(** The manager a sequence of events leaves, in order. *)
Definition run (events : list Event) (m : Manager.t) : Manager.t :=
  fold_left (fun m e => step e m) events m.

(** ** Concrete sessions used as test inputs *)

(** A session as [createUpload] leaves it before planning, for a file of
    [fileSize] bytes. *)
Definition sampleOptions : Options.t := Options.mk (1024 * 1024) 3 true.

Definition sampleUpload (fileSize : Z) (options : Options.t) : Upload.t :=
  Upload.mk "upload_a" (File.mk "a.bin" fileSize) "s3" PENDING 0%R 0%R
            Calculating [] [] [] None None None options None None None None.


(** An HTTP 408 answer, with no error code attached. *)
Definition error408 : UploadError.t := UploadError.mk (Some 408) None.

(** A diagnostics window fed through [addSample]: three samples without
    latency and one of 100 ms. *)
Definition spikyDiagnostics : NetworkDiagnostics.t :=
  NetworkDiagnostics.addSample 1000 100 4
    (NetworkDiagnostics.addSample 1000 0 3
       (NetworkDiagnostics.addSample 1000 0 2
          (NetworkDiagnostics.addSample 1000 0 1 NetworkDiagnostics.new))).

(** A 15 MiB file in 1 MiB chunks, being uploaded: the session as
    [createUpload] and [startUpload] leave it. *)
Definition fifteenChunks : Upload.t :=
  Upload.set_startTime (Some 1000)
    (Upload.set_status UPLOADING
       (calculateChunks (sampleUpload (15 * 1024 * 1024) sampleOptions))).

(** The same session after chunk 0 has failed for good. *)
Definition oneFailed : Upload.t :=
  Upload.set_failedChunks [0%nat]
    (Upload.set_chunks
       (update_nth 0 (Chunk.set_status FAILED) (Upload.chunks fifteenChunks))
       fifteenChunks).

(** The same session while chunk 1 is in flight after [retryCount] errors. *)
Definition retried (retryCount : nat) : Upload.t :=
  Upload.set_chunks
    (update_nth 1
       (fun c => Chunk.set_retryCount retryCount (Chunk.set_status UPLOADING c))
       (Upload.chunks fifteenChunks))
    fifteenChunks.

(** A manager holding one session. *)
Definition managerOf (upload : Upload.t) : Manager.t :=
  Manager.mk sampleOptions [(Upload.id upload, upload)] NetworkDiagnostics.new.

(** A 12-byte file uploaded in one chunk and finalized. *)
Definition completedUpload : Upload.t :=
  Upload.mk "upload_a" (File.mk "a.txt" 12) "s3" COMPLETED 100%R 12%R
            (Seconds 0)
            [Chunk.mk 0 0 12 12 true COMPLETED (Some "9f86d0"%string)
                      (Some "https://s3/part1"%string) 0]
            [0%nat] [] (Some 1000) (Some 2000) None sampleOptions
            (Some "c0ffee"%string) (Some "srv-1"%string)
            (Some ["https://s3/part1"%string])
            (Some "https://s3/a.txt"%string).

(** A second session for the same 15 MiB plan, created after the first. *)
Definition laterUpload : Upload.t :=
  Upload.mk "upload_b" (File.mk "b.bin" (15 * 1024 * 1024)) "s3" UPLOADING
            0%R 0%R Calculating
            (planChunks (File.mk "b.bin" (15 * 1024 * 1024)) (1024 * 1024))
            [] [] (Some 1500) None None sampleOptions None None None None.

(** Two sessions active at once, in creation order. *)
Definition twoUploads : Manager.t :=
  Manager.mk sampleOptions
             [("upload_a"%string, fifteenChunks); ("upload_b"%string, laterUpload)]
             NetworkDiagnostics.new.

(** A 2 MiB file uploaded with [concurrency = 1]: created, started,
    initialized, then paused and resumed before any chunk event arrives. *)
Definition serialManager : Manager.t :=
  Manager.new (Options.mkOverrides None (Some 1) None).

Definition created : Manager.t :=
  Outcome.manager
    (createUpload (File.mk "a.bin" (2 * 1024 * 1024)) "s3"
                  (Options.mkOverrides None None None) "upload_a" serialManager).

Definition started : Manager.t :=
  Outcome.manager
    (startUpload_initialized "upload_a" "srv-1"
       ["https://s3/part1"%string; "https://s3/part2"%string]
       (Outcome.manager (startUpload 1000 "upload_a" created))).

Definition pausedAndResumed : Manager.t :=
  Outcome.manager
    (resumeUpload "upload_a"
       (Outcome.manager (pauseUpload "upload_a" started))).

(** A diagnostics window holding one measured sample: 4 MiB/s at 100 ms. *)
Definition measuredDiagnostics : NetworkDiagnostics.t :=
  NetworkDiagnostics.addSample (IZR (4 * 1024 * 1024)) 100 5000
                               NetworkDiagnostics.new.

(** An 8 MiB file in 1 MiB chunks: chunks 0 to 5 are completed, chunk 6 is
    in flight, chunk 7 is pending. *)
Definition sixDone : Upload.t :=
  let planned := calculateChunks (sampleUpload (8 * 1024 * 1024) sampleOptions) in
  Upload.set_completedChunks [0; 1; 2; 3; 4; 5]%nat
    (Upload.set_startTime (Some 1000)
       (Upload.set_status UPLOADING
          (Upload.set_chunks
             (map (fun c =>
                     if (Chunk.chunkIndex c <? 6)%nat
                     then Chunk.set_status COMPLETED c
                     else if (Chunk.chunkIndex c =? 6)%nat
                          then Chunk.set_status UPLOADING c
                          else c)
                  (Upload.chunks planned))
             planned))).

(** The 15 MiB session with chunks 0 and 1 completed. *)
Definition twoDone : Upload.t :=
  Upload.set_completedChunks [0; 1]%nat
    (Upload.set_chunks
       (update_nth 0 (Chunk.set_status COMPLETED)
          (update_nth 1 (Chunk.set_status COMPLETED)
                      (Upload.chunks fifteenChunks)))
       fifteenChunks).

(** A 12-byte file whose single chunk is in flight. *)
Definition lastChunkInFlight : Upload.t :=
  Upload.mk "upload_a" (File.mk "a.txt" 12) "s3" UPLOADING 0%R 0%R Calculating
            [Chunk.mk 0 0 12 12 true UPLOADING (Some "9f86d0"%string)
                      (Some "https://s3/part1"%string) 0]
            [] [] (Some 1000) None None sampleOptions
            (Some "c0ffee"%string) (Some "srv-1"%string)
            (Some ["https://s3/part1"%string]) None.

(** Two registered sessions: the first already has its file hash, the
    second does not. *)
Definition hashedThenUnhashed : Manager.t :=
  Manager.mk sampleOptions
             [("upload_a"%string, lastChunkInFlight);
              ("upload_b"%string, laterUpload)]
             NetworkDiagnostics.new.

(** A provider that answers every request with 429, and one that answers
    404. *)
Definition alwaysRateLimited (attempt : nat) : FetchResult :=
  Responded 429 "Too Many Requests".

Definition notFound (attempt : nat) : FetchResult :=
  Responded 404 "Not Found".

(** A provider that answers 503 twice and then accepts the part. *)
Definition unavailableTwice (attempt : nat) : FetchResult :=
  if (attempt <? 2)%nat then Responded 503 "Service Unavailable"
  else Responded 200 "OK".

(** No jitter. *)
Definition noJitter (attempt : nat) : R := 0%R.


(** [sixDone] after its plan has been rebuilt with 4 MiB chunks: two
    chunks, while the completed set still lists the indices 0 to 5. *)
Definition replanned : Upload.t :=
  calculateChunks
    (Upload.set_options
       (Options.set_chunkSize (4 * 1024 * 1024) (Upload.options sixDone))
       sixDone).

(** A finished session registered first and the only active session
    after it: uploads are never removed from the Map. *)
Definition finishedThenActive : Manager.t :=
  Manager.mk sampleOptions
             [("upload_a"%string, completedUpload);
              ("upload_b"%string, laterUpload)]
             NetworkDiagnostics.new.

(** The 15 MiB session while chunk 1, hashed, is in flight for the first
    time. *)
Definition inFlight : Upload.t :=
  Upload.set_chunks
    (update_nth 1
       (fun c =>
          Chunk_set_hash (Some "9f86d0"%string)
            (Chunk.set_uploadUrl (Some "https://s3/part2"%string)
               (Chunk.set_status UPLOADING c)))
       (Upload.chunks fifteenChunks))
    fifteenChunks.

(** A provider that answers every request with 503, seen by a manager
    whose clock advances by one second per report. *)
Definition alwaysUnavailable : Environment.t :=
  Environment.mk
    (fun dispatch attempt => Responded 503 "Service Unavailable")
    (fun dispatch attempt => 0%R)
    (fun dispatch => 0%R)
    (fun dispatch => 2000 + 1000 * Z.of_nat dispatch)
    "TypeError".

(** *** Planner lemmas *)



Lemma ceil_div_zero (b : Z) : ceil_div 0 b = 0.
Proof. unfold ceil_div. simpl. apply (f_equal Z.opp (Zdiv_0_l b)). Qed.




Lemma sum_sizes_tiles (l : list Chunk.t) :
  (forall c, In c l -> Chunk.size c = Chunk.end_ c - Chunk.start c) ->
  forall lo hi, tiles lo l hi -> sum_sizes l = hi - lo.
Proof.
  induction l as [|c r IH]; intros Hsz lo hi Ht; simpl in *.
  - lia.
  - destruct Ht as (Hs & _ & Hr).
    rewrite (IH (fun c' Hc' => Hsz c' (or_intror Hc')) _ _ Hr).
    rewrite (Hsz c (or_introl eq_refl)). lia.
Qed.


(** ** Chunk planner: properties *)

Lemma calculateChunks_chunks (upload : Upload.t) :
  Upload.chunks (calculateChunks upload)
  = planChunks (Upload.file upload) (Options.chunkSize (Upload.options upload)).
Proof. reflexivity. Qed.



(** C4 (as stated, refuted). For an empty file the plan does not consist
    of one chunk of size 0 with [isLast = true]. *)
Lemma calculateChunks_empty_file_counterexample :
  ~ (exists c,
        Upload.chunks (calculateChunks (sampleUpload 0 sampleOptions)) = [c]
        /\ Chunk.size c = 0 /\ Chunk.isLast c = true).
Proof. intros (c & Hc & _). discriminate Hc. Qed.

(** C4 (amended). For an empty file and any positive chunk size,
    [calculateChunks] plans no chunk at all: [Math.ceil(0 / chunkSize)] is
    0 and [Array.from] builds the empty array. *)
Theorem calculateChunks_empty_file (upload : Upload.t) :
  File.size (Upload.file upload) = 0 ->
  0 < Options.chunkSize (Upload.options upload) ->
  Upload.chunks (calculateChunks upload) = [].
Proof.
  intros H0 _. rewrite calculateChunks_chunks. unfold planChunks.
  rewrite H0, ceil_div_zero. reflexivity.
Qed.

Lemma calculateChunks_empty_file_witness :
  File.size (Upload.file (sampleUpload 0 sampleOptions)) = 0
  /\ 0 < Options.chunkSize (Upload.options (sampleUpload 0 sampleOptions))
  /\ Upload.chunks (calculateChunks (sampleUpload 0 sampleOptions)) = [].
Proof.
  split; [reflexivity|]. split; [reflexivity|].
  apply (calculateChunks_empty_file (sampleUpload 0 sampleOptions));
    reflexivity.
Defined.

(** ** Retry policy: properties *)

Lemma shouldRetry_true_iff (error : UploadError.t) :
  shouldRetry error = true <->
  (UploadError.response error = None
   \/ (exists s, UploadError.response error = Some s /\ (500 <= s \/ s = 429))
   \/ UploadError.code error = Some "NETWORK_ERROR"%string).
Proof.
  unfold shouldRetry. destruct error as [[s|] [c|]]; cbn.
  - rewrite !orb_true_iff, Z.leb_le, Z.eqb_eq, String.eqb_eq. split.
    + intros [[H|H]|H]; [right; left; exists s; auto ..| right; right; congruence].
    + intros [H|[(s' & Hs & H)|H]]; [discriminate | | ].
      * injection Hs as <-. left. destruct H; auto.
      * right. congruence.
  - rewrite orb_false_r, orb_true_iff, Z.leb_le, Z.eqb_eq. split.
    + intros H. right; left; exists s; auto.
    + intros [H|[(s' & Hs & H)|H]]; [discriminate | | discriminate].
      injection Hs as <-. exact H.
  - split; auto.
  - split; auto.
Qed.

(** C6 (as stated, refuted). At an HTTP 408 answer the retry decision is
    not the one the claim's classification gives: 408 is not retried. *)
Lemma shouldRetry_408_counterexample :
  ~ (RetryConfig.shouldRetry (getRetryConfig 1 0) error408 = true <->
     (UploadError.response error408 = None
      \/ exists s, UploadError.response error408 = Some s
                   /\ (500 <= s \/ s = 408 \/ s = 429))).
Proof.
  intros [_ H].
  assert (Hf : RetryConfig.shouldRetry (getRetryConfig 1 0) error408 = false)
    by reflexivity.
  rewrite H in Hf; [discriminate|].
  right. exists 408. split; [reflexivity | lia].
Qed.

(** C6 (amended). The [shouldRetry] decision of [getRetryConfig] is to
    retry if and only if the error has no response, or its HTTP status is
    at least 500, or its status is 429, or its code is NETWORK_ERROR; every
    other error that carries a response is not retried.  In particular an
    error with HTTP status 408 is retried only when its code is
    NETWORK_ERROR. *)
Theorem shouldRetry_classification (attempt : nat) (random : R)
  (error : UploadError.t) :
  (RetryConfig.shouldRetry (getRetryConfig attempt random) error = true <->
   (UploadError.response error = None
    \/ (exists s, UploadError.response error = Some s /\ (500 <= s \/ s = 429))
    \/ UploadError.code error = Some "NETWORK_ERROR"%string))
  /\ (forall code,
        RetryConfig.shouldRetry (getRetryConfig attempt random)
                                (UploadError.mk (Some 408) code)
        = match code with
          | Some c => String.eqb c "NETWORK_ERROR"
          | None => false
          end).
Proof.
  split.
  - apply shouldRetry_true_iff.
  - intros [c|]; reflexivity.
Qed.

(** ** Network diagnostics: properties *)

Lemma getLatencyVariance_nonneg (d : NetworkDiagnostics.t) :
  (0 <= NetworkDiagnostics.getLatencyVariance d)%R.
Proof.
  unfold NetworkDiagnostics.getLatencyVariance.
  destruct (length (NetworkDiagnostics.samples d) <? 2)%nat.
  - lra.
  - apply sqrt_pos.
Qed.

Lemma spikyDiagnostics_samples :
  NetworkDiagnostics.samples spikyDiagnostics
  = [Sample.mk 1000 0 1; Sample.mk 1000 0 2; Sample.mk 1000 0 3;
     Sample.mk 1000 100 4].
Proof. reflexivity. Qed.

Lemma spikyDiagnostics_average :
  NetworkDiagnostics.getAverageLatency spikyDiagnostics = 25%R.
Proof.
  unfold NetworkDiagnostics.getAverageLatency.
  rewrite spikyDiagnostics_samples.
  cbn [length Nat.eqb fold_left Sample.latency].
  replace (INR 4) with 4%R by (simpl; lra). lra.
Qed.

Lemma spikyDiagnostics_deviation :
  NetworkDiagnostics.getLatencyVariance spikyDiagnostics = sqrt 1875.
Proof.
  unfold NetworkDiagnostics.getLatencyVariance.
  rewrite spikyDiagnostics_average, spikyDiagnostics_samples.
  cbn [length Nat.ltb Nat.leb fold_left Sample.latency].
  replace (INR 4) with 4%R by (simpl; lra). f_equal. lra.
Qed.

(** C8 (as stated, refuted). After the samples with latencies 0, 0, 0 and
    100 ms the mean is 25 and the deviation sqrt(1875) > 25, and the
    stability is negative: it is not in [0, 1]. *)
Lemma getNetworkStability_counterexample :
  ~ (0 <= NetworkDiagnostics.getNetworkStability spikyDiagnostics <= 1)%R.
Proof.
  unfold NetworkDiagnostics.getNetworkStability.
  rewrite spikyDiagnostics_average, spikyDiagnostics_deviation.
  destruct (Rlt_dec 0 25) as [_|Hn]; [|lra].
  assert (Hs : (25 < sqrt 1875)%R).
  { rewrite <- (sqrt_square 25) at 1 by lra. apply sqrt_lt_1; lra. }
  intros [H _]. unfold Rdiv in H.
  assert (sqrt 1875 * / 25 > 1)%R by lra. lra.
Qed.

(** C8 (amended). [getNetworkStability] returns 1 - deviation / mean
    without clamping when the mean latency is positive, and 0 otherwise,
    where the deviation is 0 below two samples and the square root of the
    mean squared distance to the mean latency from two samples on.  The
    value never exceeds 1, and it is negative exactly when the deviation
    exceeds a positive mean. *)
Theorem getNetworkStability_unclamped (d : NetworkDiagnostics.t) :
  let mean := NetworkDiagnostics.getAverageLatency d in
  let deviation := NetworkDiagnostics.getLatencyVariance d in
  let stability := NetworkDiagnostics.getNetworkStability d in
  let n := length (NetworkDiagnostics.samples d) in
  ((n < 2)%nat /\ deviation = 0%R
   \/ (2 <= n)%nat
      /\ deviation
         = sqrt (fold_left
                   (fun sum sample => sum + (Sample.latency sample - mean) ^ 2)
                   (NetworkDiagnostics.samples d) 0 / INR n)%R)
  /\ ((0 < mean)%R /\ stability = (1 - deviation / mean)%R
      \/ (mean <= 0)%R /\ stability = 0%R)
  /\ (stability <= 1)%R
  /\ ((stability < 0)%R <-> (0 < mean < deviation)%R).
Proof.
  intros mean deviation stability n.
  assert (Hd : (0 <= deviation)%R) by apply getLatencyVariance_nonneg.
  split.
  { subst deviation n. unfold NetworkDiagnostics.getLatencyVariance.
    destruct (Nat.ltb_spec (length (NetworkDiagnostics.samples d)) 2).
    - left. split; [assumption | reflexivity].
    - right. split; [assumption | reflexivity]. }
  subst stability. unfold NetworkDiagnostics.getNetworkStability.
  fold mean deviation.
  destruct (Rlt_dec 0 mean) as [Hm|Hm].
  - assert (Hq : (0 <= deviation / mean)%R).
    { unfold Rdiv. apply Rmult_le_pos; [exact Hd|].
      left. apply Rinv_0_lt_compat. exact Hm. }
    split; [left; split; [exact Hm | reflexivity]|].
    split; [lra|].
    split.
    + intros Hlt. split; [exact Hm|].
      assert (H1 : (1 < deviation / mean)%R) by lra.
      apply (Rmult_lt_compat_r mean) in H1; [|exact Hm].
      unfold Rdiv in H1. rewrite Rmult_assoc, Rinv_l in H1; lra.
    + intros [_ Hlt].
      assert (H1 : (1 < deviation / mean)%R).
      { apply (Rmult_lt_reg_r mean); [exact Hm|].
        unfold Rdiv. rewrite Rmult_assoc, Rinv_l; lra. }
      lra.
  - split; [right; split; [lra | reflexivity]|].
    split; [lra|].
    split; [lra | intros [H _]; lra].
Qed.

(** ** Containers: lemmas *)

Lemma nth_error_update_nth_eq {A : Type} (f : A -> A) (l : list A) (i : nat) :
  nth_error (update_nth i f l) i = option_map f (nth_error l i).
Proof.
  revert i. induction l as [|x r IH]; intros [|i]; cbn; auto.
Qed.

Lemma nth_error_update_nth_ne {A : Type} (f : A -> A) (l : list A) (i j : nat) :
  i <> j -> nth_error (update_nth i f l) j = nth_error l j.
Proof.
  revert i j. induction l as [|x r IH]; intros [|i] [|j] Hne; cbn; auto.
  contradiction.
Qed.

Lemma length_update_nth {A : Type} (f : A -> A) (l : list A) (i : nat) :
  length (update_nth i f l) = length l.
Proof.
  revert i. induction l as [|x r IH]; intros [|i]; cbn; auto.
Qed.

Lemma Set_has_true_iff (k : nat) (s : list nat) : Set_has k s = true <-> In k s.
Proof.
  unfold Set_has. rewrite existsb_exists. split.
  - intros (x & Hx & He). apply Nat.eqb_eq in He. subst. exact Hx.
  - intros H. exists k. split; [exact H | apply Nat.eqb_refl].
Qed.

Lemma Set_add_In (k : nat) (s : list nat) : In k (Set_add k s).
Proof.
  unfold Set_add. destruct (Set_has k s) eqn:E.
  - apply Set_has_true_iff. exact E.
  - apply in_or_app. right. left. reflexivity.
Qed.

(** ** Session controller: lemmas *)

(** What [autoTuneChunkSize] may touch: the plan and the options. *)
Lemma autoTuneChunkSize_frame (d : NetworkDiagnostics.t) (upload : Upload.t) :
  exists chunks options,
    autoTuneChunkSize d upload
    = Upload.set_chunks chunks (Upload.set_options options upload).
Proof.
  unfold autoTuneChunkSize.
  destruct (Rlt_dec _ _); [destruct (Rlt_dec _ _); [destruct (Rlt_dec _ _)|]|].
  - eexists _, _. reflexivity.
  - exists (Upload.chunks upload), (Upload.options upload). destruct upload; reflexivity.
  - exists (Upload.chunks upload), (Upload.options upload). destruct upload; reflexivity.
  - exists (Upload.chunks upload), (Upload.options upload). destruct upload; reflexivity.
Qed.

(** What [updateUploadProgress] may touch: progress, speed, ETA, and, through
    the tuner, the plan and the options. *)
Lemma updateUploadProgress_frame (now : Z) (d d' : NetworkDiagnostics.t)
  (upload upload' : Upload.t) :
  updateUploadProgress now d upload = Some (d', upload') ->
  exists progress speed eta chunks options,
    upload'
    = Upload.set_chunks chunks
        (Upload.set_options options
           (Upload.set_eta eta
              (Upload.set_speed speed (Upload.set_progress progress upload)))).
Proof.
  unfold updateUploadProgress.
  destruct (completedBytes _ _ _) as [bytes|]; [|discriminate].
  set (u1 := Upload.set_progress _ upload).
  set (u2 := match Upload.startTime u1 with Some _ => _ | None => _ end).
  assert (H2 : exists speed eta,
             u2 = Upload.set_eta eta (Upload.set_speed speed u1)).
  { subst u2. destruct (Upload.startTime u1) as [t|].
    - destruct (t =? 0).
      + exists (Upload.speed u1), (Upload.eta u1). destruct u1; reflexivity.
      + eexists _, _. reflexivity.
    - exists (Upload.speed u1), (Upload.eta u1). destruct u1; reflexivity. }
  destruct H2 as (speed & eta & H2).
  intros H. injection H as _ <-.
  destruct (_ && _).
  - destruct (autoTuneChunkSize_frame
                (NetworkDiagnostics.addSample (Upload.speed u2) 0 now d) u2)
      as (chunks & options & ->).
    rewrite H2. subst u1. eexists _, _, _, _, _. reflexivity.
  - rewrite H2. subst u1.
    exists (IZR bytes / IZR (File.size (Upload.file upload)) * 100)%R,
      speed, eta, (Upload.chunks upload), (Upload.options upload).
    destruct upload; reflexivity.
Qed.

(** The tuner is not consulted until more than five chunks are done. *)
Lemma updateUploadProgress_chunks (now : Z) (d d' : NetworkDiagnostics.t)
  (upload upload' : Upload.t) :
  updateUploadProgress now d upload = Some (d', upload') ->
  (length (Upload.completedChunks upload) <= 5)%nat ->
  Upload.chunks upload' = Upload.chunks upload.
Proof.
  unfold updateUploadProgress.
  destruct (completedBytes _ _ _) as [bytes|]; [|discriminate].
  set (u1 := Upload.set_progress _ upload).
  set (u2 := match Upload.startTime u1 with Some _ => _ | None => _ end).
  intros H Hle. injection H as _ <-.
  assert (H2 : Upload.chunks u2 = Upload.chunks upload
               /\ Upload.completedChunks u2 = Upload.completedChunks upload).
  { subst u2. destruct (Upload.startTime u1) as [t|]; [destruct (t =? 0)|];
      split; reflexivity. }
  destruct H2 as [Hc Hd].
  replace (5 <? length (Upload.completedChunks u2))%nat with false.
  - rewrite andb_false_r. exact Hc.
  - symmetry. rewrite Hd. apply Nat.ltb_ge. exact Hle.
Qed.

(** [findUploadByChunkIndex] returns the first entry, in insertion order,
    whose plan has a chunk at the index. *)
Lemma findUploadByChunkIndex_from_Some (chunkIndex : nat)
  (uploads : list (string * Upload.t)) :
  forall (base pos : nat) (upload : Upload.t),
    findUploadByChunkIndex_from base chunkIndex uploads = Some (pos, upload) ->
    (base <= pos)%nat
    /\ (exists key, nth_error uploads (pos - base) = Some (key, upload))
    /\ (chunkIndex < length (Upload.chunks upload))%nat
    /\ (forall j key' upload',
          (j < pos - base)%nat -> nth_error uploads j = Some (key', upload') ->
          (length (Upload.chunks upload') <= chunkIndex)%nat).
Proof.
  induction uploads as [|[k u] r IH]; intros base pos upload H; cbn in H.
  - discriminate.
  - destruct (nth_error (Upload.chunks u) chunkIndex) as [c|] eqn:E.
    + injection H as <- <-. rewrite Nat.sub_diag.
      split; [lia|]. split; [exists k; reflexivity|].
      split; [apply nth_error_Some; congruence|].
      intros j key' upload' Hj. lia.
    + apply IH in H. destruct H as (Hb & (key & Hk) & Hlen & Hbefore).
      split; [lia|].
      replace (pos - base)%nat with (S (pos - S base)) by lia.
      split; [exists key; exact Hk|]. split; [exact Hlen|].
      intros [|j] key' upload' Hj Hn; cbn in Hn.
      * injection Hn as <- <-. apply nth_error_None. exact E.
      * apply (Hbefore j key' upload'); [lia | exact Hn].
Qed.

Lemma findUploadByChunkIndex_from_first (chunkIndex : nat)
  (uploads : list (string * Upload.t)) :
  forall (base p : nat) (key : string) (upload : Upload.t),
    nth_error uploads p = Some (key, upload) ->
    (chunkIndex < length (Upload.chunks upload))%nat ->
    (forall j key' upload',
        (j < p)%nat -> nth_error uploads j = Some (key', upload') ->
        (length (Upload.chunks upload') <= chunkIndex)%nat) ->
    findUploadByChunkIndex_from base chunkIndex uploads
    = Some ((base + p)%nat, upload).
Proof.
  induction uploads as [|[k u] r IH]; intros base p key upload Hp Hlen Hbefore.
  - destruct p; discriminate.
  - cbn. destruct p as [|p]; cbn in Hp.
    + injection Hp as -> ->.
      destruct (nth_error (Upload.chunks upload) chunkIndex) eqn:E.
      * rewrite Nat.add_0_r. reflexivity.
      * apply nth_error_None in E. lia.
    + assert (E : nth_error (Upload.chunks u) chunkIndex = None).
      { apply nth_error_None. apply (Hbefore 0%nat k u); [lia | reflexivity]. }
      rewrite E. rewrite (IH (S base) p key upload Hp Hlen).
      * f_equal. f_equal. lia.
      * intros j key' upload' Hj Hn.
        apply (Hbefore (S j) key' upload'); [lia | exact Hn].
Qed.

Lemma storeUpload_same (pos : nat) (upload old : Upload.t) (key : string)
  (m : Manager.t) :
  nth_error (Manager.uploads m) pos = Some (key, old) ->
  nth_error (Manager.uploads (storeUpload pos upload m)) pos
  = Some (key, upload).
Proof.
  intros H. unfold storeUpload. cbn.
  rewrite nth_error_update_nth_eq, H. reflexivity.
Qed.

Lemma storeUpload_other (pos p : nat) (upload : Upload.t) (m : Manager.t) :
  pos <> p ->
  nth_error (Manager.uploads (storeUpload pos upload m)) p
  = nth_error (Manager.uploads m) p.
Proof.
  intros H. unfold storeUpload. cbn. apply nth_error_update_nth_ne. exact H.
Qed.

(** ** The tuner as the manager feeds it *)

(** Samples without latency, the only ones [updateUploadProgress]
    records, keep the tuner from acting. *)
Lemma autoTuneChunkSize_without_latency (d : NetworkDiagnostics.t)
  (upload : Upload.t) :
  Forall (fun sample => Sample.latency sample = 0%R)
         (NetworkDiagnostics.samples d) ->
  autoTuneChunkSize d upload = upload.
Proof.
  intros Hzero.
  assert (Hsum : forall l acc,
             Forall (fun sample => Sample.latency sample = 0%R) l ->
             fold_left (fun sum sample => (sum + Sample.latency sample)%R) l acc
             = acc).
  { induction l as [|s r IH]; intros acc Hl; cbn; [reflexivity|].
    inversion Hl as [|? ? Hs Hr]; subst. rewrite IH by exact Hr.
    rewrite Hs. lra. }
  assert (Havg : NetworkDiagnostics.getAverageLatency d = 0%R).
  { unfold NetworkDiagnostics.getAverageLatency.
    destruct (_ =? _)%nat; [reflexivity|].
    rewrite Hsum by exact Hzero. unfold Rdiv. apply Rmult_0_l. }
  unfold autoTuneChunkSize, NetworkDiagnostics.getNetworkStability.
  rewrite Havg.
  destruct (Rlt_dec 0 (NetworkDiagnostics.getAverageSpeed d)); [|reflexivity].
  destruct (Rlt_dec 0 0) as [H|_]; [lra|].
  destruct (Rlt_dec (7 / 10) 0) as [H|_]; [lra | reflexivity].
Qed.

(** [addSample] keeps a window free of latency measurements free of
    them. *)
Lemma addSample_without_latency (speed : R) (now : Z)
  (d : NetworkDiagnostics.t) :
  Forall (fun sample => Sample.latency sample = 0%R)
         (NetworkDiagnostics.samples d) ->
  Forall (fun sample => Sample.latency sample = 0%R)
         (NetworkDiagnostics.samples
            (NetworkDiagnostics.addSample speed 0 now d)).
Proof.
  intros Hzero.
  assert (Hpushed : Forall (fun sample => Sample.latency sample = 0%R)
                           (NetworkDiagnostics.samples d
                            ++ [Sample.mk speed 0 now])).
  { apply Forall_app. split; [exact Hzero|]. constructor; [reflexivity|].
    constructor. }
  unfold NetworkDiagnostics.addSample.
  destruct (_ <? _)%nat; cbn [NetworkDiagnostics.samples]; [|exact Hpushed].
  destruct (NetworkDiagnostics.samples d ++ [Sample.mk speed 0 now])
    as [|s r]; cbn [tl]; [constructor|].
  inversion Hpushed; assumption.
Qed.

(** As wired, the progress computation therefore never re-plans: it feeds
    the diagnostics with latency 0 only. *)
Lemma updateUploadProgress_never_tunes (now : Z) (d d' : NetworkDiagnostics.t)
  (upload upload' : Upload.t) :
  Forall (fun sample => Sample.latency sample = 0%R)
         (NetworkDiagnostics.samples d) ->
  updateUploadProgress now d upload = Some (d', upload') ->
  Upload.chunks upload' = Upload.chunks upload
  /\ Upload.options upload' = Upload.options upload
  /\ Forall (fun sample => Sample.latency sample = 0%R)
            (NetworkDiagnostics.samples d').
Proof.
  intros Hzero. unfold updateUploadProgress.
  destruct (completedBytes _ _ _) as [bytes|]; [|discriminate].
  set (u1 := Upload.set_progress _ upload).
  set (u2 := match Upload.startTime u1 with Some _ => _ | None => _ end).
  assert (H2 : Upload.chunks u2 = Upload.chunks upload
               /\ Upload.options u2 = Upload.options upload).
  { subst u2. destruct (Upload.startTime u1) as [t|]; [destruct (t =? 0)|];
      split; reflexivity. }
  intros H. injection H as <- <-.
  pose proof (addSample_without_latency (Upload.speed u2) now d Hzero) as Hd.
  rewrite (autoTuneChunkSize_without_latency _ u2 Hd).
  destruct (_ && _); (split; [apply H2 | split; [apply H2 | exact Hd]]).
Qed.

(** ** Chunk errors: lemmas *)

Lemma updateUploadProgress_sessionView (now : Z) (d d' : NetworkDiagnostics.t)
  (upload upload' : Upload.t) :
  updateUploadProgress now d upload = Some (d', upload') ->
  sessionView upload' = sessionView upload.
Proof.
  intros H. apply updateUploadProgress_frame in H.
  destruct H as (p & s & e & c & o & ->). reflexivity.
Qed.

Lemma sessionView_eq (a b : Upload.t) :
  sessionView a = sessionView b ->
  Upload.id a = Upload.id b
  /\ Upload.status a = Upload.status b
  /\ Upload.completedChunks a = Upload.completedChunks b
  /\ Upload.failedChunks a = Upload.failedChunks b
  /\ Upload.error a = Upload.error b.
Proof.
  unfold sessionView. intros H. injection H as H1 H2 H3 H4 H5. auto.
Qed.

(** [size > length * 0.1] on counters. *)
Lemma threshold_nat (n f : nat) :
  (INR n * (1 / 10) < INR f)%R <-> (n < 10 * f)%nat.
Proof.
  split.
  - intros H. apply INR_lt. rewrite mult_INR.
    replace (INR 10) with 10%R by (simpl; lra). lra.
  - intros H. apply lt_INR in H. rewrite mult_INR in H.
    replace (INR 10) with 10%R in H by (simpl; lra). lra.
Qed.

Lemma markChunkFailed_spec (chunkIndex : nat) (upload : Upload.t) :
  let failed := Set_add chunkIndex (Upload.failedChunks upload) in
  let upload' := markChunkFailed chunkIndex upload in
  Upload.id upload' = Upload.id upload
  /\ Upload.completedChunks upload' = Upload.completedChunks upload
  /\ Upload.failedChunks upload' = failed
  /\ Upload.chunks upload'
     = update_nth chunkIndex (Chunk.set_status FAILED) (Upload.chunks upload)
  /\ ((length (Upload.chunks upload) < 10 * length failed)%nat /\
      Upload.status upload' = FAILED /\
      Upload.error upload'
      = Some ("Too many chunk failures: " ++ string_of_nat (length failed)
              ++ "/" ++ string_of_nat (length (Upload.chunks upload)))%string
      \/
      (10 * length failed <= length (Upload.chunks upload))%nat /\
      Upload.status upload' = Upload.status upload /\
      Upload.error upload' = Upload.error upload).
Proof.
  intros failed upload'. subst upload'. unfold markChunkFailed.
  cbn [Upload.chunks Upload.failedChunks Upload.set_chunks
       Upload.set_failedChunks].
  rewrite length_update_nth. fold failed.
  destruct (Rlt_dec _ _) as [H|H]; rewrite threshold_nat in H.
  - repeat (split; [reflexivity|]). left. split; [exact H|].
    split; [reflexivity|].
    unfold tooManyFailures.
    cbn [Upload.chunks Upload.failedChunks Upload.set_chunks
         Upload.set_failedChunks Upload.error Upload.set_error
         Upload.set_status].
    rewrite length_update_nth. reflexivity.
  - repeat (split; [reflexivity|]). right. split; [lia|].
    split; reflexivity.
Qed.

(** The upload [handleChunkUploadError] leaves at the position it found,
    up to the fields the progress computation rewrites. *)
Lemma handleChunkUploadError_found (now : Z) (random : R) (data : ErrorData.t)
  (m : Manager.t) (pos : nat) (upload : Upload.t) (chunk : Chunk.t) :
  findUploadByChunkIndex (ErrorData.chunkIndex data) m = Some (pos, upload) ->
  nth_error (Upload.chunks upload) (ErrorData.chunkIndex data) = Some chunk ->
  let out := handleChunkUploadError now random data m in
  let counted :=
    Upload.set_chunks
      (update_nth (ErrorData.chunkIndex data)
                  (Chunk.set_retryCount (S (Chunk.retryCount chunk)))
                  (Upload.chunks upload)) upload in
  let retry :=
    ErrorData.retryable data && (S (Chunk.retryCount chunk) <? 3)%nat in
  (forall p, p <> pos ->
     nth_error (Manager.uploads (Outcome.manager out)) p
     = nth_error (Manager.uploads m) p)
  /\ Outcome.effects out
     = (if retry
        then [SetTimeoutRetry (Upload.id upload) (ErrorData.chunkIndex data)
                (RetryConfig.delay
                   (getRetryConfig (S (Chunk.retryCount chunk)) random))]
        else [])
  /\ exists key upload',
       nth_error (Manager.uploads m) pos = Some (key, upload)
       /\ nth_error (Manager.uploads (Outcome.manager out)) pos
          = Some (key, upload')
       /\ sessionView upload'
          = sessionView (if retry then counted
                         else markChunkFailed (ErrorData.chunkIndex data) counted)
       /\ ((length (Upload.completedChunks upload) <= 5)%nat ->
           Upload.chunks upload'
           = Upload.chunks (if retry then counted
                            else markChunkFailed (ErrorData.chunkIndex data)
                                                 counted)).
Proof.
  intros Hfind Hchunk out counted retry.
  pose proof (findUploadByChunkIndex_from_Some _ _ _ _ _ Hfind)
    as (_ & (key & Hkey) & _ & _).
  rewrite Nat.sub_0_r in Hkey.
  subst out. unfold handleChunkUploadError. rewrite Hfind, Hchunk.
  fold counted. fold retry.
  destruct retry.
  - cbn zeta iota beta.
    destruct (updateUploadProgress now (Manager.networkDiagnostics m) counted)
      as [[d' upload']|] eqn:Hup; cbn [Outcome.manager Outcome.effects].
    + split; [intros p Hp; apply storeUpload_other; congruence|].
      split; [reflexivity|]. exists key, upload'.
      split; [exact Hkey|].
      split; [apply (storeUpload_same _ _ _ _ _ Hkey)|].
      split; [apply (updateUploadProgress_sessionView _ _ _ _ _ Hup)|].
      intros Hle. apply (updateUploadProgress_chunks _ _ _ _ _ Hup).
      exact Hle.
    + split; [intros p Hp; apply storeUpload_other; congruence|].
      split; [reflexivity|]. exists key, counted.
      split; [exact Hkey|].
      split; [apply (storeUpload_same _ _ _ _ _ Hkey)|].
      split; reflexivity.
  - cbn zeta iota beta.
    set (next := markChunkFailed (ErrorData.chunkIndex data) counted).
    assert (Hcompleted : Upload.completedChunks next
                         = Upload.completedChunks upload)
      by apply (markChunkFailed_spec (ErrorData.chunkIndex data) counted).
    destruct (updateUploadProgress now (Manager.networkDiagnostics m) next)
      as [[d' upload']|] eqn:Hup; cbn [Outcome.manager Outcome.effects].
    + split; [intros p Hp; apply storeUpload_other; congruence|].
      split; [reflexivity|]. exists key, upload'.
      split; [exact Hkey|].
      split; [apply (storeUpload_same _ _ _ _ _ Hkey)|].
      split; [apply (updateUploadProgress_sessionView _ _ _ _ _ Hup)|].
      intros Hle. apply (updateUploadProgress_chunks _ _ _ _ _ Hup).
      rewrite Hcompleted. exact Hle.
    + split; [intros p Hp; apply storeUpload_other; congruence|].
      split; [reflexivity|]. exists key, next.
      split; [exact Hkey|].
      split; [apply (storeUpload_same _ _ _ _ _ Hkey)|].
      split; reflexivity.
Qed.

(** ** Routing of chunk events: lemmas *)

Lemma checkUploadCompletion_plan (now : Z) (upload : Upload.t) :
  Upload.chunks (fst (checkUploadCompletion now upload)) = Upload.chunks upload
  /\ Upload.failedChunks (fst (checkUploadCompletion now upload))
     = Upload.failedChunks upload
  /\ Upload.completedChunks (fst (checkUploadCompletion now upload))
     = Upload.completedChunks upload.
Proof.
  unfold checkUploadCompletion.
  destruct (_ =? _)%nat; repeat split; reflexivity.
Qed.

(** What [handleChunkUploadComplete] does to the Map: the upload at the
    position the router found gets the chunk marked and the index recorded;
    every other entry is left as it was. *)
Lemma handleChunkUploadComplete_routed (now : Z) (chunkIndex : nat)
  (m : Manager.t) (pos : nat) (upload : Upload.t) :
  findUploadByChunkIndex chunkIndex m = Some (pos, upload) ->
  let out := handleChunkUploadComplete now chunkIndex m in
  (forall p, p <> pos ->
     nth_error (Manager.uploads (Outcome.manager out)) p
     = nth_error (Manager.uploads m) p)
  /\ exists key upload',
       nth_error (Manager.uploads m) pos = Some (key, upload)
       /\ nth_error (Manager.uploads (Outcome.manager out)) pos
          = Some (key, upload')
       /\ Upload.completedChunks upload'
          = Set_add chunkIndex (Upload.completedChunks upload)
       /\ Upload.failedChunks upload' = Upload.failedChunks upload
       /\ (zeroLatency (Manager.networkDiagnostics m) ->
           Upload.chunks upload'
           = update_nth chunkIndex (Chunk.set_status COMPLETED)
                        (Upload.chunks upload)).
Proof.
  intros Hfind out. subst out.
  pose proof (findUploadByChunkIndex_from_Some _ _ _ _ _ Hfind)
    as (_ & (key & Hkey) & _ & _).
  rewrite Nat.sub_0_r in Hkey.
  unfold handleChunkUploadComplete. rewrite Hfind.
  set (marked := Upload.set_completedChunks _ _).
  destruct (updateUploadProgress now (Manager.networkDiagnostics m) marked)
    as [[d' upload']|] eqn:Hup.
  - pose proof (checkUploadCompletion_plan now upload') as (Hc1 & Hc2 & Hc3).
    destruct (checkUploadCompletion now upload') as [upload'' effects].
    cbn [fst] in Hc1, Hc2, Hc3. cbn [Outcome.manager].
    split; [intros p Hp; apply storeUpload_other; congruence|].
    exists key, upload''. split; [exact Hkey|].
    split; [apply (storeUpload_same _ _ _ _ _ Hkey)|].
    pose proof (updateUploadProgress_sessionView _ _ _ _ _ Hup) as Hview.
    apply sessionView_eq in Hview.
    destruct Hview as (_ & _ & Hcomp & Hfail & _).
    split; [rewrite Hc3, Hcomp; reflexivity|].
    split; [rewrite Hc2, Hfail; reflexivity|].
    intros Hz.
    destruct (updateUploadProgress_never_tunes _ _ _ _ _ Hz Hup) as (Hch & _).
    rewrite Hc1, Hch. reflexivity.
  - cbn [Outcome.manager].
    split; [intros p Hp; apply storeUpload_other; congruence|].
    exists key, marked. split; [exact Hkey|].
    split; [apply (storeUpload_same _ _ _ _ _ Hkey)|].
    split; [reflexivity|]. split; [reflexivity|]. intros _. reflexivity.
Qed.

(** What [handleChunkUploadError] does to the Map: the error is counted
    against the chunk of the upload the router found, which is retried or
    fails for good; every other entry is left as it was. *)
Lemma handleChunkUploadError_routed (now : Z) (random : R) (data : ErrorData.t)
  (m : Manager.t) (pos : nat) (upload : Upload.t) (chunk : Chunk.t) :
  findUploadByChunkIndex (ErrorData.chunkIndex data) m = Some (pos, upload) ->
  nth_error (Upload.chunks upload) (ErrorData.chunkIndex data) = Some chunk ->
  let out := handleChunkUploadError now random data m in
  let k := ErrorData.chunkIndex data in
  let counted :=
    update_nth k (Chunk.set_retryCount (S (Chunk.retryCount chunk)))
               (Upload.chunks upload) in
  let retry :=
    ErrorData.retryable data && (S (Chunk.retryCount chunk) <? 3)%nat in
  (forall p, p <> pos ->
     nth_error (Manager.uploads (Outcome.manager out)) p
     = nth_error (Manager.uploads m) p)
  /\ Outcome.effects out
     = (if retry
        then [SetTimeoutRetry (Upload.id upload) k
                (RetryConfig.delay
                   (getRetryConfig (S (Chunk.retryCount chunk)) random))]
        else [])
  /\ exists key upload',
       nth_error (Manager.uploads m) pos = Some (key, upload)
       /\ nth_error (Manager.uploads (Outcome.manager out)) pos
          = Some (key, upload')
       /\ Upload.completedChunks upload' = Upload.completedChunks upload
       /\ Upload.failedChunks upload'
          = (if retry then Upload.failedChunks upload
             else Set_add k (Upload.failedChunks upload))
       /\ (zeroLatency (Manager.networkDiagnostics m) ->
           Upload.chunks upload'
           = (if retry then counted
              else update_nth k (Chunk.set_status FAILED) counted)).
Proof.
  intros Hfind Hchunk out k counted retry.
  pose proof (findUploadByChunkIndex_from_Some _ _ _ _ _ Hfind)
    as (_ & (key & Hkey) & _ & _).
  rewrite Nat.sub_0_r in Hkey.
  subst out. unfold handleChunkUploadError. rewrite Hfind, Hchunk.
  fold k. fold counted. fold retry.
  destruct retry.
  - cbn zeta iota beta.
    set (next := Upload.set_chunks counted upload).
    destruct (updateUploadProgress now (Manager.networkDiagnostics m) next)
      as [[d' upload']|] eqn:Hup; cbn [Outcome.manager Outcome.effects].
    + split; [intros p Hp; apply storeUpload_other; congruence|].
      split; [reflexivity|]. exists key, upload'.
      split; [exact Hkey|].
      split; [apply (storeUpload_same _ _ _ _ _ Hkey)|].
      pose proof (updateUploadProgress_sessionView _ _ _ _ _ Hup) as Hview.
      apply sessionView_eq in Hview.
      destruct Hview as (_ & _ & Hcomp & Hfail & _).
      split; [exact Hcomp|]. split; [exact Hfail|].
      intros Hz.
      destruct (updateUploadProgress_never_tunes _ _ _ _ _ Hz Hup) as (Hch & _).
      exact Hch.
    + split; [intros p Hp; apply storeUpload_other; congruence|].
      split; [reflexivity|]. exists key, next.
      split; [exact Hkey|].
      split; [apply (storeUpload_same _ _ _ _ _ Hkey)|].
      split; [reflexivity|]. split; [reflexivity|]. intros _. reflexivity.
  - cbn zeta iota beta.
    set (next := markChunkFailed k (Upload.set_chunks counted upload)).
    destruct (markChunkFailed_spec k (Upload.set_chunks counted upload))
      as (_ & Hmcomp & Hmfail & Hmchunks & _).
    fold next in Hmcomp, Hmfail, Hmchunks.
    cbn [Upload.completedChunks Upload.failedChunks Upload.chunks
         Upload.set_chunks] in Hmcomp, Hmfail, Hmchunks.
    destruct (updateUploadProgress now (Manager.networkDiagnostics m) next)
      as [[d' upload']|] eqn:Hup; cbn [Outcome.manager Outcome.effects].
    + split; [intros p Hp; apply storeUpload_other; congruence|].
      split; [reflexivity|]. exists key, upload'.
      split; [exact Hkey|].
      split; [apply (storeUpload_same _ _ _ _ _ Hkey)|].
      pose proof (updateUploadProgress_sessionView _ _ _ _ _ Hup) as Hview.
      apply sessionView_eq in Hview.
      destruct Hview as (_ & _ & Hcomp & Hfail & _).
      split; [congruence|]. split; [congruence|].
      intros Hz.
      destruct (updateUploadProgress_never_tunes _ _ _ _ _ Hz Hup) as (Hch & _).
      congruence.
    + split; [intros p Hp; apply storeUpload_other; congruence|].
      split; [reflexivity|]. exists key, next.
      split; [exact Hkey|].
      split; [apply (storeUpload_same _ _ _ _ _ Hkey)|].
      split; [exact Hmcomp|]. split; [exact Hmfail|]. intros _. exact Hmchunks.
Qed.

(** ** Failure threshold and attempt limit *)

(** C7 (as stated, refuted). With 15 chunks, one of them already failed,
    the permanent failure of a second chunk fails the session, although 2
    does not exceed ceil(0.1 * 15) = 2. *)
Lemma handleChunkUploadError_threshold_counterexample :
  exists upload',
    nth_error
      (Manager.uploads
         (Outcome.manager
            (handleChunkUploadError 2000 0 (ErrorData.mk 1 "HTTP 400" false)
                                    (managerOf oneFailed)))) 0
    = Some ("upload_a"%string, upload')
    /\ Upload.status upload' = FAILED
    /\ length (Upload.chunks upload') = 15%nat
    /\ length (Upload.failedChunks upload') = 2%nat
    /\ ~ (ceil_div 15 10 < 2).
Proof.
  destruct (handleChunkUploadError_found 2000 0
              (ErrorData.mk 1 "HTTP 400" false) (managerOf oneFailed)
              0%nat oneFailed (newChunk (File.mk "a.bin" 15728640) 1048576 1)
              eq_refl eq_refl)
    as (_ & _ & key & upload' & Hkey & Hpos & Hview & Hchunks).
  injection Hkey as <-.
  cbn [andb ErrorData.retryable] in Hview, Hchunks.
  specialize (Hchunks ltac:(cbn; lia)).
  match type of Hview with
  | _ = sessionView (markChunkFailed ?k ?u) =>
      destruct (markChunkFailed_spec k u)
        as (Hid & _ & Hfailed & Hplan & [(_ & Hst & _)|(Hle & _)])
  end.
  - exists upload'.
    apply sessionView_eq in Hview.
    destruct Hview as (_ & Hst' & _ & Hfailed' & _).
    split.
    + exact Hpos.
    + split; [congruence|]. split.
      * rewrite Hchunks, Hplan, length_update_nth. reflexivity.
      * split; [rewrite Hfailed', Hfailed; reflexivity|].
        vm_compute. discriminate.
  - exfalso. vm_compute in Hle. lia.
Qed.

(** C7 (amended). When a chunk fails for good (a non-retryable error, or
    a retryable one that exhausts the attempts) in a session that has not
    failed yet, the session transitions to FAILED, with the error
    "Too many chunk failures: f/n", exactly when the number f of failed
    chunks, this one included, exceeds 0.1 * n without rounding up, that is
    when n < 10 * f; otherwise status and error are left as they were.
    For n = 15 the session fails on the second permanent failure. *)
Theorem handleChunkUploadError_threshold (now : Z) (random : R)
  (data : ErrorData.t) (m : Manager.t) (pos : nat) (upload : Upload.t)
  (chunk : Chunk.t) :
  findUploadByChunkIndex (ErrorData.chunkIndex data) m = Some (pos, upload) ->
  nth_error (Upload.chunks upload) (ErrorData.chunkIndex data) = Some chunk ->
  ErrorData.retryable data && (S (Chunk.retryCount chunk) <? 3)%nat = false ->
  Upload.status upload <> FAILED ->
  exists key upload',
    nth_error (Manager.uploads m) pos = Some (key, upload)
    /\ nth_error
         (Manager.uploads
            (Outcome.manager (handleChunkUploadError now random data m))) pos
       = Some (key, upload')
    /\ Upload.failedChunks upload'
       = Set_add (ErrorData.chunkIndex data) (Upload.failedChunks upload)
    /\ (Upload.status upload' = FAILED <->
        (length (Upload.chunks upload)
         < 10 * length (Upload.failedChunks upload'))%nat)
    /\ ((length (Upload.chunks upload)
         < 10 * length (Upload.failedChunks upload'))%nat ->
        Upload.error upload'
        = Some ("Too many chunk failures: "
                ++ string_of_nat (length (Upload.failedChunks upload')) ++ "/"
                ++ string_of_nat (length (Upload.chunks upload)))%string)
    /\ ((10 * length (Upload.failedChunks upload')
         <= length (Upload.chunks upload))%nat ->
        Upload.status upload' = Upload.status upload
        /\ Upload.error upload' = Upload.error upload).
Proof.
  intros Hfind Hchunk Hperm Hlive.
  destruct (handleChunkUploadError_found now random data m pos upload chunk
              Hfind Hchunk)
    as (_ & _ & key & upload' & Hkey & Hpos & Hview & _).
  rewrite Hperm in Hview.
  apply sessionView_eq in Hview.
  destruct Hview as (_ & Hst & _ & Hfailed & Herr).
  match type of Hst with
  | _ = Upload.status (markChunkFailed ?k ?u) =>
      destruct (markChunkFailed_spec k u)
        as (_ & _ & Hf & _ & Hcases);
      cbn [Upload.failedChunks Upload.chunks Upload.set_chunks] in Hf, Hcases;
      rewrite length_update_nth in Hcases
  end.
  rewrite Hf in Hfailed.
  exists key, upload'. split; [exact Hkey|]. split; [exact Hpos|].
  split; [exact Hfailed|]. rewrite Hfailed.
  destruct Hcases as [(Hlt & Hs & He)|(Hle & Hs & He)].
  - split; [split; [intros _; exact Hlt | intros _; congruence]|].
    split; [intros _; congruence | intros Hge; lia].
  - cbn [Upload.status Upload.error Upload.set_chunks] in Hs, He.
    split; [split; [intros Hfl; exfalso; apply Hlive; congruence
                   | intros Hlt; lia]|].
    split; [intros Hlt; lia | intros _; split; congruence].
Qed.

Lemma handleChunkUploadError_threshold_witness :
  exists key upload',
    nth_error (Manager.uploads (managerOf oneFailed)) 0
    = Some (key, oneFailed)
    /\ nth_error
         (Manager.uploads
            (Outcome.manager
               (handleChunkUploadError 2000 0
                  (ErrorData.mk 1 "HTTP 400" false) (managerOf oneFailed)))) 0
       = Some (key, upload')
    /\ Upload.failedChunks upload' = [0; 1]%nat
    /\ Upload.status upload' = FAILED.
Proof.
  destruct (handleChunkUploadError_threshold 2000 0
              (ErrorData.mk 1 "HTTP 400" false) (managerOf oneFailed)
              0%nat oneFailed (newChunk (File.mk "a.bin" 15728640) 1048576 1)
              eq_refl eq_refl eq_refl ltac:(discriminate))
    as (key & upload' & Hkey & Hpos & Hfailed & Hiff & _).
  exists key, upload'. split; [exact Hkey|]. split; [exact Hpos|].
  split; [exact Hfailed|].
  apply Hiff. rewrite Hfailed. vm_compute. lia.
Defined.

(** The handler at work on one chunk: it retries a retryable error only
    while the incremented [retryCount] is below 3.  The first and the
    second error report of a chunk schedule a retry, the third marks it
    FAILED with no further dispatch; the [maxAttempts = 5] that
    [getRetryConfig] returns is not read. *)
Lemma handleChunkUploadError_third_error :
  (forall retryCount, (retryCount < 2)%nat ->
     exists delay,
       Outcome.effects
         (handleChunkUploadError 2000 0 (ErrorData.mk 1 "HTTP 503" true)
                                 (managerOf (retried retryCount)))
       = [SetTimeoutRetry "upload_a" 1 delay])
  /\ Outcome.effects
       (handleChunkUploadError 2000 0 (ErrorData.mk 1 "HTTP 503" true)
                               (managerOf (retried 2)))
     = []
  /\ (exists upload' chunk',
        nth_error
          (Manager.uploads
             (Outcome.manager
                (handleChunkUploadError 2000 0 (ErrorData.mk 1 "HTTP 503" true)
                                        (managerOf (retried 2))))) 0
        = Some ("upload_a"%string, upload')
        /\ Upload.failedChunks upload' = [1%nat]
        /\ nth_error (Upload.chunks upload') 1 = Some chunk'
        /\ Chunk.status chunk' = FAILED
        /\ Chunk.retryCount chunk' = 3%nat)
  /\ RetryConfig.maxAttempts (getRetryConfig 3 0) = 5%nat.
Proof.
  split.
  { intros retryCount Hlt.
    destruct (handleChunkUploadError_found 2000 0
                (ErrorData.mk 1 "HTTP 503" true) (managerOf (retried retryCount))
                0%nat (retried retryCount)
                (Chunk.set_retryCount retryCount
                   (Chunk.set_status UPLOADING
                      (newChunk (File.mk "a.bin" 15728640) 1048576 1)))
                eq_refl eq_refl)
      as (_ & Heff & _).
    rewrite Heff. cbn [ErrorData.retryable andb Chunk.retryCount
                       Chunk.set_retryCount].
    replace (S retryCount <? 3)%nat with true
      by (symmetry; apply Nat.ltb_lt; lia).
    eexists. reflexivity. }
  destruct (handleChunkUploadError_found 2000 0
              (ErrorData.mk 1 "HTTP 503" true) (managerOf (retried 2))
              0%nat (retried 2)
              (Chunk.set_retryCount 2
                 (Chunk.set_status UPLOADING
                    (newChunk (File.mk "a.bin" 15728640) 1048576 1)))
              eq_refl eq_refl)
    as (_ & Heff & key & upload' & Hkey & Hpos & Hview & Hchunks).
  injection Hkey as <-.
  split; [exact Heff|]. split; [|reflexivity].
  cbn [ErrorData.retryable andb Chunk.retryCount Chunk.set_retryCount
       Nat.ltb Nat.leb] in Hview, Hchunks.
  specialize (Hchunks ltac:(cbn; lia)).
  apply sessionView_eq in Hview. destruct Hview as (_ & _ & _ & Hfailed & _).
  match type of Hfailed with
  | _ = Upload.failedChunks (markChunkFailed ?k ?u) =>
      destruct (markChunkFailed_spec k u) as (_ & _ & Hf & Hplan & _)
  end.
  exists upload'.
  eexists. split; [exact Hpos|].
  split; [rewrite Hfailed, Hf; reflexivity|].
  split; [rewrite Hchunks, Hplan; reflexivity|].
  split; reflexivity.
Qed.

(** ** Cancellation *)

Lemma Map_update_get_same (key : string) (f : Upload.t -> Upload.t)
  (uploads : list (string * Upload.t)) (upload : Upload.t) :
  Map_get key uploads = Some upload ->
  Map_get key (Map_update key f uploads) = Some (f upload).
Proof.
  induction uploads as [|[k v] r IH]; cbn; [discriminate|].
  destruct (String.eqb key k) eqn:E; cbn; rewrite E.
  - intros H. injection H as <-. reflexivity.
  - exact IH.
Qed.

Lemma Map_update_get_other (key other : string) (f : Upload.t -> Upload.t)
  (uploads : list (string * Upload.t)) :
  other <> key ->
  Map_get other (Map_update key f uploads) = Map_get other uploads.
Proof.
  intros Hne. induction uploads as [|[k v] r IH]; cbn; [reflexivity|].
  destruct (String.eqb key k) eqn:E; cbn.
  - apply String.eqb_eq in E. subst k.
    destruct (String.eqb other key) eqn:E'; [|reflexivity].
    apply String.eqb_eq in E'. contradiction.
  - destruct (String.eqb other k); [reflexivity | exact IH].
Qed.

Lemma Map_update_fixed (key : string) (f : Upload.t -> Upload.t)
  (uploads : list (string * Upload.t)) (upload : Upload.t) :
  Map_get key uploads = Some upload -> f upload = upload ->
  Map_update key f uploads = uploads.
Proof.
  intros Hget Hf. induction uploads as [|[k v] r IH]; cbn in *; [reflexivity|].
  destruct (String.eqb key k).
  - injection Hget as ->. rewrite Hf. reflexivity.
  - rewrite (IH Hget). reflexivity.
Qed.

(** C9 (as stated, refuted). Cancelling a completed session changes its
    record: the status becomes CANCELLED. *)
Lemma cancelUpload_terminal_counterexample :
  terminal (Upload.status completedUpload) = true
  /\ Map_get "upload_a"
       (Manager.uploads
          (Outcome.manager (cancelUpload "upload_a" (managerOf completedUpload))))
     <> Some completedUpload.
Proof.
  split; [reflexivity|].
  intros H. apply (f_equal (option_map Upload.status)) in H.
  cbn in H. discriminate H.
Qed.

(** C9 (amended). For a session whose status is already terminal,
    [cancelUpload] issues no request at all (in particular no adapter
    abort call) and leaves every field of the session record unchanged
    except [status], which it sets to CANCELLED; the other sessions, the
    options and the diagnostics of the manager are untouched.  It is a
    no-op exactly when the session was already CANCELLED. *)
Theorem cancelUpload_terminal (uploadId : string) (m : Manager.t)
  (upload : Upload.t) :
  Map_get uploadId (Manager.uploads m) = Some upload ->
  terminal (Upload.status upload) = true ->
  Outcome.effects (cancelUpload uploadId m) = []
  /\ Outcome.threw (cancelUpload uploadId m) = false
  /\ Map_get uploadId (Manager.uploads (Outcome.manager (cancelUpload uploadId m)))
     = Some (Upload.set_status CANCELLED upload)
  /\ (forall other, other <> uploadId ->
        Map_get other (Manager.uploads (Outcome.manager (cancelUpload uploadId m)))
        = Map_get other (Manager.uploads m))
  /\ Manager.options (Outcome.manager (cancelUpload uploadId m))
     = Manager.options m
  /\ Manager.networkDiagnostics (Outcome.manager (cancelUpload uploadId m))
     = Manager.networkDiagnostics m
  /\ (Outcome.manager (cancelUpload uploadId m) = m
      <-> Upload.status upload = CANCELLED).
Proof.
  intros Hget _. unfold cancelUpload. rewrite Hget.
  cbn [Outcome.effects Outcome.threw Outcome.manager Manager.uploads
       Manager.set_uploads Manager.options Manager.networkDiagnostics].
  repeat (split; [reflexivity|]).
  split; [apply Map_update_get_same; exact Hget|].
  split; [intros other Hne; apply Map_update_get_other; exact Hne|].
  repeat (split; [reflexivity|]).
  split.
  - intros H. apply (f_equal (fun m => Map_get uploadId (Manager.uploads m))) in H.
    cbn [Manager.uploads Manager.set_uploads] in H.
    rewrite (Map_update_get_same _ _ _ _ Hget), Hget in H.
    injection H as H. rewrite <- H. reflexivity.
  - intros Hc. rewrite (Map_update_fixed _ _ _ upload Hget).
    + destruct m; reflexivity.
    + destruct upload; cbn in Hc |- *. rewrite Hc. reflexivity.
Qed.

Lemma cancelUpload_terminal_witness :
  Map_get "upload_a" (Manager.uploads (managerOf completedUpload))
  = Some completedUpload
  /\ terminal (Upload.status completedUpload) = true
  /\ Outcome.effects (cancelUpload "upload_a" (managerOf completedUpload)) = []
  /\ Map_get "upload_a"
       (Manager.uploads
          (Outcome.manager (cancelUpload "upload_a" (managerOf completedUpload))))
     = Some (Upload.set_status CANCELLED completedUpload).
Proof.
  split; [reflexivity|]. split; [reflexivity|].
  destruct (cancelUpload_terminal "upload_a" (managerOf completedUpload)
              completedUpload eq_refl eq_refl)
    as (Heff & _ & Hget & _).
  split; [exact Heff | exact Hget].
Defined.

(** ** Routing of chunk events *)

(** C10 (as stated, refuted). A finished session stays in the Map, so a
    single active upload does not make routing correct: with a completed
    upload registered before the only active one, a completion event and an
    error event for chunk 0, which only the active upload can have in
    flight, are both applied to the completed upload (its finalize request is
    issued again) and leave the active upload as it was. *)
Lemma chunk_events_single_active_counterexample :
  map (fun e => (fst e, terminal (Upload.status (snd e))))
      (Manager.uploads finishedThenActive)
  = [("upload_a"%string, true); ("upload_b"%string, false)]
  /\ option_map Chunk.status (nth_error (Upload.chunks laterUpload) 0)
     = Some PENDING
  /\ option_map fst (findUploadByChunkIndex 0 finishedThenActive) = Some 0%nat
  /\ nth_error
       (Manager.uploads
          (Outcome.manager (handleChunkUploadComplete 3000 0 finishedThenActive)))
       1
     = Some ("upload_b"%string, laterUpload)
  /\ Outcome.effects (handleChunkUploadComplete 3000 0 finishedThenActive)
     = [FetchFinalize (Some "srv-1"%string) "s3"%string]
  /\ nth_error
       (Manager.uploads
          (Outcome.manager
             (handleChunkUploadError 3000 0 (ErrorData.mk 0 "HTTP 503" true)
                                     finishedThenActive)))
       1
     = Some ("upload_b"%string, laterUpload)
  /\ option_map
       (fun e => option_map Chunk.retryCount
                            (nth_error (Upload.chunks (snd e)) 0))
       (nth_error
          (Manager.uploads
             (Outcome.manager
                (handleChunkUploadError 3000 0 (ErrorData.mk 0 "HTTP 503" true)
                                        finishedThenActive)))
          0)
     = Some (Some 1%nat).
Proof.
  split; [reflexivity|]. split; [reflexivity|]. split; [reflexivity|].
  split; [vm_compute; reflexivity|]. split; [vm_compute; reflexivity|].
  split; vm_compute; reflexivity.
Qed.

(** C10 (amended). [findUploadByChunkIndex] attributes a chunk event, which
    carries only an index, to the first upload in insertion order whose
    plan has an entry at that index, whatever the status of that upload.
    Both handlers then mutate that upload and no other entry of the Map:
    a completion marks its chunk k COMPLETED and records k in its completed
    set; an error is counted against its chunk k, which is retried (one
    timer, failed set unchanged) or fails for good (no timer, k joins its
    failed set).  So an upload registered later, active or not, that has a
    chunk at index k as well never sees the events for k; routing is right
    only for the events of the first upload that has the index. *)
Theorem chunk_events_routed_to_first_upload (now : Z) (random : R)
  (data : ErrorData.t) (m : Manager.t) (p1 : nat) (key1 : string)
  (u1 : Upload.t) (chunk : Chunk.t) :
  let k := ErrorData.chunkIndex data in
  nth_error (Manager.uploads m) p1 = Some (key1, u1) ->
  nth_error (Upload.chunks u1) k = Some chunk ->
  (forall j key' u', (j < p1)%nat ->
     nth_error (Manager.uploads m) j = Some (key', u') ->
     (length (Upload.chunks u') <= k)%nat) ->
  findUploadByChunkIndex k m = Some (p1, u1)
  /\ (let out := handleChunkUploadComplete now k m in
      let m' := Outcome.manager out in
      (forall p, p <> p1 ->
         nth_error (Manager.uploads m') p = nth_error (Manager.uploads m) p)
      /\ exists u1',
           nth_error (Manager.uploads m') p1 = Some (key1, u1')
           /\ Upload.completedChunks u1'
              = Set_add k (Upload.completedChunks u1)
           /\ Upload.failedChunks u1' = Upload.failedChunks u1
           /\ (zeroLatency (Manager.networkDiagnostics m) ->
               Upload.chunks u1'
               = update_nth k (Chunk.set_status COMPLETED)
                            (Upload.chunks u1)))
  /\ (let out := handleChunkUploadError now random data m in
      let m' := Outcome.manager out in
      let retry :=
        ErrorData.retryable data && (S (Chunk.retryCount chunk) <? 3)%nat in
      let counted :=
        update_nth k (Chunk.set_retryCount (S (Chunk.retryCount chunk)))
                   (Upload.chunks u1) in
      (forall p, p <> p1 ->
         nth_error (Manager.uploads m') p = nth_error (Manager.uploads m) p)
      /\ Outcome.effects out
         = (if retry
            then [SetTimeoutRetry (Upload.id u1) k
                    (RetryConfig.delay
                       (getRetryConfig (S (Chunk.retryCount chunk)) random))]
            else [])
      /\ exists u1',
           nth_error (Manager.uploads m') p1 = Some (key1, u1')
           /\ Upload.completedChunks u1' = Upload.completedChunks u1
           /\ Upload.failedChunks u1'
              = (if retry then Upload.failedChunks u1
                 else Set_add k (Upload.failedChunks u1))
           /\ (zeroLatency (Manager.networkDiagnostics m) ->
               Upload.chunks u1'
               = (if retry then counted
                  else update_nth k (Chunk.set_status FAILED) counted))).
Proof.
  intros k H1 Hchunk Hfirst.
  assert (Hk1 : (k < length (Upload.chunks u1))%nat).
  { apply nth_error_Some. rewrite Hchunk. discriminate. }
  assert (Hfind : findUploadByChunkIndex k m = Some (p1, u1)).
  { unfold findUploadByChunkIndex.
    rewrite (findUploadByChunkIndex_from_first k _ 0 p1 key1 u1 H1 Hk1 Hfirst).
    reflexivity. }
  split; [exact Hfind|]. split.
  - destruct (handleChunkUploadComplete_routed now k m p1 u1 Hfind)
      as (Hothers & key & u1' & Hkey & Hpos & Hdone & Hfailed & Hchunks).
    cbv zeta. split; [exact Hothers|].
    exists u1'. rewrite H1 in Hkey. injection Hkey as <-.
    split; [exact Hpos|]. split; [exact Hdone|].
    split; [exact Hfailed | exact Hchunks].
  - destruct (handleChunkUploadError_routed now random data m p1 u1 chunk
                Hfind Hchunk)
      as (Hothers & Heff & key & u1' & Hkey & Hpos & Hdone & Hfailed & Hchunks).
    cbv zeta. split; [exact Hothers|]. split; [exact Heff|].
    exists u1'. rewrite H1 in Hkey. injection Hkey as <-.
    split; [exact Hpos|]. split; [exact Hdone|].
    split; [exact Hfailed | exact Hchunks].
Qed.

Lemma chunk_events_routed_to_first_upload_witness :
  nth_error (Manager.uploads twoUploads) 0 = Some ("upload_a"%string, fifteenChunks)
  /\ nth_error (Upload.chunks fifteenChunks) 3
     = Some (newChunk (File.mk "a.bin" 15728640) 1048576 3)
  /\ findUploadByChunkIndex 3 twoUploads = Some (0%nat, fifteenChunks)
  /\ nth_error
       (Manager.uploads
          (Outcome.manager (handleChunkUploadComplete 2000 3 twoUploads))) 1
     = Some ("upload_b"%string, laterUpload)
  /\ nth_error
       (Manager.uploads
          (Outcome.manager
             (handleChunkUploadError 2000 0 (ErrorData.mk 3 "HTTP 400" false)
                                     twoUploads))) 1
     = Some ("upload_b"%string, laterUpload).
Proof.
  assert (H1 : nth_error (Manager.uploads twoUploads) 0
               = Some ("upload_a"%string, fifteenChunks)) by reflexivity.
  assert (H2 : nth_error (Upload.chunks fifteenChunks) 3
               = Some (newChunk (File.mk "a.bin" 15728640) 1048576 3))
    by reflexivity.
  split; [exact H1|]. split; [exact H2|].
  destruct (chunk_events_routed_to_first_upload 2000 0
              (ErrorData.mk 3 "HTTP 400" false) twoUploads 0
              "upload_a" fifteenChunks
              (newChunk (File.mk "a.bin" 15728640) 1048576 3)
              H1 H2 ltac:(intros; lia))
    as (Hfind & (Hc & _) & (He & _)).
  split; [exact Hfind|].
  split; [rewrite Hc by discriminate | rewrite He by discriminate];
    reflexivity.
Defined.

(** With a single upload in the Map, an event for one of its chunks finds
    that upload. *)
Lemma findUploadByChunkIndex_single (key : string) (upload : Upload.t)
  (m : Manager.t) (k : nat) :
  Manager.uploads m = [(key, upload)] ->
  (k < length (Upload.chunks upload))%nat ->
  findUploadByChunkIndex k m = Some (0%nat, upload).
Proof.
  intros Hm Hk. unfold findUploadByChunkIndex. rewrite Hm.
  apply (findUploadByChunkIndex_from_first k [(key, upload)] 0 0 key upload
           eq_refl Hk).
  intros j key' upload' Hj. lia.
Qed.

(** ** Bounded concurrency *)

(** One call of [uploadChunksWithConcurrency] grants at most the permits
    its semaphore has left. *)
Lemma acquireAll_bound (pending : list nat) :
  forall semaphore : Semaphore.t,
    Z.of_nat (length (fst (acquireAll semaphore pending)))
    <= Z.max 0 (Semaphore.maxConcurrency semaphore
                - Semaphore.currentConcurrency semaphore).
Proof.
  induction pending as [|pos r IH]; intros semaphore; cbn [acquireAll].
  - cbn. lia.
  - unfold Semaphore.acquire.
    destruct (Z.ltb_spec (Semaphore.currentConcurrency semaphore)
                         (Semaphore.maxConcurrency semaphore)) as [Hlt|Hge].
    + match goal with
      | |- context [acquireAll ?s r] =>
          specialize (IH s); destruct (acquireAll s r) as [granted s']
      end.
      cbn [fst length Semaphore.maxConcurrency Semaphore.currentConcurrency] in *.
      lia.
    + match goal with
      | |- context [acquireAll ?s r] =>
          specialize (IH s); destruct (acquireAll s r) as [granted s']
      end.
      cbn [fst length Semaphore.maxConcurrency Semaphore.currentConcurrency] in *.
      lia.
Qed.

(** Dispatching one chunk raises the number of UPLOADING chunks by at
    most one. *)
Lemma count_update_nth (pos : nat) (chunks : list Chunk.t) :
  (length (filter (fun c => UPLOAD_STATUS_eqb (Chunk.status c) UPLOADING)
                  (update_nth pos (Chunk.set_status UPLOADING) chunks))
   <= S (length (filter (fun c => UPLOAD_STATUS_eqb (Chunk.status c) UPLOADING)
                        chunks)))%nat.
Proof.
  revert pos. induction chunks as [|c r IH]; intros [|pos]; cbn [update_nth filter].
  - cbn. lia.
  - cbn. lia.
  - cbn [Chunk.status Chunk.set_status UPLOAD_STATUS_eqb length].
    destruct (UPLOAD_STATUS_eqb (Chunk.status c) UPLOADING); cbn [length]; lia.
  - specialize (IH pos).
    destruct (UPLOAD_STATUS_eqb (Chunk.status c) UPLOADING); cbn [length]; lia.
Qed.

Lemma uploadChunk_count (pos : nat) (upload : Upload.t) :
  (uploadingCount (fst (uploadChunk pos upload)) <= S (uploadingCount upload))%nat.
Proof.
  unfold uploadChunk, uploadingCount.
  destruct (nth_error (Upload.chunks upload) pos) as [chunk|]; [|cbn; lia].
  destruct (hasHash chunk); cbn [fst Upload.chunks Upload.set_chunks];
    apply count_update_nth.
Qed.

Lemma runDispatches_count (granted : list nat) :
  forall upload : Upload.t,
    (uploadingCount (fst (runDispatches granted upload))
     <= uploadingCount upload + length granted)%nat.
Proof.
  induction granted as [|pos r IH]; intros upload; cbn [runDispatches].
  - cbn. lia.
  - pose proof (uploadChunk_count pos upload) as H1.
    destruct (uploadChunk pos upload) as [u1 e1]. cbn [fst] in H1.
    specialize (IH u1). destruct (runDispatches r u1) as [u2 e2].
    cbn [fst length] in *. lia.
Qed.

(** Within one call the semaphore does its work: the call adds at most
    [concurrency] UPLOADING chunks to those already in flight. *)
Lemma uploadChunksWithConcurrency_count (upload : Upload.t) :
  Z.of_nat (uploadingCount (fst (uploadChunksWithConcurrency upload)))
  <= Z.of_nat (uploadingCount upload)
     + Z.max 0 (Options.concurrency (Upload.options upload)).
Proof.
  unfold uploadChunksWithConcurrency.
  pose proof (acquireAll_bound (pendingChunks upload)
                (Semaphore.new (Options.concurrency (Upload.options upload))))
    as Hb.
  destruct (acquireAll _ _) as [granted semaphore].
  cbn [fst Semaphore.new Semaphore.maxConcurrency
       Semaphore.currentConcurrency] in Hb.
  pose proof (runDispatches_count granted upload). lia.
Qed.

(** C2 (the code at the failing input). With [concurrency = 1] and two
    chunks, starting the upload dispatches one chunk; pausing and resuming
    before that chunk finishes dispatches the other one through a fresh
    semaphore, and two chunks are UPLOADING at once. *)
Theorem resumeUpload_exceeds_concurrency :
  option_map
    (fun upload =>
       (Options.concurrency (Upload.options upload),
        map Chunk.status (Upload.chunks upload), uploadingCount upload))
    (Map_get "upload_a" (Manager.uploads started))
  = Some (1, [UPLOADING; PENDING], 1%nat)
  /\ option_map
       (fun upload =>
          (Options.concurrency (Upload.options upload), Upload.status upload,
           map Chunk.status (Upload.chunks upload), uploadingCount upload))
       (Map_get "upload_a" (Manager.uploads pausedAndResumed))
     = Some (1, UPLOADING, [UPLOADING; UPLOADING], 2%nat).
Proof.
  split.
  - vm_compute. reflexivity.
  - vm_compute. reflexivity.
Qed.

(** ** Adaptive tuner and re-planning *)

Lemma ln_2_pos : (0 < ln 2)%R.
Proof. rewrite <- ln_1. apply ln_increasing; lra. Qed.

(** [Math.log2] is exact on powers of two. *)
Lemma Math_log2_pow2 (n : nat) : Math_log2 (2 ^ n) = INR n.
Proof.
  unfold Math_log2. rewrite ln_pow by lra.
  pose proof ln_2_pos. field. lra.
Qed.

Lemma Math_round_INR (n : nat) : Math_round (INR n) = Z.of_nat n.
Proof.
  unfold Math_round. symmetry. apply Int_part_spec.
  rewrite <- INR_IZR_INZ. lra.
Qed.

(** A measured speed of exactly 2^22 B/s, without latency, proposes
    4 MiB. *)
Lemma calculateOptimalChunkSize_4MiB (fileSize : Z) :
  calculateOptimalChunkSize (IZR (4 * 1024 * 1024)) 0 fileSize
  = 4 * 1024 * 1024.
Proof.
  unfold calculateOptimalChunkSize.
  change (nth 0 CHUNK_SIZE_OPTIONS 0) with 262144.
  change (nth (length CHUNK_SIZE_OPTIONS - 1) CHUNK_SIZE_OPTIONS 0)
    with 16777216.
  change (4 * 1024 * 1024) with 4194304.
  change (1024 * 1024) with 1048576.
  replace (Rmin (4194304 / 1048576) 8) with 4%R
    by (rewrite Rmin_left; lra).
  replace (Rmin (0 / 100) 4) with 0%R by (rewrite Rmin_left; lra).
  replace (1048576 * 4 * (1 + 0))%R with 4194304%R by lra.
  rewrite (Rmin_left 4194304 16777216) by lra.
  rewrite (Rmax_right 262144 4194304) by lra.
  replace 4194304%R with (2 ^ 22)%R by lra.
  rewrite Math_log2_pow2, Math_round_INR. reflexivity.
Qed.

Lemma measuredDiagnostics_speed :
  NetworkDiagnostics.getAverageSpeed measuredDiagnostics
  = IZR (4 * 1024 * 1024).
Proof.
  unfold NetworkDiagnostics.getAverageSpeed, measuredDiagnostics.
  cbn [NetworkDiagnostics.addSample NetworkDiagnostics.new
       NetworkDiagnostics.samples NetworkDiagnostics.maxSamples
       app length Nat.ltb Nat.leb Nat.eqb fold_left Sample.speed].
  change (INR 1) with 1%R. lra.
Qed.

Lemma measuredDiagnostics_stability :
  NetworkDiagnostics.getNetworkStability measuredDiagnostics = 1%R.
Proof.
  unfold NetworkDiagnostics.getNetworkStability,
    NetworkDiagnostics.getLatencyVariance,
    NetworkDiagnostics.getAverageLatency, measuredDiagnostics.
  cbn [NetworkDiagnostics.addSample NetworkDiagnostics.new
       NetworkDiagnostics.samples NetworkDiagnostics.maxSamples
       app length Nat.ltb Nat.leb Nat.eqb fold_left Sample.latency].
  change (INR 1) with 1%R.
  destruct (Rlt_dec 0 ((0 + 100) / 1)) as [_|Hn]; lra.
Qed.

(** Outside a live session: called directly on diagnostics that hold a
    latency measurement (a window the manager itself never builds), the
    tuner adopts a proposal of 4 MiB and [calculateChunks] rebuilds the
    whole plan.  With six of eight 1 MiB chunks completed and chunk 6 in
    flight, chunk 0 and chunk 1 become the two 4 MiB chunks of the new
    plan, PENDING again, while [completedChunks] still lists the indices 0
    to 5. *)
Lemma autoTuneChunkSize_replans_completed_chunks :
  let tuned := autoTuneChunkSize measuredDiagnostics sixDone in
  Options.chunkSize (Upload.options sixDone) = 1048576
  /\ (5 < length (Upload.completedChunks sixDone))%nat
  /\ option_map (fun c => (Chunk.boundaries c, Chunk.status c))
                (nth_error (Upload.chunks sixDone) 0)
     = Some ((0, 1048576, 1048576), COMPLETED)
  /\ option_map (fun c => (Chunk.boundaries c, Chunk.status c))
                (nth_error (Upload.chunks sixDone) 6)
     = Some ((6291456, 7340032, 1048576), UPLOADING)
  /\ Options.chunkSize (Upload.options tuned) = 4194304
  /\ map (fun c => (Chunk.boundaries c, Chunk.status c)) (Upload.chunks tuned)
     = [((0, 4194304, 4194304), PENDING);
        ((4194304, 8388608, 4194304), PENDING)]
  /\ Upload.completedChunks tuned = [0; 1; 2; 3; 4; 5]%nat.
Proof.
  intros tuned.
  split; [reflexivity|]. split; [cbn; lia|].
  split; [reflexivity|]. split; [reflexivity|].
  assert (Htuned : tuned
                   = calculateChunks
                       (Upload.set_options
                          (Options.set_chunkSize 4194304 (Upload.options sixDone))
                          sixDone)).
  { subst tuned. unfold autoTuneChunkSize.
    rewrite measuredDiagnostics_speed, measuredDiagnostics_stability.
    rewrite calculateOptimalChunkSize_4MiB.
    change (4 * 1024 * 1024) with 4194304.
    change (Options.chunkSize (Upload.options sixDone)) with 1048576.
    destruct (Rlt_dec 0 4194304) as [_|Hn]; [|lra].
    destruct (Rlt_dec (7 / 10) 1) as [_|Hn]; [|lra].
    rewrite Rabs_pos_eq by lra.
    destruct (Rlt_dec (1048576 * (5 / 10)) (4194304 - 1048576)) as [_|Hn];
      [reflexivity | lra]. }
  rewrite Htuned. split; [reflexivity|]. split; reflexivity.
Qed.


(** ** Retry delay, diagnostics window and tuner range *)

(** The backoff delay lies within its jitter band. *)
Lemma getRetryConfig_delay_range (attempt : nat) (random : R) :
  (0 <= random < 1)%R ->
  (Rmin (1000 * 2 ^ attempt) 30000
   <= RetryConfig.delay (getRetryConfig attempt random)
   <= Rmin (1100 * 2 ^ attempt) 30000)%R
  /\ ((5 <= attempt)%nat ->
      RetryConfig.delay (getRetryConfig attempt random) = 30000%R).
Proof.
  intros [H0 H1]. cbn [getRetryConfig RetryConfig.delay].
  pose proof (pow_lt 2 attempt ltac:(lra)) as Hp.
  set (p := (2 ^ attempt)%R) in *.
  assert (Hlo : (1000 * p <= 1000 * p * (1 + random * (1 / 10)))%R) by nra.
  assert (Hhi : (1000 * p * (1 + random * (1 / 10)) <= 1100 * p)%R) by nra.
  split.
  - split.
    + apply Rmin_glb.
      * eapply Rle_trans; [apply Rmin_l | exact Hlo].
      * apply Rmin_r.
    + apply Rmin_glb.
      * eapply Rle_trans; [apply Rmin_l | exact Hhi].
      * apply Rmin_r.
  - intros H5.
    assert (H32 : (32 <= p)%R).
    { subst p. replace 32%R with (2 ^ 5)%R by lra. apply Rle_pow; [lra | exact H5]. }
    apply Rmin_right. nra.
Qed.

(** X1. For a jitter draw in [0, 1), the delay of [getRetryConfig] lies
    between 1000 * 2^attempt and 1100 * 2^attempt, both capped at 30000 ms;
    from the fifth attempt on it is exactly 30000 ms. *)
Theorem getRetryConfig_delay_bounds (attempt : nat) (random : R) :
  (0 <= random < 1)%R ->
  (Rmin (1000 * 2 ^ attempt) 30000
   <= RetryConfig.delay (getRetryConfig attempt random)
   <= Rmin (1100 * 2 ^ attempt) 30000)%R
  /\ ((5 <= attempt)%nat ->
      RetryConfig.delay (getRetryConfig attempt random) = 30000%R).
Proof. exact (getRetryConfig_delay_range attempt random). Qed.

Lemma getRetryConfig_delay_bounds_witness :
  (0 <= / 2 < 1)%R
  /\ (Rmin (1000 * 2 ^ 1) 30000
      <= RetryConfig.delay (getRetryConfig 1 (/ 2))
      <= Rmin (1100 * 2 ^ 1) 30000)%R.
Proof.
  assert (H : (0 <= / 2 < 1)%R) by lra.
  split; [exact H|].
  apply (getRetryConfig_delay_bounds 1 (/ 2) H).
Defined.

Lemma addSample_samples (speed latency : R) (now : Z)
  (d : NetworkDiagnostics.t) :
  (length (NetworkDiagnostics.samples d) <= NetworkDiagnostics.maxSamples d)%nat ->
  NetworkDiagnostics.samples (NetworkDiagnostics.addSample speed latency now d)
  = skipn (S (length (NetworkDiagnostics.samples d))
           - NetworkDiagnostics.maxSamples d)
          (NetworkDiagnostics.samples d ++ [Sample.mk speed latency now])
  /\ NetworkDiagnostics.maxSamples
       (NetworkDiagnostics.addSample speed latency now d)
     = NetworkDiagnostics.maxSamples d.
Proof.
  intros Hle. unfold NetworkDiagnostics.addSample.
  rewrite length_app. cbn [length].
  replace (length (NetworkDiagnostics.samples d) + 1)%nat
    with (S (length (NetworkDiagnostics.samples d))) by lia.
  destruct (Nat.ltb_spec (NetworkDiagnostics.maxSamples d)
                         (S (length (NetworkDiagnostics.samples d))))
    as [Hfull|Hroom]; cbn [NetworkDiagnostics.samples
                            NetworkDiagnostics.maxSamples].
  - replace (S (length (NetworkDiagnostics.samples d))
             - NetworkDiagnostics.maxSamples d)%nat with 1%nat by lia.
    split; reflexivity.
  - replace (S (length (NetworkDiagnostics.samples d))
             - NetworkDiagnostics.maxSamples d)%nat with 0%nat by lia.
    split; reflexivity.
Qed.

(** X2. Fed from an empty window, the diagnostics hold exactly the ten most
    recent samples, oldest first: after any sequence of [addSample] calls
    the window is the input sequence without its first [n - 10] samples,
    and its length is [min n 10]. *)
Theorem addSamples_window (inputs : list (R * R * Z)) :
  NetworkDiagnostics.samples (addSamples inputs NetworkDiagnostics.new)
  = skipn (length inputs - 10) (map sampleOf inputs)
  /\ length (NetworkDiagnostics.samples (addSamples inputs NetworkDiagnostics.new))
     = Nat.min (length inputs) 10
  /\ NetworkDiagnostics.maxSamples (addSamples inputs NetworkDiagnostics.new)
     = 10%nat.
Proof.
  induction inputs as [|input inputs IH] using rev_ind.
  - repeat split.
  - destruct IH as (Hs & Hl & Hm).
    unfold addSamples in *. rewrite fold_left_app. cbn [fold_left].
    set (d := fold_left _ inputs NetworkDiagnostics.new) in *.
    destruct (addSample_samples (fst (fst input)) (snd (fst input)) (snd input) d)
      as [Hs' Hm']; [lia|].
    rewrite Hm', Hm. split; [|split; [|reflexivity]].
    + rewrite Hs', Hm, Hl, Hs. rewrite map_app, length_app. cbn [map length].
      fold (sampleOf input).
      destruct (Nat.le_gt_cases 10 (length inputs)) as [Hge|Hlt].
      * replace (S (Nat.min (length inputs) 10) - 10)%nat with 1%nat by lia.
        rewrite (skipn_app (length inputs + 1 - 10)).
        rewrite length_map.
        replace (length inputs + 1 - 10 - length inputs)%nat with 0%nat by lia.
        cbn [skipn].
        replace (length inputs + 1 - 10)%nat with (S (length inputs - 10)) by lia.
        assert (Hne : (length inputs - 10 < length (map sampleOf inputs))%nat)
          by (rewrite length_map; lia).
        revert Hne. generalize (length inputs - 10)%nat. 
        generalize (map sampleOf inputs).
        induction l as [|x l IHl]; intros n Hn; cbn in Hn; [lia|].
        destruct n as [|n]; [reflexivity|].
        cbn [skipn]. apply IHl. lia.
      * replace (S (Nat.min (length inputs) 10) - 10)%nat with 0%nat by lia.
        replace (length inputs - 10)%nat with 0%nat by lia.
        replace (length inputs + 1 - 10)%nat with 0%nat by lia.
        reflexivity.
    + rewrite Hs', Hm, Hl, length_skipn, length_app, Hl. cbn [length].
      rewrite length_app. cbn [length]. lia.
Qed.

Lemma ln_le_compat (x y : R) : (0 < x)%R -> (x <= y)%R -> (ln x <= ln y)%R.
Proof.
  intros Hx [Hlt|Heq].
  - left. apply ln_increasing; assumption.
  - subst. apply Rle_refl.
Qed.

Lemma Math_log2_le (x y : R) :
  (0 < x)%R -> (x <= y)%R -> (Math_log2 x <= Math_log2 y)%R.
Proof.
  intros Hx Hxy. unfold Math_log2.
  pose proof ln_2_pos as H2. pose proof (ln_le_compat x y Hx Hxy) as Hl.
  unfold Rdiv. apply Rmult_le_compat_r; [|exact Hl].
  left. apply Rinv_0_lt_compat. exact H2.
Qed.

(** [Math.round] stays within one half of its argument. *)
Lemma Math_round_bounds (x : R) :
  (x - / 2 < IZR (Math_round x) <= x + / 2)%R.
Proof.
  unfold Math_round. destruct (base_Int_part (x + / 2)) as [H1 H2]. lra.
Qed.

(** X3. Whatever speed, latency and file size it is given, the chunk size
    [calculateOptimalChunkSize] proposes is one of the seven configured
    sizes: a power of two from 256 KiB to 16 MiB. *)
Theorem calculateOptimalChunkSize_in_options (networkSpeed latency : R)
  (fileSize : Z) :
  In (calculateOptimalChunkSize networkSpeed latency fileSize)
     CHUNK_SIZE_OPTIONS
  /\ exists k, 18 <= k <= 24
               /\ calculateOptimalChunkSize networkSpeed latency fileSize
                  = 2 ^ k.
Proof.
  unfold calculateOptimalChunkSize.
  change (nth 0 CHUNK_SIZE_OPTIONS 0) with 262144.
  change (nth (length CHUNK_SIZE_OPTIONS - 1) CHUNK_SIZE_OPTIONS 0)
    with 16777216.
  set (raw := (IZR (1024 * 1024) * _ * _)%R).
  set (x := Rmax 262144 (Rmin raw 16777216)).
  assert (Hlo : (2 ^ 18 <= x)%R).
  { subst x. replace (2 ^ 18)%R with 262144%R by lra. apply Rmax_l. }
  assert (Hhi : (x <= 2 ^ 24)%R).
  { subst x. replace (2 ^ 24)%R with 16777216%R by lra.
    apply Rmax_lub; [lra | apply Rmin_r]. }
  assert (H18 : (INR 18 <= Math_log2 x)%R).
  { rewrite <- Math_log2_pow2. apply Math_log2_le; [lra | exact Hlo]. }
  assert (H24 : (Math_log2 x <= INR 24)%R).
  { rewrite <- Math_log2_pow2. apply Math_log2_le; [lra | exact Hhi]. }
  replace (INR 18) with 18%R in H18 by (simpl; lra).
  replace (INR 24) with 24%R in H24 by (simpl; lra).
  pose proof (Math_round_bounds (Math_log2 x)) as [Hr1 Hr2].
  set (k := Math_round (Math_log2 x)) in *.
  assert (Hk : 18 <= k <= 24).
  { split.
    - assert (H : (IZR 17 < IZR k)%R) by lra. apply lt_IZR in H. lia.
    - assert (H : (IZR k < IZR 25)%R) by lra. apply lt_IZR in H. lia. }
  split; [|exists k; split; [exact Hk | reflexivity]].
  assert (Hcases : k = 18 \/ k = 19 \/ k = 20 \/ k = 21 \/ k = 22 \/ k = 23
                   \/ k = 24) by lia.
  destruct Hcases as [->|[->|[->|[->|[->|[->| ->]]]]]]; cbn; auto 10.
Qed.

Lemma Math_round_le (x y : R) : (x <= y)%R -> Math_round x <= Math_round y.
Proof.
  intros Hxy.
  pose proof (Math_round_bounds x) as [_ Hx].
  pose proof (Math_round_bounds y) as [Hy _].
  assert (H : (IZR (Math_round x) < IZR (Math_round y + 1))%R).
  { rewrite plus_IZR. lra. }
  apply lt_IZR in H. lia.
Qed.

(** X25. As its comments promise, the proposal of
    [calculateOptimalChunkSize] grows with the measured speed and with the
    latency: for a latency that is not negative a higher speed never
    yields a smaller chunk size, and for a speed that is not negative a
    higher latency never does. *)
Theorem calculateOptimalChunkSize_monotone (speed speed' latency latency' : R)
  (fileSize : Z) :
  (0 <= speed <= speed')%R ->
  (0 <= latency <= latency')%R ->
  calculateOptimalChunkSize speed latency fileSize
  <= calculateOptimalChunkSize speed' latency fileSize
  /\ calculateOptimalChunkSize speed latency fileSize
     <= calculateOptimalChunkSize speed latency' fileSize.
Proof.
  intros [Hs0 Hs] [Hl0 Hl].
  assert (Hmono : forall a b : R,
             (a <= b)%R ->
             2 ^ Math_round (Math_log2 (Rmax 262144 (Rmin a 16777216)))
             <= 2 ^ Math_round (Math_log2 (Rmax 262144 (Rmin b 16777216)))).
  { intros a b Hab. apply Z.pow_le_mono_r; [lia|].
    apply Math_round_le, Math_log2_le.
    - eapply Rlt_le_trans; [|apply Rmax_l]. lra.
    - apply Rle_max_compat_l. apply Rle_min_compat_r. exact Hab. }
  unfold calculateOptimalChunkSize.
  change (nth 0 CHUNK_SIZE_OPTIONS 0) with 262144.
  change (nth (length CHUNK_SIZE_OPTIONS - 1) CHUNK_SIZE_OPTIONS 0)
    with 16777216.
  change (1024 * 1024) with 1048576.
  assert (Hsf : (0 <= Rmin (speed / 1048576) 8 <= Rmin (speed' / 1048576) 8)%R).
  { split.
    - apply Rmin_glb; lra.
    - apply Rle_min_compat_r. lra. }
  assert (Hlf : (0 <= Rmin (latency / 100) 4 <= Rmin (latency' / 100) 4)%R).
  { split.
    - apply Rmin_glb; lra.
    - apply Rle_min_compat_r. lra. }
  split; apply Hmono; nra.
Qed.

Lemma calculateOptimalChunkSize_monotone_witness :
  (0 <= 1000 <= 2000)%R /\ (0 <= 10 <= 20)%R
  /\ calculateOptimalChunkSize 1000 10 4096
     <= calculateOptimalChunkSize 2000 10 4096.
Proof.
  assert (H1 : (0 <= 1000 <= 2000)%R) by lra.
  assert (H2 : (0 <= 10 <= 20)%R) by lra.
  split; [exact H1|]. split; [exact H2|].
  apply (calculateOptimalChunkSize_monotone 1000 2000 10 20 4096 H1 H2).
Defined.

(** ** Semaphore and dispatch *)

Lemma length_removeHolder (caller : nat) (holders : list nat) :
  existsb (Nat.eqb caller) holders = true ->
  S (length (removeHolder caller holders)) = length holders.
Proof.
  induction holders as [|h r IH]; cbn [existsb removeHolder]; [discriminate|].
  destruct (Nat.eqb caller h); cbn [orb length]; [reflexivity|].
  intros H. rewrite (IH H). reflexivity.
Qed.

Lemma semaphoreStep_invariant (t : SemaphoreTrace.t) (call : SemaphoreCall) :
  semaphoreInvariant t ->
  match call with
  | acquireCall _ => True
  | releaseCall caller =>
      existsb (Nat.eqb caller) (SemaphoreTrace.holders t) = true
  end ->
  semaphoreInvariant (semaphoreStep t call)
  /\ Semaphore.maxConcurrency (SemaphoreTrace.semaphore (semaphoreStep t call))
     = Semaphore.maxConcurrency (SemaphoreTrace.semaphore t).
Proof.
  unfold semaphoreInvariant. cbv zeta.
  intros (Hheld & Hle & Hq) Hcall.
  destruct call as [waiter|caller]; cbn [semaphoreStep].
  - unfold Semaphore.acquire.
    destruct (Z.ltb_spec
                (Semaphore.currentConcurrency (SemaphoreTrace.semaphore t))
                (Semaphore.maxConcurrency (SemaphoreTrace.semaphore t)))
      as [Hlt|Hge];
      cbn [SemaphoreTrace.semaphore SemaphoreTrace.holders
           Semaphore.maxConcurrency Semaphore.currentConcurrency
           Semaphore.queue].
    + split; [|reflexivity]. rewrite length_app. cbn [length].
      split; [lia|]. split; [lia|].
      intros Hne. specialize (Hq Hne). lia.
    + split; [|reflexivity]. split; [exact Hheld|]. split; [exact Hle|].
      intros _. lia.
  - pose proof (length_removeHolder _ _ Hcall) as Hlen.
    unfold Semaphore.release.
    destruct (Semaphore.queue (SemaphoreTrace.semaphore t))
      as [|next rest] eqn:E;
      cbn [SemaphoreTrace.semaphore SemaphoreTrace.holders
           Semaphore.maxConcurrency Semaphore.currentConcurrency
           Semaphore.queue].
    + split; [|reflexivity]. split; [lia|]. split; [lia|].
      intros H. congruence.
    + split; [|reflexivity]. rewrite length_app. cbn [length].
      assert (Semaphore.currentConcurrency (SemaphoreTrace.semaphore t)
              = Semaphore.maxConcurrency (SemaphoreTrace.semaphore t))
        by (apply Hq; discriminate).
      split; [lia|]. split; [lia|]. intros _. lia.
Qed.

Lemma semaphoreRun_from (calls : list SemaphoreCall) :
  forall t,
    semaphoreInvariant t ->
    releasedByHolders calls t = true ->
    semaphoreInvariant (semaphoreRun calls t)
    /\ Semaphore.maxConcurrency (SemaphoreTrace.semaphore (semaphoreRun calls t))
       = Semaphore.maxConcurrency (SemaphoreTrace.semaphore t).
Proof.
  induction calls as [|call calls IH]; intros t Hinv Hrel.
  - split; [exact Hinv | reflexivity].
  - cbn [releasedByHolders] in Hrel. apply andb_true_iff in Hrel.
    destruct Hrel as [Hcall Hrest].
    destruct (semaphoreStep_invariant t call Hinv) as [Hinv' Hmax].
    { destruct call; [exact I | exact Hcall]. }
    destruct (IH (semaphoreStep t call) Hinv' Hrest) as [Hend Hmax'].
    cbn [semaphoreRun fold_left]. fold (semaphoreRun calls (semaphoreStep t call)).
    split; [exact Hend | congruence].
Qed.

(** X5. Starting from a fresh semaphore with a non-negative number of
    permits, and as long as [release] is called only by callers that hold
    a permit, the callers holding a permit are as many as the counter says
    and never more than the maximum, and callers are queued only while
    every permit is held.  [release] itself checks nothing: two releases
    by callers that hold no permit drive the counter of a one-permit
    semaphore to -2, after which three callers hold a permit at once. *)
Theorem semaphoreRun_invariant (maxConcurrency : Z)
  (calls : list SemaphoreCall) :
  0 <= maxConcurrency ->
  releasedByHolders calls (SemaphoreTrace.start maxConcurrency) = true ->
  let t := semaphoreRun calls (SemaphoreTrace.start maxConcurrency) in
  let s := SemaphoreTrace.semaphore t in
  Semaphore.maxConcurrency s = maxConcurrency
  /\ Z.of_nat (length (SemaphoreTrace.holders t))
     = Semaphore.currentConcurrency s
  /\ Z.of_nat (length (SemaphoreTrace.holders t)) <= maxConcurrency
  /\ (Semaphore.queue s <> [] ->
      Z.of_nat (length (SemaphoreTrace.holders t)) = maxConcurrency)
  /\ (let stray :=
        semaphoreRun [releaseCall 7; releaseCall 8; acquireCall 0;
                      acquireCall 1; acquireCall 2]
                     (SemaphoreTrace.start 1) in
      SemaphoreTrace.holders stray = [0; 1; 2]%nat
      /\ Semaphore.currentConcurrency (SemaphoreTrace.semaphore stray) = 1
      /\ Semaphore.maxConcurrency (SemaphoreTrace.semaphore stray) = 1).
Proof.
  intros Hmax Hrel t s.
  destruct (semaphoreRun_from calls (SemaphoreTrace.start maxConcurrency))
    as [(Hheld & Hle & Hq) Hm].
  - unfold semaphoreInvariant. cbn. split; [reflexivity|].
    split; [exact Hmax|]. intros H. congruence.
  - exact Hrel.
  - fold t in Hheld, Hle, Hq, Hm. fold s in Hheld, Hle, Hq, Hm.
    cbn [SemaphoreTrace.start SemaphoreTrace.semaphore Semaphore.new
         Semaphore.maxConcurrency] in Hm.
    split; [exact Hm|]. split; [exact Hheld|]. split; [lia|].
    split; [intros Hne; specialize (Hq Hne); lia|].
    cbv zeta. split; [reflexivity|]. split; reflexivity.
Qed.

Lemma semaphoreRun_invariant_witness :
  0 <= 2
  /\ releasedByHolders
       [acquireCall 0; acquireCall 1; acquireCall 2; releaseCall 0;
        releaseCall 2]
       (SemaphoreTrace.start 2) = true
  /\ Z.of_nat
       (length
          (SemaphoreTrace.holders
             (semaphoreRun
                [acquireCall 0; acquireCall 1; acquireCall 2; releaseCall 0;
                 releaseCall 2]
                (SemaphoreTrace.start 2))))
     <= 2.
Proof.
  assert (H : 0 <= 2) by lia.
  assert (Hrel : releasedByHolders
                   [acquireCall 0; acquireCall 1; acquireCall 2;
                    releaseCall 0; releaseCall 2]
                   (SemaphoreTrace.start 2) = true) by reflexivity.
  split; [exact H|]. split; [exact Hrel|].
  apply (semaphoreRun_invariant 2
           [acquireCall 0; acquireCall 1; acquireCall 2; releaseCall 0;
            releaseCall 2] H Hrel).
Defined.

(** The loop of [uploadChunksWithConcurrency] grants the free permits to
    the first callers, in order. *)
Lemma acquireAll_firstn (pending : list nat) :
  forall semaphore : Semaphore.t,
    fst (acquireAll semaphore pending)
    = firstn (Z.to_nat (Semaphore.maxConcurrency semaphore
                        - Semaphore.currentConcurrency semaphore))
             pending.
Proof.
  induction pending as [|pos r IH]; intros semaphore.
  - cbn. rewrite firstn_nil. reflexivity.
  - cbn [acquireAll]. unfold Semaphore.acquire.
    destruct (Z.ltb_spec (Semaphore.currentConcurrency semaphore)
                         (Semaphore.maxConcurrency semaphore)) as [Hlt|Hge].
    + match goal with
      | |- context [acquireAll ?s r] =>
          specialize (IH s); destruct (acquireAll s r) as [granted s']
      end.
      cbn [fst Semaphore.maxConcurrency Semaphore.currentConcurrency] in *.
      replace (Z.to_nat (Semaphore.maxConcurrency semaphore
                         - Semaphore.currentConcurrency semaphore))
        with (S (Z.to_nat (Semaphore.maxConcurrency semaphore
                           - (Semaphore.currentConcurrency semaphore + 1))))
        by lia.
      cbn [firstn]. rewrite IH. reflexivity.
    + match goal with
      | |- context [acquireAll ?s r] =>
          specialize (IH s); destruct (acquireAll s r) as [granted s']
      end.
      cbn [fst Semaphore.maxConcurrency Semaphore.currentConcurrency] in *.
      replace (Z.to_nat (Semaphore.maxConcurrency semaphore
                         - Semaphore.currentConcurrency semaphore))
        with 0%nat in * by lia.
      rewrite firstn_O in *. exact IH.
Qed.

(** Marking chunks as dispatched, one position after the other. *)
Lemma nth_error_dispatched (granted : list nat) :
  forall (chunks : list Chunk.t) (p : nat),
    nth_error
      (fold_left (fun cs pos => update_nth pos (Chunk.set_status UPLOADING) cs)
                 granted chunks) p
    = option_map
        (fun c => if memPos p granted then Chunk.set_status UPLOADING c else c)
        (nth_error chunks p).
Proof.
  induction granted as [|a r IH]; intros chunks p; cbn [fold_left].
  - cbn. destruct (nth_error chunks p); reflexivity.
  - rewrite IH. unfold memPos. cbn [existsb].
    destruct (Nat.eqb_spec p a) as [->|Hne]; cbn [orb].
    + rewrite nth_error_update_nth_eq.
      destruct (nth_error chunks a) as [c|]; cbn [option_map]; [|reflexivity].
      destruct (existsb (Nat.eqb a) r); reflexivity.
    + rewrite nth_error_update_nth_ne by congruence. reflexivity.
Qed.

Lemma set_chunks_same (upload : Upload.t) :
  Upload.set_chunks (Upload.chunks upload) upload = upload.
Proof. destruct upload; reflexivity. Qed.

Lemma update_nth_out_of_range {A : Type} (f : A -> A) (l : list A) (i : nat) :
  nth_error l i = None -> update_nth i f l = l.
Proof.
  revert i. induction l as [|x r IH]; intros [|i] H; cbn in *;
    try reflexivity; try discriminate.
  rewrite (IH i H). reflexivity.
Qed.

Lemma uploadChunk_upload (pos : nat) (upload : Upload.t) :
  fst (uploadChunk pos upload)
  = Upload.set_chunks
      (update_nth pos (Chunk.set_status UPLOADING) (Upload.chunks upload))
      upload.
Proof.
  unfold uploadChunk.
  destruct (nth_error (Upload.chunks upload) pos) as [chunk|] eqn:E.
  - destruct (hasHash chunk); reflexivity.
  - rewrite (update_nth_out_of_range _ _ _ E), set_chunks_same. reflexivity.
Qed.

Lemma runDispatches_upload (granted : list nat) :
  forall upload : Upload.t,
    fst (runDispatches granted upload)
    = Upload.set_chunks
        (fold_left (fun cs pos => update_nth pos (Chunk.set_status UPLOADING) cs)
                   granted (Upload.chunks upload))
        upload.
Proof.
  induction granted as [|pos r IH]; intros upload; cbn [runDispatches fold_left].
  - cbn [fst]. symmetry. apply set_chunks_same.
  - pose proof (uploadChunk_upload pos upload) as H1.
    destruct (uploadChunk pos upload) as [u1 e1]. cbn [fst] in H1.
    specialize (IH u1). destruct (runDispatches r u1) as [u2 e2].
    cbn [fst] in *. rewrite IH, H1. reflexivity.
Qed.

Lemma In_combine_seq {A : Type} (l : list A) (p : nat) (c : A) :
  forall base, In (p, c) (combine (seq base (length l)) l) <->
               exists i, p = (base + i)%nat /\ nth_error l i = Some c.
Proof.
  induction l as [|x l IHl]; intros base; cbn [length seq combine].
  - split; [intros [] | intros ([|i] & _ & H); discriminate H].
  - split.
    + intros [Heq|Hin].
      * injection Heq as <- <-. exists 0%nat. split; [lia | reflexivity].
      * apply IHl in Hin. destruct Hin as (i & -> & Hi).
        exists (S i). split; [lia | exact Hi].
    + intros ([|i] & -> & Hi); cbn in Hi.
      * injection Hi as ->. left. f_equal. lia.
      * right. apply IHl. exists i. split; [lia | exact Hi].
Qed.

Lemma pendingChunks_In (upload : Upload.t) (p : nat) :
  In p (pendingChunks upload) <->
  exists c, nth_error (Upload.chunks upload) p = Some c
            /\ Chunk.status c = PENDING
            /\ ~ In (Chunk.chunkIndex c) (Upload.completedChunks upload).
Proof.
  unfold pendingChunks. rewrite in_map_iff. split.
  - intros ([q c] & Hq & Hin). cbn in Hq. subst q.
    apply filter_In in Hin. destruct Hin as [Hin Hf]. cbn [snd] in Hf.
    apply andb_true_iff in Hf. destruct Hf as [Hs Hc].
    apply In_combine_seq in Hin. destruct Hin as (i & Hp & Hi).
    cbn in Hp. subst i.
    exists c. split; [exact Hi|]. split.
    + destruct (Chunk.status c); cbn in Hs; congruence.
    + intros Hc'. apply Set_has_true_iff in Hc'. rewrite Hc' in Hc.
      discriminate.
  - intros (c & Hn & Hs & Hc). exists (p, c). split; [reflexivity|].
    apply filter_In. split.
    + apply In_combine_seq. exists p. split; [reflexivity | exact Hn].
    + cbn [snd]. rewrite Hs. cbn.
      destruct (Set_has (Chunk.chunkIndex c) (Upload.completedChunks upload))
        eqn:E; [|reflexivity].
      apply Set_has_true_iff in E. contradiction.
Qed.

(** What one call of [uploadChunksWithConcurrency] does to the upload. *)
Lemma uploadChunksWithConcurrency_spec (upload : Upload.t) :
  let dispatched :=
    firstn (Z.to_nat (Options.concurrency (Upload.options upload)))
           (pendingChunks upload) in
  let upload' := fst (uploadChunksWithConcurrency upload) in
  upload' = Upload.set_chunks (Upload.chunks upload') upload
  /\ (forall p,
        nth_error (Upload.chunks upload') p
        = option_map
            (fun c => if memPos p dispatched
                      then Chunk.set_status UPLOADING c else c)
            (nth_error (Upload.chunks upload) p))
  /\ (forall p,
        In p (pendingChunks upload) <->
        exists c, nth_error (Upload.chunks upload) p = Some c
                  /\ Chunk.status c = PENDING
                  /\ ~ In (Chunk.chunkIndex c) (Upload.completedChunks upload)).
Proof.
  intros dispatched upload'.
  assert (Hup : upload'
                = Upload.set_chunks
                    (fold_left
                       (fun cs pos =>
                          update_nth pos (Chunk.set_status UPLOADING) cs)
                       dispatched (Upload.chunks upload))
                    upload).
  { subst upload' dispatched. unfold uploadChunksWithConcurrency.
    pose proof (acquireAll_firstn (pendingChunks upload)
                  (Semaphore.new (Options.concurrency (Upload.options upload))))
      as Hg.
    destruct (acquireAll _ _) as [granted semaphore].
    cbn [fst Semaphore.new Semaphore.maxConcurrency
         Semaphore.currentConcurrency] in Hg.
    rewrite Z.sub_0_r in Hg. subst granted.
    apply runDispatches_upload. }
  split; [rewrite Hup; reflexivity|].
  split; [|apply pendingChunks_In].
  intros p. rewrite Hup. cbn [Upload.chunks Upload.set_chunks].
  apply nth_error_dispatched.
Qed.

(** X6. One call of [uploadChunksWithConcurrency] dispatches exactly the
    first [concurrency] pending chunks (pending: status PENDING and index
    not among the completed ones), in plan order: these become UPLOADING,
    every other chunk and every other field of the upload is left as it
    was, and the chunks queued behind them are not started by this call. *)
Theorem uploadChunksWithConcurrency_dispatches (upload : Upload.t) :
  let dispatched :=
    firstn (Z.to_nat (Options.concurrency (Upload.options upload)))
           (pendingChunks upload) in
  let upload' := fst (uploadChunksWithConcurrency upload) in
  upload' = Upload.set_chunks (Upload.chunks upload') upload
  /\ (forall p,
        nth_error (Upload.chunks upload') p
        = option_map
            (fun c => if memPos p dispatched
                      then Chunk.set_status UPLOADING c else c)
            (nth_error (Upload.chunks upload) p))
  /\ (forall p,
        In p (pendingChunks upload) <->
        exists c, nth_error (Upload.chunks upload) p = Some c
                  /\ Chunk.status c = PENDING
                  /\ ~ In (Chunk.chunkIndex c) (Upload.completedChunks upload)).
Proof. exact (uploadChunksWithConcurrency_spec upload). Qed.

(** ** Progress *)

Lemma NoDup_incl_split (l m : list nat) :
  NoDup l -> incl l m -> exists rest, Permutation m (l ++ rest).
Proof.
  revert m. induction l as [|a r IH]; intros m Hnd Hincl.
  - exists m. apply Permutation_refl.
  - inversion Hnd as [|? ? Ha Hr]; subst.
    destruct (in_split a m (Hincl a (or_introl eq_refl))) as (m1 & m2 & ->).
    destruct (IH (m1 ++ m2) Hr) as (rest & Hp).
    + intros x Hx. specialize (Hincl x (or_intror Hx)).
      apply in_app_or in Hincl. apply in_or_app.
      destruct Hincl as [H|[H|H]]; [left; exact H | subst; contradiction
                                   | right; exact H].
    + exists rest. cbn. apply Permutation_sym.
      apply Permutation_cons_app. apply Permutation_sym. exact Hp.
Qed.

Lemma bytesAt_Permutation (chunks : list Chunk.t) (l m : list nat) :
  Permutation l m -> bytesAt chunks l = bytesAt chunks m.
Proof.
  induction 1; cbn; try lia.
  unfold bytesAt in *. lia.
Qed.

Lemma bytesAt_app (chunks : list Chunk.t) (l m : list nat) :
  bytesAt chunks (l ++ m) = bytesAt chunks l + bytesAt chunks m.
Proof.
  induction l as [|a r IH]; cbn; [reflexivity|].
  unfold bytesAt in *. cbn. lia.
Qed.

Lemma bytesAt_nonneg (chunks : list Chunk.t) (l : list nat) :
  Forall (fun c => 0 <= Chunk.size c) chunks -> 0 <= bytesAt chunks l.
Proof.
  intros Hpos. induction l as [|a r IH]; cbn; [lia|].
  assert (0 <= sizeAt chunks a).
  { unfold sizeAt. destruct (nth_error chunks a) as [c|] eqn:E; [|lia].
    apply nth_error_In in E. rewrite Forall_forall in Hpos. auto. }
  unfold bytesAt in IH. lia.
Qed.

Lemma bytesAt_seq (chunks : list Chunk.t) :
  forall prefix : list Chunk.t,
    bytesAt (prefix ++ chunks) (seq (length prefix) (length chunks))
    = sum_sizes chunks.
Proof.
  induction chunks as [|c r IH]; intros prefix; cbn [length seq bytesAt fold_right].
  - reflexivity.
  - unfold sizeAt. rewrite nth_error_app2 by lia. rewrite Nat.sub_diag.
    cbn [nth_error sum_sizes fold_right].
    specialize (IH (prefix ++ [c])).
    rewrite <- app_assoc, length_app in IH. cbn [length app] in IH.
    replace (length prefix + 1)%nat with (S (length prefix)) in IH by lia.
    unfold bytesAt, sum_sizes, sizeAt in IH. f_equal. exact IH.
Qed.

(** The [reduce] of [updateUploadProgress] adds up the sizes at the
    completed positions when they all exist. *)
Lemma completedBytes_bytesAt (chunks : list Chunk.t) (completed : list nat) :
  Forall (fun i => (i < length chunks)%nat) completed ->
  forall sum, completedBytes chunks completed sum
              = Some (sum + bytesAt chunks completed).
Proof.
  induction 1 as [|i r Hi Hr IH]; intros sum; cbn [completedBytes].
  - cbn. f_equal. lia.
  - destruct (nth_error chunks i) as [c|] eqn:E.
    + rewrite IH. cbn [bytesAt fold_right]. unfold sizeAt at 1. rewrite E.
      f_equal. unfold bytesAt. lia.
    + apply nth_error_None in E. lia.
Qed.

Lemma planned_sizes (upload : Upload.t) :
  planned upload ->
  Forall (fun c => 0 <= Chunk.size c) (Upload.chunks upload)
  /\ sum_sizes (Upload.chunks upload) = File.size (Upload.file upload).
Proof.
  intros [Htiles Hsize]. split.
  - assert (Hgen : forall l lo hi,
               tiles lo l hi ->
               Forall (fun c => Chunk.size c = Chunk.end_ c - Chunk.start c) l ->
               Forall (fun c => 0 <= Chunk.size c) l).
    { induction l as [|c r IH]; intros lo hi Ht Hs.
      - constructor.
      - cbn in Ht. destruct Ht as (_ & Hlt & Hr).
        inversion Hs as [|? ? Hc Hs']; subst.
        constructor; [lia | apply (IH _ _ Hr Hs')]. }
    apply (Hgen _ _ _ Htiles Hsize).
  - rewrite (sum_sizes_tiles _ (proj1 (Forall_forall _ _) Hsize) _ _ Htiles).
    lia.
Qed.

Lemma completed_bytes_bound (upload : Upload.t) :
  planned upload ->
  NoDup (Upload.completedChunks upload) ->
  Forall (fun i => (i < length (Upload.chunks upload))%nat)
         (Upload.completedChunks upload) ->
  0 <= bytesAt (Upload.chunks upload) (Upload.completedChunks upload)
    <= File.size (Upload.file upload)
  /\ (length (Upload.completedChunks upload) = length (Upload.chunks upload) ->
      bytesAt (Upload.chunks upload) (Upload.completedChunks upload)
      = File.size (Upload.file upload)).
Proof.
  intros Hplan Hnd Hrange.
  destruct (planned_sizes upload Hplan) as [Hpos Hsum].
  set (chunks := Upload.chunks upload) in *.
  set (completed := Upload.completedChunks upload) in *.
  assert (Hincl : incl completed (seq 0 (length chunks))).
  { intros i Hi. apply in_seq. rewrite Forall_forall in Hrange.
    specialize (Hrange i Hi). lia. }
  destruct (NoDup_incl_split completed _ Hnd Hincl) as (rest & Hperm).
  pose proof (bytesAt_seq chunks []) as Hall. cbn [app length] in Hall.
  rewrite (bytesAt_Permutation chunks _ _ Hperm), bytesAt_app in Hall.
  pose proof (bytesAt_nonneg chunks completed Hpos).
  pose proof (bytesAt_nonneg chunks rest Hpos).
  split; [lia|].
  intros Hlen.
  assert (Hrest : rest = []).
  { apply Permutation_length in Hperm.
    rewrite length_seq, length_app in Hperm.
    destruct rest; [reflexivity | cbn in Hperm; lia]. }
  subst rest. cbn in Hall. lia.
Qed.

Lemma updateUploadProgress_progress (now : Z) (d : NetworkDiagnostics.t)
  (upload : Upload.t) (bytes : Z) :
  completedBytes (Upload.chunks upload) (Upload.completedChunks upload) 0
  = Some bytes ->
  exists d' upload',
    updateUploadProgress now d upload = Some (d', upload')
    /\ Upload.progress upload'
       = (IZR bytes / IZR (File.size (Upload.file upload)) * 100)%R.
Proof.
  intros Hbytes. unfold updateUploadProgress. rewrite Hbytes.
  set (u1 := Upload.set_progress _ upload).
  set (u2 := match Upload.startTime u1 with Some _ => _ | None => _ end).
  assert (H2 : Upload.progress u2 = Upload.progress u1).
  { subst u2. destruct (Upload.startTime u1) as [t|]; [destruct (t =? 0)|];
      reflexivity. }
  eexists _, _. split; [reflexivity|].
  destruct (_ && _).
  - destruct (autoTuneChunkSize_frame
                (NetworkDiagnostics.addSample (Upload.speed u2) 0 now d) u2)
      as (chunks & options & ->).
    cbn [Upload.progress Upload.set_chunks Upload.set_options].
    rewrite H2. reflexivity.
  - rewrite H2. reflexivity.
Qed.

(** X7. For an upload whose chunks tile a non-empty file (as
    [calculateChunks] plans them) and whose completed set holds distinct
    positions of the plan, [updateUploadProgress] does not throw, the
    bytes it adds up lie between 0 and the file size, and the progress it
    stores is 100 * bytes / size, between 0 and 100; when every chunk is
    completed the progress is exactly 100. *)
Theorem updateUploadProgress_progress_bounds (now : Z)
  (d : NetworkDiagnostics.t) (upload : Upload.t) :
  planned upload ->
  0 < File.size (Upload.file upload) ->
  NoDup (Upload.completedChunks upload) ->
  Forall (fun i => (i < length (Upload.chunks upload))%nat)
         (Upload.completedChunks upload) ->
  exists d' upload' bytes,
    updateUploadProgress now d upload = Some (d', upload')
    /\ completedBytes (Upload.chunks upload) (Upload.completedChunks upload) 0
       = Some bytes
    /\ 0 <= bytes <= File.size (Upload.file upload)
    /\ Upload.progress upload'
       = (IZR bytes / IZR (File.size (Upload.file upload)) * 100)%R
    /\ (0 <= Upload.progress upload' <= 100)%R
    /\ (length (Upload.completedChunks upload) = length (Upload.chunks upload)
        -> Upload.progress upload' = 100%R).
Proof.
  intros Hplan Hsize Hnd Hrange.
  destruct (completed_bytes_bound upload Hplan Hnd Hrange) as [Hb Hfull].
  pose proof (completedBytes_bytesAt _ _ Hrange 0) as Hbytes.
  rewrite Z.add_0_l in Hbytes.
  set (bytes := bytesAt (Upload.chunks upload) (Upload.completedChunks upload))
    in *.
  destruct (updateUploadProgress_progress now d upload bytes Hbytes)
    as (d' & upload' & Hup & Hprog).
  exists d', upload', bytes.
  split; [exact Hup|]. split; [exact Hbytes|]. split; [exact Hb|].
  split; [exact Hprog|].
  assert (Hs : (0 < IZR (File.size (Upload.file upload)))%R)
    by (apply (IZR_lt 0); exact Hsize).
  assert (H0 : (0 <= IZR bytes)%R) by (apply (IZR_le 0); lia).
  assert (H1 : (IZR bytes <= IZR (File.size (Upload.file upload)))%R)
    by (apply IZR_le; lia).
  assert (Hq : (0 <= IZR bytes / IZR (File.size (Upload.file upload)) <= 1)%R).
  { split.
    - apply Rmult_le_pos; [exact H0|]. left. apply Rinv_0_lt_compat. exact Hs.
    - apply (Rmult_le_reg_r (IZR (File.size (Upload.file upload)))); [exact Hs|].
      unfold Rdiv. rewrite Rmult_assoc, Rinv_l; lra. }
  split; [rewrite Hprog; lra|].
  intros Hlen. rewrite Hprog, (Hfull Hlen). field. lra.
Qed.

Lemma updateUploadProgress_progress_bounds_witness :
  planned twoDone
  /\ 0 < File.size (Upload.file twoDone)
  /\ exists d' upload',
       updateUploadProgress 2000 NetworkDiagnostics.new twoDone
       = Some (d', upload')
       /\ (0 <= Upload.progress upload' <= 100)%R.
Proof.
  assert (Hplan : planned twoDone).
  { split.
    - cbn. repeat (split; [reflexivity|]). reflexivity.
    - repeat constructor. }
  assert (Hsize : 0 < File.size (Upload.file twoDone)) by reflexivity.
  assert (Hnd : NoDup (Upload.completedChunks twoDone)).
  { cbn. repeat constructor; cbn; intuition lia. }
  assert (Hrange : Forall (fun i => (i < length (Upload.chunks twoDone))%nat)
                          (Upload.completedChunks twoDone)).
  { cbn. repeat constructor; lia. }
  split; [exact Hplan|]. split; [exact Hsize|].
  destruct (updateUploadProgress_progress_bounds 2000 NetworkDiagnostics.new
              twoDone Hplan Hsize Hnd Hrange)
    as (d' & upload' & bytes & Hup & _ & _ & _ & Hp & _).
  exists d', upload'. split; [exact Hup | exact Hp].
Defined.

(** ** Chunk events: completion, unknown indices, preserved plan *)

Lemma map_boundaries_update_nth (f : Chunk.t -> Chunk.t) (i : nat)
  (chunks : list Chunk.t) :
  (forall c, Chunk.boundaries (f c) = Chunk.boundaries c) ->
  map Chunk.boundaries (update_nth i f chunks) = map Chunk.boundaries chunks.
Proof.
  intros Hf. revert i. induction chunks as [|c r IH]; intros [|i]; cbn;
    try reflexivity.
  - rewrite Hf. reflexivity.
  - rewrite IH. reflexivity.
Qed.

Lemma Set_add_incl (k : nat) (s : list nat) : incl s (Set_add k s).
Proof.
  unfold Set_add. destruct (Set_has k s); [apply incl_refl|].
  apply incl_appl, incl_refl.
Qed.

Lemma continues_refl (upload : Upload.t) : continues upload upload.
Proof. repeat split; apply incl_refl. Qed.

Lemma continues_trans (a b c : Upload.t) :
  continues a b -> continues b c -> continues a c.
Proof.
  intros (H1 & H2 & H3 & H4 & H5 & H6) (G1 & G2 & G3 & G4 & G5 & G6).
  repeat split; try congruence; eapply incl_tran; eassumption.
Qed.

Lemma continues_update_nth (pos : nat) (key : string)
  (upload upload' : Upload.t) (uploads : list (string * Upload.t)) :
  nth_error uploads pos = Some (key, upload) ->
  continues upload upload' ->
  Forall2 (fun e e' => fst e' = fst e /\ continues (snd e) (snd e'))
          uploads (update_nth pos (fun e => (fst e, upload')) uploads).
Proof.
  revert pos.
  induction uploads as [|[k u] r IH]; intros [|pos] Hn Hc; cbn in Hn;
    try discriminate; cbn [update_nth].
  - injection Hn as -> ->. constructor.
    + split; [reflexivity | exact Hc].
    + clear. induction r as [|e r IH]; constructor;
        [split; [reflexivity | apply continues_refl] | exact IH].
  - constructor; [split; [reflexivity | apply continues_refl]|].
    apply IH; assumption.
Qed.

Lemma continuesAll_refl (m : Manager.t) : continuesAll m m.
Proof.
  unfold continuesAll. induction (Manager.uploads m) as [|e r IH];
    constructor; [split; [reflexivity | apply continues_refl] | exact IH].
Qed.

(** Under diagnostics without latency the progress computation continues
    the session. *)
Lemma updateUploadProgress_continues (now : Z) (d d' : NetworkDiagnostics.t)
  (upload upload' : Upload.t) :
  zeroLatency d ->
  updateUploadProgress now d upload = Some (d', upload') ->
  zeroLatency d'
  /\ Upload.chunks upload' = Upload.chunks upload
  /\ sessionView upload' = sessionView upload
  /\ Upload.uploadId upload' = Upload.uploadId upload
  /\ Upload.storageType upload' = Upload.storageType upload
  /\ continues upload upload'.
Proof.
  intros Hz Hup.
  destruct (updateUploadProgress_never_tunes _ _ _ _ _ Hz Hup)
    as (Hchunks & Hopts & Hz').
  pose proof (updateUploadProgress_sessionView _ _ _ _ _ Hup) as Hview.
  apply updateUploadProgress_frame in Hup.
  destruct Hup as (p & s & e & c & o & Heq).
  split; [exact Hz'|]. split; [exact Hchunks|]. split; [exact Hview|].
  split; [rewrite Heq; reflexivity|]. split; [rewrite Heq; reflexivity|].
  unfold continues. rewrite Hchunks, Hopts.
  apply sessionView_eq in Hview. destruct Hview as (-> & _ & -> & -> & _).
  repeat split; try apply incl_refl. rewrite Heq. reflexivity.
Qed.

Lemma completedBytes_defined (chunks : list Chunk.t) (completed : list nat) :
  Forall (fun i => (i < length chunks)%nat) completed ->
  exists bytes, completedBytes chunks completed 0 = Some bytes.
Proof.
  intros H. eexists. apply (completedBytes_bytesAt _ _ H 0).
Qed.

Lemma Set_add_range (k n : nat) (s : list nat) :
  (k < n)%nat -> Forall (fun i => (i < n)%nat) s ->
  Forall (fun i => (i < n)%nat) (Set_add k s).
Proof.
  intros Hk Hs. unfold Set_add. destruct (Set_has k s); [exact Hs|].
  apply Forall_app. split; [exact Hs|]. constructor; [exact Hk | constructor].
Qed.

(** X8. With diagnostics free of latency measurements (all the manager
    ever records) and completed positions inside the plan, a completion
    event for chunk k never throws; it marks chunk k COMPLETED in the upload
    it is routed to and adds k to its completed set.  If the set then
    counts as many entries as the plan has chunks, the session becomes
    COMPLETED, gets its end time and exactly one finalize request is
    issued (again on a repeated event for a finished session); otherwise
    the session status is unchanged and nothing is requested. *)
Theorem handleChunkUploadComplete_completion (now : Z) (k : nat)
  (m : Manager.t) (pos : nat) (upload : Upload.t) :
  findUploadByChunkIndex k m = Some (pos, upload) ->
  zeroLatency (Manager.networkDiagnostics m) ->
  Forall (fun i => (i < length (Upload.chunks upload))%nat)
         (Upload.completedChunks upload) ->
  Outcome.threw (handleChunkUploadComplete now k m) = false
  /\ exists key upload' chunk',
       nth_error (Manager.uploads m) pos = Some (key, upload)
       /\ nth_error
            (Manager.uploads (Outcome.manager (handleChunkUploadComplete now k m)))
            pos
          = Some (key, upload')
       /\ Upload.completedChunks upload'
          = Set_add k (Upload.completedChunks upload)
       /\ nth_error (Upload.chunks upload') k = Some chunk'
       /\ Chunk.status chunk' = COMPLETED
       /\ (if (length (Set_add k (Upload.completedChunks upload))
               =? length (Upload.chunks upload))%nat
           then Upload.status upload' = COMPLETED
                /\ Upload.endTime upload' = Some now
                /\ Outcome.effects (handleChunkUploadComplete now k m)
                   = [FetchFinalize (Upload.uploadId upload)
                                    (Upload.storageType upload)]
           else Upload.status upload' = Upload.status upload
                /\ Outcome.effects (handleChunkUploadComplete now k m) = []).
Proof.
  intros Hfind Hz Hrange.
  pose proof (findUploadByChunkIndex_from_Some _ _ _ _ _ Hfind)
    as (_ & (key & Hkey) & Hk & _).
  rewrite Nat.sub_0_r in Hkey.
  unfold handleChunkUploadComplete. rewrite Hfind.
  set (marked := Upload.set_completedChunks _ _).
  assert (Hmarked : exists bytes,
             completedBytes (Upload.chunks marked)
                            (Upload.completedChunks marked) 0 = Some bytes).
  { apply completedBytes_defined. subst marked.
    cbn [Upload.chunks Upload.completedChunks Upload.set_chunks
         Upload.set_completedChunks].
    rewrite length_update_nth. apply Set_add_range; assumption. }
  destruct Hmarked as (bytes & Hbytes).
  destruct (updateUploadProgress_progress now (Manager.networkDiagnostics m)
              marked bytes Hbytes) as (d' & updated & Hup & _).
  rewrite Hup.
  destruct (updateUploadProgress_continues _ _ _ _ _ Hz Hup)
    as (_ & Hchunks & Hview & Hid & Hst & _).
  apply sessionView_eq in Hview. destruct Hview as (_ & Hstatus & Hdone & _).
  assert (Hchunk : exists chunk',
             nth_error (Upload.chunks updated) k = Some chunk'
             /\ Chunk.status chunk' = COMPLETED).
  { rewrite Hchunks. subst marked.
    cbn [Upload.chunks Upload.set_chunks Upload.set_completedChunks].
    rewrite nth_error_update_nth_eq.
    destruct (nth_error (Upload.chunks upload) k) as [c|] eqn:E.
    - exists (Chunk.set_status COMPLETED c). split; reflexivity.
    - apply nth_error_None in E. lia. }
  destruct Hchunk as (chunk' & Hchunk & Hcs).
  assert (Hlen : length (Upload.chunks updated) = length (Upload.chunks upload)).
  { rewrite Hchunks. subst marked.
    cbn [Upload.chunks Upload.set_chunks Upload.set_completedChunks].
    apply length_update_nth. }
  assert (Hset : Upload.completedChunks updated
                 = Set_add k (Upload.completedChunks upload))
    by (rewrite Hdone; reflexivity).
  unfold checkUploadCompletion. rewrite Hset, Hlen.
  destruct (_ =? _)%nat; cbn [Outcome.threw Outcome.manager Outcome.effects].
  - split; [reflexivity|].
    eexists key, _, chunk'. split; [exact Hkey|].
    split; [apply (storeUpload_same _ _ _ _ _ Hkey)|].
    split; [exact Hset|]. split; [exact Hchunk|]. split; [exact Hcs|].
    split; [reflexivity|]. split; [reflexivity|].
    rewrite Hid, Hst. reflexivity.
  - split; [reflexivity|].
    exists key, updated, chunk'. split; [exact Hkey|].
    split; [apply (storeUpload_same _ _ _ _ _ Hkey)|].
    split; [exact Hset|]. split; [exact Hchunk|]. split; [exact Hcs|].
    split; [rewrite Hstatus; reflexivity | reflexivity].
Qed.

Lemma checkUploadCompletion_continues (now : Z) (upload : Upload.t) :
  continues upload (fst (checkUploadCompletion now upload)).
Proof.
  unfold checkUploadCompletion. destruct (_ =? _)%nat; cbn [fst];
    repeat split; apply incl_refl.
Qed.

Lemma markChunkFailed_continues (k : nat) (upload : Upload.t) :
  continues upload (markChunkFailed k upload).
Proof.
  destruct (markChunkFailed_spec k upload) as (Hid & Hdone & Hfailed & Hplan & _).
  unfold continues. rewrite Hid, Hdone, Hfailed, Hplan.
  split; [reflexivity|].
  split; [unfold markChunkFailed; destruct (Rlt_dec _ _); reflexivity|].
  split; [unfold markChunkFailed; destruct (Rlt_dec _ _); reflexivity|].
  split; [apply map_boundaries_update_nth; reflexivity|].
  split; [apply incl_refl | apply Set_add_incl].
Qed.

(** Both chunk handlers continue every session and keep the diagnostics
    free of latency measurements. *)
Lemma chunk_handlers_continue (now : Z) (random : R) (k : nat)
  (data : ErrorData.t) (m : Manager.t) :
  zeroLatency (Manager.networkDiagnostics m) ->
  (zeroLatency
     (Manager.networkDiagnostics
        (Outcome.manager (handleChunkUploadComplete now k m)))
   /\ continuesAll m (Outcome.manager (handleChunkUploadComplete now k m)))
  /\ (zeroLatency
        (Manager.networkDiagnostics
           (Outcome.manager (handleChunkUploadError now random data m)))
      /\ continuesAll m
           (Outcome.manager (handleChunkUploadError now random data m))).
Proof.
  intros Hz. split.
  - unfold handleChunkUploadComplete.
    destruct (findUploadByChunkIndex k m) as [[pos upload]|] eqn:Hfind;
      [|split; [exact Hz | apply continuesAll_refl]].
    pose proof (findUploadByChunkIndex_from_Some _ _ _ _ _ Hfind)
      as (_ & (key & Hkey) & _ & _).
    rewrite Nat.sub_0_r in Hkey.
    set (marked := Upload.set_completedChunks _ _).
    assert (Hmarked : continues upload marked).
    { subst marked. repeat split; try apply incl_refl.
      - cbn. apply map_boundaries_update_nth. reflexivity.
      - cbn. apply Set_add_incl. }
    destruct (updateUploadProgress now (Manager.networkDiagnostics m) marked)
      as [[d' updated]|] eqn:Hup.
    + destruct (updateUploadProgress_continues _ _ _ _ _ Hz Hup)
        as (Hz' & _ & _ & _ & _ & Hcont).
      pose proof (checkUploadCompletion_continues now updated) as Hcheck.
      destruct (checkUploadCompletion now updated) as [final effects].
      cbn [fst] in Hcheck. cbn [Outcome.manager].
      split; [exact Hz'|].
      unfold continuesAll, storeUpload.
      cbn [Manager.uploads Manager.set_uploads Manager.set_networkDiagnostics].
      apply (continues_update_nth _ _ _ _ _ Hkey).
      eapply continues_trans; [exact Hmarked|].
      eapply continues_trans; [exact Hcont | exact Hcheck].
    + cbn [Outcome.manager]. split; [exact Hz|].
      unfold continuesAll, storeUpload. cbn [Manager.uploads Manager.set_uploads].
      apply (continues_update_nth _ _ _ _ _ Hkey). exact Hmarked.
  - unfold handleChunkUploadError.
    destruct (findUploadByChunkIndex (ErrorData.chunkIndex data) m)
      as [[pos upload]|] eqn:Hfind;
      [|split; [exact Hz | apply continuesAll_refl]].
    pose proof (findUploadByChunkIndex_from_Some _ _ _ _ _ Hfind)
      as (_ & (key & Hkey) & _ & _).
    rewrite Nat.sub_0_r in Hkey.
    destruct (nth_error (Upload.chunks upload) (ErrorData.chunkIndex data))
      as [chunk|]; [|split; [exact Hz | apply continuesAll_refl]].
    set (counted := Upload.set_chunks _ upload).
    assert (Hcounted : continues upload counted).
    { subst counted. repeat split; try apply incl_refl.
      cbn. apply map_boundaries_update_nth. reflexivity. }
    set (branch := if _ && _ then _ else _).
    assert (Hbranch : continues upload (fst branch)).
    { subst branch. destruct (_ && _); cbn [fst]; [exact Hcounted|].
      eapply continues_trans; [exact Hcounted|].
      apply markChunkFailed_continues. }
    destruct branch as [next effects]. cbn [fst] in Hbranch.
    destruct (updateUploadProgress now (Manager.networkDiagnostics m) next)
      as [[d' updated]|] eqn:Hup; cbn [Outcome.manager].
    + destruct (updateUploadProgress_continues _ _ _ _ _ Hz Hup)
        as (Hz' & _ & _ & _ & _ & Hcont).
      split; [exact Hz'|].
      unfold continuesAll, storeUpload.
      cbn [Manager.uploads Manager.set_uploads Manager.set_networkDiagnostics].
      apply (continues_update_nth _ _ _ _ _ Hkey).
      eapply continues_trans; [exact Hbranch | exact Hcont].
    + split; [exact Hz|].
      unfold continuesAll, storeUpload. cbn [Manager.uploads Manager.set_uploads].
      apply (continues_update_nth _ _ _ _ _ Hkey). exact Hbranch.
Qed.

(** X9. As the manager is wired (its diagnostics never hold a latency
    measurement), chunk completion and chunk error events never re-plan:
    after either handler every session is still registered under its key at
    its place, with the same file, the same options and the same chunk
    boundaries, its sets of completed and failed chunks have only grown, and
    the diagnostics still hold no latency measurement. *)
Theorem chunk_events_continue_sessions (now : Z) (random : R) (k : nat)
  (data : ErrorData.t) (m : Manager.t) :
  zeroLatency (Manager.networkDiagnostics m) ->
  (zeroLatency
     (Manager.networkDiagnostics
        (Outcome.manager (handleChunkUploadComplete now k m)))
   /\ continuesAll m (Outcome.manager (handleChunkUploadComplete now k m)))
  /\ (zeroLatency
        (Manager.networkDiagnostics
           (Outcome.manager (handleChunkUploadError now random data m)))
      /\ continuesAll m
           (Outcome.manager (handleChunkUploadError now random data m))).
Proof.
  exact (chunk_handlers_continue now random k data m).
Qed.

Lemma handleChunkUploadComplete_completion_witness :
  findUploadByChunkIndex 0 (managerOf lastChunkInFlight)
  = Some (0%nat, lastChunkInFlight)
  /\ zeroLatency (Manager.networkDiagnostics (managerOf lastChunkInFlight))
  /\ Outcome.threw (handleChunkUploadComplete 2000 0 (managerOf lastChunkInFlight))
     = false
  /\ Outcome.effects
       (handleChunkUploadComplete 2000 0 (managerOf lastChunkInFlight))
     = [FetchFinalize (Some "srv-1"%string) "s3"].
Proof.
  assert (Hz : zeroLatency
                 (Manager.networkDiagnostics (managerOf lastChunkInFlight)))
    by constructor.
  assert (Hr : Forall (fun i => (i < length (Upload.chunks lastChunkInFlight))%nat)
                      (Upload.completedChunks lastChunkInFlight))
    by constructor.
  destruct (handleChunkUploadComplete_completion 2000 0
              (managerOf lastChunkInFlight) 0 lastChunkInFlight eq_refl Hz Hr)
    as (Hthrew & key & upload' & chunk' & _ & _ & _ & _ & _ & Hif).
  split; [reflexivity|]. split; [exact Hz|]. split; [exact Hthrew|].
  cbn in Hif. apply Hif.
Defined.

Lemma chunk_events_continue_sessions_witness :
  zeroLatency (Manager.networkDiagnostics (managerOf fifteenChunks))
  /\ continuesAll (managerOf fifteenChunks)
       (Outcome.manager
          (handleChunkUploadComplete 2000 3 (managerOf fifteenChunks))).
Proof.
  assert (Hz : zeroLatency (Manager.networkDiagnostics (managerOf fifteenChunks)))
    by constructor.
  split; [exact Hz|].
  apply (chunk_events_continue_sessions 2000 0 3
           (ErrorData.mk 3 "HTTP 400" false) (managerOf fifteenChunks) Hz).
Defined.

(** ** Unknown indices and identifiers, pause and resume, creation *)

Lemma findUploadByChunkIndex_from_None (chunkIndex : nat)
  (uploads : list (string * Upload.t)) :
  (forall key upload, In (key, upload) uploads ->
                      (length (Upload.chunks upload) <= chunkIndex)%nat) ->
  forall base, findUploadByChunkIndex_from base chunkIndex uploads = None.
Proof.
  induction uploads as [|[k u] r IH]; intros Hall base; cbn; [reflexivity|].
  assert (E : nth_error (Upload.chunks u) chunkIndex = None).
  { apply nth_error_None. apply (Hall k u). left. reflexivity. }
  rewrite E. apply IH. intros key upload Hin. apply (Hall key upload).
  right. exact Hin.
Qed.

(** X10. An event for a chunk index that no registered upload has (in
    particular any event while no upload is registered) is dropped: the
    completion handler, the error handler and the chunk-hash handler leave
    the manager exactly as it was, issue nothing and do not throw. *)
Theorem chunk_events_unknown_index (now : Z) (random : R) (hash : string)
  (data : ErrorData.t) (m : Manager.t) :
  (forall key upload, In (key, upload) (Manager.uploads m) ->
     (length (Upload.chunks upload) <= ErrorData.chunkIndex data)%nat) ->
  handleChunkUploadComplete now (ErrorData.chunkIndex data) m
  = Outcome.mk m [] false
  /\ handleChunkUploadError now random data m = Outcome.mk m [] false
  /\ handleChunkHashComplete hash (ErrorData.chunkIndex data) m = m.
Proof.
  intros Hall.
  assert (Hfind : findUploadByChunkIndex (ErrorData.chunkIndex data) m = None)
    by (apply findUploadByChunkIndex_from_None; exact Hall).
  unfold handleChunkUploadComplete, handleChunkUploadError,
    handleChunkHashComplete.
  rewrite Hfind. repeat split.
Qed.

Lemma chunk_events_unknown_index_witness :
  (forall key upload,
      In (key, upload) (Manager.uploads (managerOf lastChunkInFlight)) ->
      (length (Upload.chunks upload) <= 1)%nat)
  /\ handleChunkUploadComplete 2000 1 (managerOf lastChunkInFlight)
     = Outcome.mk (managerOf lastChunkInFlight) [] false.
Proof.
  assert (H : forall key upload,
             In (key, upload) (Manager.uploads (managerOf lastChunkInFlight)) ->
             (length (Upload.chunks upload)
              <= ErrorData.chunkIndex (ErrorData.mk 1 "HTTP 400" false))%nat).
  { intros key upload [Heq|[]]. injection Heq as _ <-. cbn. lia. }
  split; [exact H|].
  apply (chunk_events_unknown_index 2000 0 "9f86d0"
           (ErrorData.mk 1 "HTTP 400" false) (managerOf lastChunkInFlight) H).
Defined.

Lemma Map_update_update (key : string) (f g : Upload.t -> Upload.t)
  (uploads : list (string * Upload.t)) :
  Map_update key g (Map_update key f uploads)
  = Map_update key (fun u => g (f u)) uploads.
Proof.
  induction uploads as [|[k v] r IH]; cbn; [reflexivity|].
  destruct (String.eqb key k) eqn:E; cbn; rewrite E.
  - reflexivity.
  - rewrite IH. reflexivity.
Qed.

(** X12. [pauseUpload] has no guard and [resumeUpload] requires only
    PAUSED: pausing and then resuming a registered session, whatever its
    status was (COMPLETED, FAILED and CANCELLED included), leaves it
    UPLOADING with its pending chunks dispatched anew as by
    [uploadChunksWithConcurrency]; the other sessions are untouched.
    [resumeUpload] alone does nothing to a session that is not PAUSED. *)
Theorem pause_then_resume (uploadId : string) (m : Manager.t)
  (upload : Upload.t) :
  getUpload uploadId m = Some upload ->
  let paused := Outcome.manager (pauseUpload uploadId m) in
  let resumed := resumeUpload uploadId paused in
  getUpload uploadId (Outcome.manager resumed)
  = Some (fst (uploadChunksWithConcurrency (Upload.set_status UPLOADING upload)))
  /\ Upload.status (fst (uploadChunksWithConcurrency
                           (Upload.set_status UPLOADING upload))) = UPLOADING
  /\ Outcome.effects resumed
     = snd (uploadChunksWithConcurrency (Upload.set_status UPLOADING upload))
  /\ (forall other, other <> uploadId ->
        getUpload other (Outcome.manager resumed) = getUpload other m)
  /\ (Upload.status upload <> PAUSED ->
      resumeUpload uploadId m = Outcome.mk m [] false).
Proof.
  intros Hget paused resumed. unfold getUpload in *.
  assert (Hpaused : Map_get uploadId (Manager.uploads paused)
                    = Some (Upload.set_status PAUSED upload)).
  { subst paused. unfold pauseUpload. rewrite Hget.
    cbn [Outcome.manager Manager.uploads Manager.set_uploads].
    apply Map_update_get_same. exact Hget. }
  assert (Hsame : Upload.set_status UPLOADING (Upload.set_status PAUSED upload)
                  = Upload.set_status UPLOADING upload)
    by (destruct upload; reflexivity).
  subst resumed. unfold resumeUpload. rewrite Hpaused.
  cbn [Upload.status Upload.set_status UPLOAD_STATUS_eqb]. rewrite Hsame.
  pose proof (uploadChunksWithConcurrency_spec
                (Upload.set_status UPLOADING upload)) as (Hframe & _).
  destruct (uploadChunksWithConcurrency (Upload.set_status UPLOADING upload))
    as [dispatched effects] eqn:Hd.
  cbn [fst snd Outcome.manager Outcome.effects Manager.uploads
       Manager.set_uploads] in *.
  split; [apply (Map_update_get_same uploadId (fun _ => dispatched) _ _ Hpaused)|].
  split; [rewrite Hframe; reflexivity|].
  split; [reflexivity|].
  split.
  - intros other Hne. rewrite Map_update_get_other by exact Hne.
    subst paused. unfold pauseUpload. rewrite Hget.
    cbn [Outcome.manager Manager.uploads Manager.set_uploads].
    apply Map_update_get_other. exact Hne.
  - intros Hnot. rewrite Hget.
    destruct (Upload.status upload); try reflexivity. contradiction.
Qed.

Lemma pause_then_resume_witness :
  getUpload "upload_a" (managerOf completedUpload) = Some completedUpload
  /\ option_map Upload.status
       (getUpload "upload_a"
          (Outcome.manager
             (resumeUpload "upload_a"
                (Outcome.manager
                   (pauseUpload "upload_a" (managerOf completedUpload))))))
     = Some UPLOADING.
Proof.
  split; [reflexivity|].
  destruct (pause_then_resume "upload_a" (managerOf completedUpload)
                              completedUpload eq_refl)
    as (Hget & Hstatus & _).
  cbv zeta in Hget, Hstatus. rewrite Hget. cbn [option_map].
  rewrite Hstatus. reflexivity.
Defined.

(** ** Registration, hash routing, transfer requests *)

Lemma Map_set_get_same (key : string) (upload : Upload.t)
  (uploads : list (string * Upload.t)) :
  Map_get key (Map_set key upload uploads) = Some upload.
Proof.
  induction uploads as [|[k v] r IH]; cbn.
  - rewrite String.eqb_refl. reflexivity.
  - destruct (String.eqb key k) eqn:E; cbn; rewrite E; [reflexivity | exact IH].
Qed.

Lemma Map_set_get_other (key other : string) (upload : Upload.t)
  (uploads : list (string * Upload.t)) :
  other <> key ->
  Map_get other (Map_set key upload uploads) = Map_get other uploads.
Proof.
  intros Hne. apply String.eqb_neq in Hne.
  induction uploads as [|[k v] r IH]; cbn.
  - rewrite Hne. reflexivity.
  - destruct (String.eqb key k) eqn:E; cbn.
    + apply String.eqb_eq in E. subst k. rewrite Hne. reflexivity.
    + destruct (String.eqb other k); [reflexivity | exact IH].
Qed.

Lemma Map_set_fresh (key : string) (upload : Upload.t)
  (uploads : list (string * Upload.t)) :
  Map_get key uploads = None ->
  Map_set key upload uploads = uploads ++ [(key, upload)].
Proof.
  induction uploads as [|[k v] r IH]; cbn; [reflexivity|].
  destruct (String.eqb key k); [discriminate|].
  intros H. rewrite (IH H). reflexivity.
Qed.

Lemma Map_set_length_taken (key : string) (upload old : Upload.t)
  (uploads : list (string * Upload.t)) :
  Map_get key uploads = Some old ->
  length (Map_set key upload uploads) = length uploads.
Proof.
  induction uploads as [|[k v] r IH]; cbn; [discriminate|].
  destruct (String.eqb key k); cbn; [reflexivity|].
  intros H. rewrite (IH H). reflexivity.
Qed.

Lemma Map_set_taken (key : string) (upload old : Upload.t)
  (uploads : list (string * Upload.t)) :
  Map_get key uploads = Some old ->
  exists pos,
    nth_error uploads pos = Some (key, old)
    /\ (forall j k u, (j < pos)%nat -> nth_error uploads j = Some (k, u) ->
          k <> key)
    /\ Map_set key upload uploads
       = update_nth pos (fun _ => (key, upload)) uploads.
Proof.
  induction uploads as [|[k v] r IH]; cbn [Map_get Map_set]; [discriminate|].
  destruct (String.eqb key k) eqn:E.
  - intros H. injection H as ->. apply String.eqb_eq in E. subst k.
    exists 0%nat. split; [reflexivity|]. split; [intros j k u Hj; lia|].
    reflexivity.
  - intros H. destruct (IH H) as (pos & Hpos & Hbefore & Hset).
    exists (S pos). split; [exact Hpos|]. split.
    + intros [|j] k' u Hj Hn; cbn in Hn.
      * injection Hn as <- <-. intros ->. rewrite String.eqb_refl in E.
        discriminate.
      * apply (Hbefore j k' u); [lia | exact Hn].
    + cbn [update_nth]. rewrite Hset. reflexivity.
Qed.

(** X13. For a positive chunk size and a plan of at most 2^32 - 1 chunks
    (otherwise [Array.from] throws a RangeError and nothing is registered),
    [createUpload] registers, under the generated identifier, a PENDING
    session with progress 0 whose plan is the one [calculateChunks]
    computes for the manager's options overridden by the caller's, and asks
    the hash worker for the file hash; [getUpload] returns it and every
    other identifier resolves as before.  With a fresh identifier the
    session is appended to [getAllUploads]; with an identifier already in
    use the new session takes the place of the earlier one, at its
    position in the Map, and every other entry stays where it was. *)
Theorem createUpload_registers (file : File.t) (storageType : string)
  (options : Options.overrides) (uploadId : string) (m : Manager.t) :
  let out := createUpload file storageType options uploadId m in
  let merged := Options.merge (Manager.options m) options in
  0 < Options.chunkSize merged ->
  ceil_div (File.size file) (Options.chunkSize merged) < 2 ^ 32 ->
  exists upload,
    getUpload uploadId (Outcome.manager out) = Some upload
    /\ Upload.id upload = uploadId
    /\ Upload.file upload = file
    /\ Upload.status upload = PENDING
    /\ Upload.progress upload = 0%R
    /\ Upload.options upload = merged
    /\ Upload.chunks upload = planChunks file (Options.chunkSize merged)
    /\ Upload.completedChunks upload = []
    /\ Upload.failedChunks upload = []
    /\ Outcome.effects out = [HASH_FILE file]
    /\ Outcome.threw out = false
    /\ (forall other, other <> uploadId ->
          getUpload other (Outcome.manager out) = getUpload other m)
    /\ (getUpload uploadId m = None ->
        getAllUploads (Outcome.manager out) = getAllUploads m ++ [upload])
    /\ (getUpload uploadId m <> None ->
        length (getAllUploads (Outcome.manager out))
        = length (getAllUploads m))
    /\ (forall old, getUpload uploadId m = Some old ->
        exists pos,
          nth_error (Manager.uploads m) pos = Some (uploadId, old)
          /\ (forall j k u, (j < pos)%nat ->
                nth_error (Manager.uploads m) j = Some (k, u) ->
                k <> uploadId)
          /\ Manager.uploads (Outcome.manager out)
             = update_nth pos (fun _ => (uploadId, upload))
                          (Manager.uploads m)).
Proof.
  intros out merged _ _. subst out.
  unfold createUpload, getUpload, getAllUploads.
  cbn [Outcome.manager Outcome.effects Outcome.threw Manager.uploads
       Manager.set_uploads].
  eexists. split; [apply Map_set_get_same|].
  repeat (split; [reflexivity|]).
  split; [intros other Hne; apply Map_set_get_other; exact Hne|].
  split; [|split].
  - intros Hfresh. rewrite (Map_set_fresh _ _ _ Hfresh), map_app. reflexivity.
  - intros Htaken. rewrite !length_map.
    destruct (Map_get uploadId (Manager.uploads m)) as [old|] eqn:E;
      [|congruence].
    apply (Map_set_length_taken _ _ old). exact E.
  - intros old Hold. apply (Map_set_taken _ _ old). exact Hold.
Qed.

Lemma createUpload_registers_witness :
  0 < Options.chunkSize
        (Options.merge (Manager.options created)
                       (Options.mkOverrides (Some (512 * 1024)) None None))
  /\ ceil_div (File.size (File.mk "b.bin" 1048577))
              (Options.chunkSize
                 (Options.merge (Manager.options created)
                    (Options.mkOverrides (Some (512 * 1024)) None None)))
     < 2 ^ 32
  /\ exists upload,
       getUpload "upload_a"
         (Outcome.manager
            (createUpload (File.mk "b.bin" 1048577) "s3"
               (Options.mkOverrides (Some (512 * 1024)) None None)
               "upload_a" created))
       = Some upload
       /\ Upload.file upload = File.mk "b.bin" 1048577
       /\ length (getAllUploads
                    (Outcome.manager
                       (createUpload (File.mk "b.bin" 1048577) "s3"
                          (Options.mkOverrides (Some (512 * 1024)) None None)
                          "upload_a" created)))
          = length (getAllUploads created).
Proof.
  assert (H1 : 0 < Options.chunkSize
                     (Options.merge (Manager.options created)
                        (Options.mkOverrides (Some (512 * 1024)) None None)))
    by reflexivity.
  assert (H2 : ceil_div (File.size (File.mk "b.bin" 1048577))
                 (Options.chunkSize
                    (Options.merge (Manager.options created)
                       (Options.mkOverrides (Some (512 * 1024)) None None)))
               < 2 ^ 32) by reflexivity.
  split; [exact H1|]. split; [exact H2|].
  destruct (createUpload_registers (File.mk "b.bin" 1048577) "s3"
              (Options.mkOverrides (Some (512 * 1024)) None None)
              "upload_a" created H1 H2)
    as (upload & Hget & _ & Hfile & _ & _ & _ & _ & _ & _ & _ & _ & _ & _
        & Hlen & _).
  exists upload. split; [exact Hget|]. split; [exact Hfile|].
  apply Hlen. vm_compute. discriminate.
Defined.

Lemma assignFileHash_first (hash : string)
  (uploads : list (string * Upload.t)) :
  forall (p : nat) (key : string) (upload : Upload.t),
    nth_error uploads p = Some (key, upload) ->
    hasFileHash upload = false ->
    (forall j key' upload', (j < p)%nat ->
       nth_error uploads j = Some (key', upload') ->
       hasFileHash upload' = true) ->
    assignFileHash hash uploads
    = update_nth p (fun e => (fst e, Upload.set_fileHash (Some hash) (snd e)))
                 uploads.
Proof.
  induction uploads as [|[k u] r IH]; intros [|p] key upload Hn Hno Hbefore;
    cbn in Hn; try discriminate; cbn [assignFileHash update_nth].
  - injection Hn as -> ->. rewrite Hno. reflexivity.
  - rewrite (Hbefore 0%nat k u ltac:(lia) eq_refl).
    rewrite (IH p key upload Hn Hno); [reflexivity|].
    intros j key' upload' Hj Hnj.
    apply (Hbefore (S j) key' upload'); [lia | exact Hnj].
Qed.

Lemma assignFileHash_all_hashed (hash : string)
  (uploads : list (string * Upload.t)) :
  (forall key upload, In (key, upload) uploads -> hasFileHash upload = true) ->
  assignFileHash hash uploads = uploads.
Proof.
  induction uploads as [|[k u] r IH]; intros Hall; cbn; [reflexivity|].
  rewrite (Hall k u (or_introl eq_refl)).
  rewrite IH; [reflexivity|]. intros key upload Hin.
  apply (Hall key upload). right. exact Hin.
Qed.

(** X14. A file-hash message carries no session identifier:
    [handleFileHashComplete] stores the hash in the first registered upload,
    in insertion order, that has no file hash yet, whichever file was
    hashed, and changes nothing else; when every upload has a hash the
    message is dropped. *)
Theorem handleFileHashComplete_routes_to_first (hash : string) (m : Manager.t) :
  (forall p key upload,
      nth_error (Manager.uploads m) p = Some (key, upload) ->
      hasFileHash upload = false ->
      (forall j key' upload', (j < p)%nat ->
         nth_error (Manager.uploads m) j = Some (key', upload') ->
         hasFileHash upload' = true) ->
      nth_error (Manager.uploads (handleFileHashComplete hash m)) p
      = Some (key, Upload.set_fileHash (Some hash) upload)
      /\ (forall q, q <> p ->
            nth_error (Manager.uploads (handleFileHashComplete hash m)) q
            = nth_error (Manager.uploads m) q))
  /\ ((forall key upload, In (key, upload) (Manager.uploads m) ->
         hasFileHash upload = true) ->
      handleFileHashComplete hash m = m).
Proof.
  split.
  - intros p key upload Hn Hno Hbefore. unfold handleFileHashComplete.
    cbn [Manager.uploads Manager.set_uploads].
    rewrite (assignFileHash_first hash _ p key upload Hn Hno Hbefore).
    split.
    + rewrite nth_error_update_nth_eq, Hn. reflexivity.
    + intros q Hq. apply nth_error_update_nth_ne. congruence.
  - intros Hall. unfold handleFileHashComplete.
    rewrite (assignFileHash_all_hashed hash _ Hall). destruct m; reflexivity.
Qed.

Lemma handleFileHashComplete_routes_to_first_witness :
  nth_error (Manager.uploads (handleFileHashComplete "abc123" hashedThenUnhashed)) 1
  = Some ("upload_b"%string, Upload.set_fileHash (Some "abc123"%string) laterUpload)
  /\ nth_error (Manager.uploads (handleFileHashComplete "abc123" hashedThenUnhashed)) 0
     = Some ("upload_a"%string, lastChunkInFlight).
Proof.
  destruct (handleFileHashComplete_routes_to_first "abc123" hashedThenUnhashed)
    as [Hfirst _].
  destruct (Hfirst 1%nat "upload_b"%string laterUpload eq_refl eq_refl)
    as [H1 H2].
  - intros [|j] key' upload' Hj Hn; [|lia].
    cbn in Hn. injection Hn as _ <-. reflexivity.
  - split; [exact H1|]. rewrite (H2 0%nat); [reflexivity | lia].
Defined.

Lemma tiles_nth (l : list Chunk.t) :
  forall (lo hi : Z) (i : nat) (c : Chunk.t),
    tiles lo l hi -> nth_error l i = Some c ->
    lo <= Chunk.start c /\ Chunk.start c < Chunk.end_ c /\ Chunk.end_ c <= hi
    /\ (forall next, nth_error l (S i) = Some next ->
                     Chunk.start next = Chunk.end_ c)
    /\ (nth_error l (S i) = None -> Chunk.end_ c = hi).
Proof.
  induction l as [|x r IH]; intros lo hi [|i] c Ht Hn; cbn in Hn;
    try discriminate; cbn in Ht; destruct Ht as (Hs & Hlt & Hr).
  - injection Hn as ->.
    assert (Hend : Chunk.end_ c <= hi).
    { clear - Hr. revert Hr. generalize (Chunk.end_ c).
      induction r as [|y r IHr]; intros z Hz; cbn in Hz; [lia|].
      destruct Hz as (Hy & Hylt & Hyr). specialize (IHr _ Hyr). lia. }
    split; [lia|]. split; [exact Hlt|]. split; [exact Hend|]. split.
    + intros next Hnext. destruct r as [|y r]; cbn in Hnext; [discriminate|].
      injection Hnext as ->. cbn in Hr. destruct Hr as (Hy & _). exact Hy.
    + intros Hnone. destruct r as [|y r]; cbn in Hnone; [|discriminate].
      cbn in Hr. exact Hr.
  - destruct (IH _ _ _ _ Hr Hn) as (H1 & H2 & H3 & H4 & H5).
    split; [lia|]. split; [exact H2|]. split; [exact H3|].
    split; [exact H4 | exact H5].
Qed.

(** X15. The transfer request [uploadChunk] posts once the chunk's digest
    is known, at once or after the hash worker answered, carries the
    chunk's URL, index and digest and the range [start, end - 1] of the
    file size; for a planned upload this range is non-empty, lies inside
    the file, starts right after the range of the preceding chunk and, for
    the last chunk, ends at the last byte.  Without a digest [uploadChunk]
    only asks the hash worker for it. *)
Theorem uploadChunk_transfer_request (pos : nat) (hash : string)
  (upload : Upload.t) (chunk : Chunk.t) :
  planned upload ->
  nth_error (Upload.chunks upload) pos = Some chunk ->
  snd (uploadChunk_hashed pos hash upload)
  = [UPLOAD_CHUNK (Chunk.uploadUrl chunk) (Chunk.chunkIndex chunk)
       (Chunk.start chunk) (Chunk.end_ chunk - 1)
       (File.size (Upload.file upload)) (Some hash)]
  /\ snd (uploadChunk pos upload)
     = (if hasHash chunk
        then [UPLOAD_CHUNK (Chunk.uploadUrl chunk) (Chunk.chunkIndex chunk)
                (Chunk.start chunk) (Chunk.end_ chunk - 1)
                (File.size (Upload.file upload)) (Chunk.hash chunk)]
        else [HASH_CHUNK (Chunk.chunkIndex chunk)])
  /\ 0 <= Chunk.start chunk <= Chunk.end_ chunk - 1
  /\ Chunk.end_ chunk - 1 < File.size (Upload.file upload)
  /\ (forall next, nth_error (Upload.chunks upload) (S pos) = Some next ->
        Chunk.start next = (Chunk.end_ chunk - 1) + 1)
  /\ (nth_error (Upload.chunks upload) (S pos) = None ->
      Chunk.end_ chunk - 1 = File.size (Upload.file upload) - 1).
Proof.
  intros [Htiles _] Hn.
  destruct (tiles_nth _ _ _ _ _ Htiles Hn) as (H1 & H2 & H3 & H4 & H5).
  unfold uploadChunk_hashed, uploadChunk. rewrite Hn.
  split; [reflexivity|].
  split; [destruct (hasHash chunk); reflexivity|].
  split; [lia|]. split; [lia|]. split.
  - intros next Hnext. rewrite (H4 next Hnext). lia.
  - intros Hnone. rewrite (H5 Hnone). reflexivity.
Qed.

Lemma uploadChunk_transfer_request_witness :
  planned fifteenChunks
  /\ nth_error (Upload.chunks fifteenChunks) 2
     = Some (newChunk (File.mk "a.bin" 15728640) 1048576 2)
  /\ snd (uploadChunk_hashed 2 "abc123" fifteenChunks)
     = [UPLOAD_CHUNK None 2 2097152 3145727 15728640 (Some "abc123"%string)].
Proof.
  assert (Hplan : planned fifteenChunks).
  { split.
    - cbn. repeat (split; [reflexivity|]). reflexivity.
    - repeat constructor. }
  split; [exact Hplan|]. split; [reflexivity|].
  apply (uploadChunk_transfer_request 2 "abc123" fifteenChunks
           (newChunk (File.mk "a.bin" 15728640) 1048576 2) Hplan eq_refl).
Defined.

Lemma In_firstn {A : Type} (n : nat) (l : list A) (x : A) :
  In x (firstn n l) -> In x l.
Proof.
  intros H. rewrite <- (firstn_skipn n l). apply in_or_app. left. exact H.
Qed.

Lemma nth_error_assignUrls (chunkUrls : list string) (chunks : list Chunk.t) :
  forall base i,
    nth_error (assignUrls base chunkUrls chunks) i
    = option_map (Chunk.set_uploadUrl (nth_error chunkUrls (base + i)))
                 (nth_error chunks i).
Proof.
  induction chunks as [|c r IH]; intros base [|i]; cbn [assignUrls nth_error];
    try reflexivity.
  - rewrite Nat.add_0_r. reflexivity.
  - rewrite IH. replace (S base + i)%nat with (base + S i)%nat by lia.
    reflexivity.
Qed.

(** X16. When the initialize request answers, [startUpload] records the
    provider's upload id and URL list and gives chunk i the i-th URL before
    dispatching: afterwards every chunk has the URL at its own position (no
    URL at all when the list is shorter than the plan), its boundaries are
    unchanged, and its status is unchanged or went from PENDING to
    UPLOADING, as [uploadChunksWithConcurrency] dispatches it. *)
Theorem startUpload_initialized_assigns (uploadId : string)
  (data_uploadId : string) (data_chunkUrls : list string) (m : Manager.t)
  (upload : Upload.t) :
  getUpload uploadId m = Some upload ->
  exists upload',
    getUpload uploadId
      (Outcome.manager
         (startUpload_initialized uploadId data_uploadId data_chunkUrls m))
    = Some upload'
    /\ Upload.uploadId upload' = Some data_uploadId
    /\ Upload.chunkUrls upload' = Some data_chunkUrls
    /\ Upload.status upload' = Upload.status upload
    /\ length (Upload.chunks upload') = length (Upload.chunks upload)
    /\ forall i chunk,
         nth_error (Upload.chunks upload) i = Some chunk ->
         exists chunk',
           nth_error (Upload.chunks upload') i = Some chunk'
           /\ Chunk.uploadUrl chunk' = nth_error data_chunkUrls i
           /\ Chunk.boundaries chunk' = Chunk.boundaries chunk
           /\ Chunk.hash chunk' = Chunk.hash chunk
           /\ (Chunk.status chunk' = Chunk.status chunk
               \/ Chunk.status chunk = PENDING
                  /\ Chunk.status chunk' = UPLOADING).
Proof.
  unfold getUpload. intros Hget. unfold startUpload_initialized. rewrite Hget.
  set (assigned := Upload.set_chunks _ _).
  pose proof (uploadChunksWithConcurrency_spec assigned)
    as (Hframe & Hnth & Hpending).
  destruct (uploadChunksWithConcurrency assigned) as [dispatched effects].
  cbn [fst Outcome.manager Manager.uploads Manager.set_uploads] in *.
  exists dispatched.
  split; [apply (Map_update_get_same uploadId (fun _ => dispatched) _ _ Hget)|].
  split; [rewrite Hframe; reflexivity|].
  split; [rewrite Hframe; reflexivity|].
  split; [rewrite Hframe; reflexivity|].
  assert (Hat : forall i,
             nth_error (Upload.chunks assigned) i
             = option_map (Chunk.set_uploadUrl (nth_error data_chunkUrls i))
                          (nth_error (Upload.chunks upload) i)).
  { intros i. subst assigned.
    cbn [Upload.chunks Upload.set_chunks Upload.set_chunkUrls
         Upload.set_uploadId].
    rewrite nth_error_assignUrls. reflexivity. }
  split.
  - apply Nat.le_antisymm.
    + destruct (Nat.le_gt_cases (length (Upload.chunks dispatched))
                                (length (Upload.chunks upload))) as [H|H];
        [exact H|].
      assert (Hnone : nth_error (Upload.chunks dispatched)
                                (length (Upload.chunks upload)) = None).
      { rewrite Hnth, Hat.
        rewrite (proj2 (nth_error_None _ _) (Nat.le_refl _)). reflexivity. }
      apply nth_error_None in Hnone. lia.
    + destruct (Nat.le_gt_cases (length (Upload.chunks upload))
                                (length (Upload.chunks dispatched))) as [H|H];
        [exact H|].
      assert (Hnone : nth_error (Upload.chunks dispatched)
                                (length (Upload.chunks dispatched)) = None)
        by (apply nth_error_None; lia).
      rewrite Hnth, Hat in Hnone.
      destruct (nth_error (Upload.chunks upload)
                          (length (Upload.chunks dispatched))) eqn:E;
        [cbn in Hnone; discriminate|].
      apply nth_error_None in E. lia.
  - intros i chunk Hi. rewrite Hnth, Hat, Hi. cbn [option_map].
    eexists. split; [reflexivity|].
    destruct (memPos i _) eqn:Hmem.
    + repeat (split; [reflexivity|]).
      unfold memPos in Hmem. apply existsb_exists in Hmem.
      destruct Hmem as (q & Hq & Heq). apply Nat.eqb_eq in Heq. subst q.
      apply In_firstn in Hq. apply Hpending in Hq.
      destruct Hq as (c & Hc & Hs & _). rewrite Hat, Hi in Hc.
      cbn [option_map] in Hc. injection Hc as <-. cbn in Hs.
      right. split; [exact Hs | reflexivity].
    + repeat (split; [reflexivity|]). left. reflexivity.
Qed.

Lemma startUpload_initialized_assigns_witness :
  getUpload "upload_a" (managerOf fifteenChunks) = Some fifteenChunks
  /\ exists upload',
       getUpload "upload_a"
         (Outcome.manager
            (startUpload_initialized "upload_a" "srv-1"
               ["https://s3/part1"%string] (managerOf fifteenChunks)))
       = Some upload'
       /\ Upload.uploadId upload' = Some "srv-1"%string.
Proof.
  split; [reflexivity|].
  destruct (startUpload_initialized_assigns "upload_a" "srv-1"
              ["https://s3/part1"%string] (managerOf fifteenChunks)
              fifteenChunks eq_refl)
    as (upload' & Hget & Hid & _).
  exists upload'. split; [exact Hget | exact Hid].
Defined.

(** ** S3 adapter and hash worker *)

Lemma S3_finalizeParts_from_spec (parts : list UploadedPart.t) :
  forall index,
    map CompletedPart.PartNumber (S3_finalizeParts_from index parts)
    = seq (index + 1) (length parts)
    /\ map CompletedPart.ETag (S3_finalizeParts_from index parts)
       = map UploadedPart.etag parts.
Proof.
  induction parts as [|part r IH]; intros index; cbn; [split; reflexivity|].
  destruct (IH (S index)) as [Hn He]. rewrite Hn, He.
  replace (S index + 1)%nat with (S (index + 1)) by lia. split; reflexivity.
Qed.

(** X17. The finalize request of the S3 adapter numbers the parts by their
    position in the array it is given: the part numbers are 1, 2, ..., n in
    strictly increasing order and the i-th ETag is the one of the i-th
    array entry, whatever part number that entry itself carries. *)
Theorem S3_finalizeParts_numbering (parts : list UploadedPart.t) :
  map CompletedPart.PartNumber (S3_finalizeParts parts)
  = seq 1 (length parts)
  /\ map CompletedPart.ETag (S3_finalizeParts parts)
     = map UploadedPart.etag parts
  /\ (forall i part,
        nth_error parts i = Some part ->
        nth_error (S3_finalizeParts parts) i
        = Some (CompletedPart.mk (UploadedPart.etag part) (i + 1))).
Proof.
  destruct (S3_finalizeParts_from_spec parts 0) as [Hn He].
  split; [exact Hn|]. split; [exact He|].
  intros i part Hi. unfold S3_finalizeParts.
  assert (Hgen : forall l base j p,
             nth_error l j = Some p ->
             nth_error (S3_finalizeParts_from base l) j
             = Some (CompletedPart.mk (UploadedPart.etag p) (base + j + 1))).
  { induction l as [|x l IHl]; intros base [|j] p Hj; cbn in Hj;
      try discriminate; cbn [S3_finalizeParts_from nth_error].
    - injection Hj as ->. rewrite Nat.add_0_r. reflexivity.
    - rewrite (IHl (S base) j p Hj). do 2 f_equal. lia. }
  apply (Hgen parts 0%nat i part Hi).
Qed.

Lemma stripQuotes_no_quote (s : string) :
  forall i, String.get i (stripQuotes s) <> Some quote.
Proof.
  induction s as [|c r IH]; intros i; cbn [stripQuotes].
  - destruct i; discriminate.
  - destruct (Ascii.eqb c quote) eqn:E; [apply IH|].
    destruct i as [|i]; cbn [String.get]; [|apply IH].
    intros H. injection H as ->. rewrite Ascii.eqb_refl in E. discriminate.
Qed.

Lemma stripQuotes_fixed (s : string) :
  (forall i, String.get i s <> Some quote) -> stripQuotes s = s.
Proof.
  induction s as [|c r IH]; intros Hno; cbn [stripQuotes]; [reflexivity|].
  destruct (Ascii.eqb c quote) eqn:E.
  - apply Ascii.eqb_eq in E. subst c. exfalso. apply (Hno 0%nat). reflexivity.
  - rewrite IH; [reflexivity|]. intros i. apply (Hno (S i)).
Qed.

Lemma stripQuotes_app (s t : string) :
  stripQuotes (s ++ t) = (stripQuotes s ++ stripQuotes t)%string.
Proof.
  induction s as [|c r IH]; cbn [stripQuotes String.append]; [reflexivity|].
  destruct (Ascii.eqb c quote); cbn [String.append]; rewrite IH; reflexivity.
Qed.

(** X18. The ETag the S3 adapter reports for an accepted part contains no
    double quote; a quoted ETag header yields exactly the text between the
    quotes, and stripping is idempotent.  A missing or empty header is
    refused, and the reported part number is the caller's X-Part-Number
    header, or 1 without it. *)
Theorem S3_uploadedPart_etag (inner : string) (xPartNumber : option string) :
  (forall i, String.get i inner <> Some quote) ->
  S3_uploadedPart (Some (String quote (inner ++ String quote "")%string))
                  xPartNumber
  = Some (UploadedPart.mk inner
            (match xPartNumber with
             | Some h => if String.eqb h "" then inr 1%nat else inl h
             | None => inr 1%nat
             end))
  /\ (forall header part i,
        S3_uploadedPart header xPartNumber = Some part ->
        String.get i (UploadedPart.etag part) <> Some quote)
  /\ (forall s, stripQuotes (stripQuotes s) = stripQuotes s)
  /\ S3_uploadedPart None xPartNumber = None
  /\ S3_uploadedPart (Some ""%string) xPartNumber = None.
Proof.
  intros Hinner. split.
  - unfold S3_uploadedPart. cbn [String.eqb].
    cbn [stripQuotes]. rewrite Ascii.eqb_refl, stripQuotes_app.
    cbn [stripQuotes]. rewrite Ascii.eqb_refl.
    rewrite (stripQuotes_fixed inner Hinner).
    replace (inner ++ "")%string with inner.
    + reflexivity.
    + clear. induction inner as [|c r IH]; cbn; [reflexivity|].
      rewrite <- IH. reflexivity.
  - split.
    + intros header part i H. unfold S3_uploadedPart in H.
      destruct header as [etag|]; [|discriminate].
      destruct (String.eqb etag ""); [discriminate|].
      injection H as <-. cbn [UploadedPart.etag]. apply stripQuotes_no_quote.
    + split; [|split; reflexivity].
      intros s. apply stripQuotes_fixed. apply stripQuotes_no_quote.
Qed.

Lemma S3_uploadedPart_etag_witness :
  (forall i, String.get i "d41d8cd9"%string <> Some quote)
  /\ S3_uploadedPart
       (Some (String quote ("d41d8cd9" ++ String quote "")%string)) None
     = Some (UploadedPart.mk "d41d8cd9" (inr 1%nat)).
Proof.
  assert (H : forall i, String.get i "d41d8cd9"%string <> Some quote).
  { intros i. do 9 (destruct i as [|i]; [discriminate|]). discriminate. }
  split; [exact H|].
  apply (S3_uploadedPart_etag "d41d8cd9" None H).
Defined.

Lemma hexByte_roundtrip (b : Byte.byte) (r : string) :
  hexToBytes (padStart2 (toString16 (Byte.to_N b)) ++ r)
  = option_map (cons b) (hexToBytes r)
  /\ String.length (padStart2 (toString16 (Byte.to_N b))) = 2%nat.
Proof.
  destruct b; split;
    solve [reflexivity | cbn; destruct (hexToBytes r); reflexivity].
Qed.

Lemma concat_empty_cons (x : string) (xs : list string) :
  String.concat "" (x :: xs) = (x ++ String.concat "" xs)%string.
Proof.
  destruct xs as [|y ys]; cbn [String.concat]; [|reflexivity].
  induction x as [|c r IH]; cbn; [reflexivity|]. rewrite <- IH. reflexivity.
Qed.

Lemma length_append (s t : string) :
  String.length (s ++ t) = (String.length s + String.length t)%nat.
Proof.
  induction s as [|c r IH]; cbn; [reflexivity|]. rewrite IH. reflexivity.
Qed.

(** X19. [arrayBufferToHex] renders every byte as exactly two lower-case
    hexadecimal digits: the digest string is twice as long as the buffer,
    reading the digits back two by two gives the buffer again, and hence
    different buffers never render to the same string. *)
Theorem arrayBufferToHex_roundtrip (buffer : list Byte.byte) :
  String.length (arrayBufferToHex buffer) = (2 * length buffer)%nat
  /\ hexToBytes (arrayBufferToHex buffer) = Some buffer
  /\ (forall other, arrayBufferToHex other = arrayBufferToHex buffer ->
                    other = buffer).
Proof.
  assert (Hrt : forall l, hexToBytes (arrayBufferToHex l) = Some l).
  { induction l as [|b r IH]; [reflexivity|].
    unfold arrayBufferToHex in *. cbn [map]. rewrite concat_empty_cons.
    rewrite (proj1 (hexByte_roundtrip b _)), IH. reflexivity. }
  split.
  - induction buffer as [|b r IH]; [reflexivity|].
    unfold arrayBufferToHex in *. cbn [map]. rewrite concat_empty_cons.
    rewrite length_append, IH, (proj2 (hexByte_roundtrip b "")).
    cbn [length]. lia.
  - split; [apply Hrt|].
    intros other Heq. apply (f_equal hexToBytes) in Heq.
    rewrite !Hrt in Heq. injection Heq as ->. reflexivity.
Qed.

(** ** Remaining time and scheduled retries *)

(** X20. For a positive speed and at most [totalBytes] uploaded,
    [calculateETA] never answers "Calculating..."; it shows between 0 and
    60 seconds, between 1 and 60 minutes, or at least 1 hour (rounding can
    show "60s" and "60m").  For speed 0 it answers "Calculating...". *)
Theorem calculateETA_ranges (bytesUploaded totalBytes : Z) (speed : R) :
  (0 < speed)%R ->
  0 <= bytesUploaded <= totalBytes ->
  match calculateETA bytesUploaded totalBytes speed with
  | Calculating => False
  | Seconds n => 0 <= n <= 60
  | Minutes n => 1 <= n <= 60
  | Hours n => 1 <= n
  end
  /\ calculateETA bytesUploaded totalBytes 0 = Calculating.
Proof.
  intros Hspeed Hbytes. split.
  - unfold calculateETA.
    destruct (Req_EM_T speed 0) as [E|_]; [lra|].
    set (s := (IZR (totalBytes - bytesUploaded) / speed)%R).
    assert (Hs : (0 <= s)%R).
    { subst s. apply Rmult_le_pos.
      - apply (IZR_le 0). lia.
      - left. apply Rinv_0_lt_compat. exact Hspeed. }
    destruct (Rlt_dec s 60) as [H60|H60].
    + pose proof (Math_round_bounds s) as [H1 H2]. split.
      * assert (H : (IZR (-1) < IZR (Math_round s))%R) by lra.
        apply lt_IZR in H. lia.
      * assert (H : (IZR (Math_round s) < IZR 61)%R) by lra.
        apply lt_IZR in H. lia.
    + destruct (Rlt_dec s 3600) as [H3600|H3600].
      * pose proof (Math_round_bounds (s / 60)) as [H1 H2]. split.
        -- assert (H : (IZR 0 < IZR (Math_round (s / 60)))%R) by lra.
           apply lt_IZR in H. lia.
        -- assert (H : (IZR (Math_round (s / 60)) < IZR 61)%R) by lra.
           apply lt_IZR in H. lia.
      * pose proof (Math_round_bounds (s / 3600)) as [H1 H2].
        assert (H : (IZR 0 < IZR (Math_round (s / 3600)))%R) by lra.
        apply lt_IZR in H. lia.
  - unfold calculateETA. destruct (Req_EM_T 0 0) as [_|H]; [reflexivity|].
    contradiction.
Qed.

Lemma calculateETA_ranges_witness :
  (0 < 1000)%R /\ 0 <= 500 <= 60000
  /\ match calculateETA 500 60000 1000 with
     | Calculating => False
     | Seconds n => 0 <= n <= 60
     | Minutes n => 1 <= n <= 60
     | Hours n => 1 <= n
     end.
Proof.
  assert (H1 : (0 < 1000)%R) by lra.
  assert (H2 : 0 <= 500 <= 60000) by lia.
  split; [exact H1|]. split; [exact H2|].
  apply (calculateETA_ranges 500 60000 1000 H1 H2).
Defined.

(** X21. A retryable error on a chunk that has failed fewer than two times
    before schedules exactly one retry for that chunk of the upload the
    event is routed to, after a delay between 1000 * 2^n and 1100 * 2^n ms,
    n being the number of errors of the chunk so far (2 to 2.2 s after the
    first error, 4 to 4.4 s after the second); the chunk is not added to the
    failed set and the session status is unchanged. *)
Theorem handleChunkUploadError_schedules_retry (now : Z) (random : R)
  (data : ErrorData.t) (m : Manager.t) (pos : nat) (upload : Upload.t)
  (chunk : Chunk.t) :
  findUploadByChunkIndex (ErrorData.chunkIndex data) m = Some (pos, upload) ->
  nth_error (Upload.chunks upload) (ErrorData.chunkIndex data) = Some chunk ->
  ErrorData.retryable data = true ->
  (Chunk.retryCount chunk < 2)%nat ->
  (0 <= random < 1)%R ->
  exists delay key upload',
    Outcome.effects (handleChunkUploadError now random data m)
    = [SetTimeoutRetry (Upload.id upload) (ErrorData.chunkIndex data) delay]
    /\ (1000 * 2 ^ S (Chunk.retryCount chunk) <= delay
        <= 1100 * 2 ^ S (Chunk.retryCount chunk))%R
    /\ (2000 <= delay <= 4400)%R
    /\ nth_error
         (Manager.uploads
            (Outcome.manager (handleChunkUploadError now random data m))) pos
       = Some (key, upload')
    /\ Upload.failedChunks upload' = Upload.failedChunks upload
    /\ Upload.status upload' = Upload.status upload.
Proof.
  intros Hfind Hchunk Hretryable Hcount Hrandom.
  destruct (handleChunkUploadError_found now random data m pos upload chunk
              Hfind Hchunk)
    as (_ & Heff & key & upload' & _ & Hpos & Hview & _).
  rewrite Hretryable in Heff, Hview.
  replace (S (Chunk.retryCount chunk) <? 3)%nat with true in Heff, Hview
    by (symmetry; apply Nat.ltb_lt; lia).
  cbn [andb] in Heff, Hview.
  destruct (getRetryConfig_delay_range (S (Chunk.retryCount chunk)) random
              Hrandom) as [[Hlo Hhi] _].
  set (delay := RetryConfig.delay
                  (getRetryConfig (S (Chunk.retryCount chunk)) random)) in *.
  assert (Hpow : (2 ^ S (Chunk.retryCount chunk) = 2
                  \/ 2 ^ S (Chunk.retryCount chunk) = 4)%R).
  { destruct (Chunk.retryCount chunk) as [|[|n]]; [left | right | lia];
      cbn; lra. }
  assert (Hband : (1000 * 2 ^ S (Chunk.retryCount chunk) <= delay
                   <= 1100 * 2 ^ S (Chunk.retryCount chunk))%R).
  { destruct Hpow as [Hp|Hp]; rewrite Hp in *.
    - rewrite Rmin_left in Hlo by lra. rewrite Rmin_left in Hhi by lra. lra.
    - rewrite Rmin_left in Hlo by lra. rewrite Rmin_left in Hhi by lra. lra. }
  exists delay, key, upload'.
  split; [exact Heff|]. split; [exact Hband|].
  split; [destruct Hpow as [Hp|Hp]; rewrite Hp in Hband; lra|].
  split; [exact Hpos|].
  apply sessionView_eq in Hview. destruct Hview as (_ & Hs & _ & Hf & _).
  split; [exact Hf | exact Hs].
Qed.

Lemma handleChunkUploadError_schedules_retry_witness :
  (0 <= / 2 < 1)%R
  /\ exists delay,
       Outcome.effects
         (handleChunkUploadError 2000 (/ 2) (ErrorData.mk 1 "HTTP 503" true)
                                 (managerOf (retried 1)))
       = [SetTimeoutRetry "upload_a" 1 delay]
       /\ (2000 <= delay <= 4400)%R.
Proof.
  assert (Hr : (0 <= / 2 < 1)%R) by lra.
  split; [exact Hr|].
  destruct (handleChunkUploadError_schedules_retry 2000 (/ 2)
              (ErrorData.mk 1 "HTTP 503" true) (managerOf (retried 1))
              0%nat (retried 1)
              (Chunk.set_retryCount 1
                 (Chunk.set_status UPLOADING
                    (newChunk (File.mk "a.bin" 15728640) 1048576 1)))
              eq_refl eq_refl eq_refl ltac:(cbn; lia) Hr)
    as (delay & key & upload' & Heff & _ & Hband & _).
  exists delay. split; [exact Heff | exact Hband].
Defined.

(** ** Upload worker *)

Lemma uploadAttempts_accounting (config : WorkerRetryConfig.t)
  (fetch : nat -> FetchResult) (random : nat -> R) (remaining : nat) :
  forall attempt lastError,
    (remaining + attempt = WorkerRetryConfig.maxAttempts config)%nat ->
    let run := uploadAttempts remaining attempt config fetch random lastError in
    (WorkerRun.fetches run <= remaining)%nat
    /\ ((1 <= remaining)%nat -> (1 <= WorkerRun.fetches run)%nat)
    /\ length (WorkerRun.sleeps run) = (WorkerRun.fetches run - 1)%nat
    /\ (forall i, (i < length (WorkerRun.sleeps run))%nat ->
          nth_error (WorkerRun.sleeps run) i
          = Some (WorkerRetryConfig.baseDelay config * 2 ^ (attempt + i)
                  * (1 + random (attempt + i)%nat * (1 / 10)))%R)
    /\ ((1 <= remaining)%nat \/ lastError <> None ->
        WorkerRun.outcome run <> NoAttempt)
    /\ (forall status,
          WorkerRun.outcome run = Uploaded status ->
          attemptResult (fetch (attempt + (WorkerRun.fetches run - 1))%nat)
          = inl status).
Proof.
  induction remaining as [|remaining IH]; intros attempt lastError Hsum run;
    subst run; cbn [uploadAttempts].
  - cbn [WorkerRun.fetches WorkerRun.sleeps WorkerRun.outcome length].
    split; [lia|]. split; [lia|]. split; [reflexivity|].
    split; [intros i Hi; lia|]. split.
    + intros [H|H]; [lia|]. destruct lastError; [discriminate | congruence].
    + intros status H. destruct lastError; discriminate.
  - destruct (attemptResult (fetch attempt)) as [status|message] eqn:Hres.
    + cbn [WorkerRun.fetches WorkerRun.sleeps WorkerRun.outcome length].
      split; [lia|]. split; [lia|]. split; [reflexivity|].
      split; [intros i Hi; lia|]. split; [discriminate|].
      intros status' H. injection H as <-.
      rewrite Nat.add_0_r. exact Hres.
    + destruct (includes "HTTP 4" message && negb (includes "HTTP 429" message)).
      * cbn [WorkerRun.fetches WorkerRun.sleeps WorkerRun.outcome length afterLoop].
        split; [lia|]. split; [lia|]. split; [reflexivity|].
        split; [intros i Hi; lia|]. split; discriminate.
      * specialize (IH (S attempt) (Some message) ltac:(lia)).
        cbv zeta in IH.
        set (rest := uploadAttempts remaining (S attempt) config fetch random
                                    (Some message)) in *.
        destruct IH as (Hle & Hge & Hlen & Hnth & Hout & Hup).
        cbn [WorkerRun.fetches WorkerRun.sleeps WorkerRun.outcome].
        split; [lia|]. split; [lia|].
        destruct (Nat.ltb_spec (S attempt) (WorkerRetryConfig.maxAttempts config))
          as [Hmore|Hlast].
        -- specialize (Hge ltac:(lia)).
           split; [cbn [app length]; lia|].
           split.
           ++ intros [|i] Hi; cbn [app nth_error].
              ** rewrite Nat.add_0_r. reflexivity.
              ** cbn [app length] in Hi. rewrite Hnth by lia.
                 replace (S attempt + i)%nat with (attempt + S i)%nat by lia.
                 reflexivity.
           ++ split; [intros _; apply Hout; right; discriminate|].
              intros status H. specialize (Hup status H).
              replace (attempt + (S (WorkerRun.fetches rest) - 1))%nat
                with (S attempt + (WorkerRun.fetches rest - 1))%nat by lia.
              exact Hup.
        -- assert (Hzero : remaining = 0%nat) by lia. subst remaining.
           cbn [app]. subst rest. cbn [uploadAttempts WorkerRun.fetches
                                       WorkerRun.sleeps WorkerRun.outcome
                                       length afterLoop].
           split; [reflexivity|]. split; [intros i Hi; lia|].
           split; discriminate.
Qed.

(** The last request decides how the loop ends. *)
Lemma uploadAttempts_outcome (config : WorkerRetryConfig.t)
  (fetch : nat -> FetchResult) (random : nat -> R) (remaining : nat) :
  forall attempt lastError,
    (1 <= remaining)%nat ->
    let run := uploadAttempts remaining attempt config fetch random lastError in
    (1 <= WorkerRun.fetches run)%nat
    /\ match attemptResult (fetch (attempt + (WorkerRun.fetches run - 1))%nat)
       with
       | inl status => WorkerRun.outcome run = Uploaded status
       | inr message =>
           WorkerRun.outcome run = afterLoop config (Some message)
       end.
Proof.
  induction remaining as [|remaining IH]; intros attempt lastError Hpos run;
    [lia|]. subst run. cbn [uploadAttempts].
  destruct (attemptResult (fetch attempt)) as [status|message] eqn:Hres.
  - cbn [WorkerRun.fetches WorkerRun.outcome]. split; [lia|].
    rewrite Nat.add_0_r, Hres. reflexivity.
  - destruct (includes "HTTP 4" message && negb (includes "HTTP 429" message)).
    + cbn [WorkerRun.fetches WorkerRun.outcome]. split; [lia|].
      rewrite Nat.add_0_r, Hres. reflexivity.
    + cbn [WorkerRun.fetches WorkerRun.outcome]. split; [lia|].
      destruct remaining as [|remaining'].
      * cbn [uploadAttempts WorkerRun.fetches WorkerRun.outcome].
        rewrite Nat.add_0_r, Hres. reflexivity.
      * destruct (IH (S attempt) (Some message) ltac:(lia)) as [Hge Hlast].
        set (rest := uploadAttempts (S remaining') (S attempt) config fetch
                                    random (Some message)) in *.
        replace (attempt + (S (WorkerRun.fetches rest) - 1))%nat
          with (S attempt + (WorkerRun.fetches rest - 1))%nat by lia.
        exact Hlast.
Qed.

(** X22. With at least one attempt configured, the worker's [uploadChunk]
    makes between 1 and [maxAttempts] requests and sleeps exactly once
    between two consecutive requests, never after the last one; the i-th
    sleep lasts baseDelay * 2^i * (1 + jitter / 10), without any cap.  How
    it ends is decided by its last request alone: it resolves with that
    response when it was accepted, and otherwise throws the error "Upload
    failed after <maxAttempts> attempts: <message of the last attempt>",
    flagged retryable exactly if that message contains "HTTP 5" or
    "NetworkError"; the errors of earlier attempts are dropped. *)
Theorem worker_uploadChunk_accounting (config : WorkerRetryConfig.t)
  (fetch : nat -> FetchResult) (random : nat -> R) :
  (1 <= WorkerRetryConfig.maxAttempts config)%nat ->
  let run := worker_uploadChunk config fetch random in
  (1 <= WorkerRun.fetches run <= WorkerRetryConfig.maxAttempts config)%nat
  /\ length (WorkerRun.sleeps run) = (WorkerRun.fetches run - 1)%nat
  /\ (forall i, (i < length (WorkerRun.sleeps run))%nat ->
        nth_error (WorkerRun.sleeps run) i
        = Some (WorkerRetryConfig.baseDelay config * 2 ^ i
                * (1 + random i * (1 / 10)))%R)
  /\ WorkerRun.outcome run <> NoAttempt
  /\ (forall status,
        WorkerRun.outcome run = Uploaded status ->
        attemptResult (fetch (WorkerRun.fetches run - 1)%nat) = inl status)
  /\ match attemptResult (fetch (WorkerRun.fetches run - 1)%nat) with
     | inl status => WorkerRun.outcome run = Uploaded status
     | inr message =>
         WorkerRun.outcome run
         = UploadFailed
             ("Upload failed after "
              ++ string_of_nat (WorkerRetryConfig.maxAttempts config)
              ++ " attempts: " ++ message)%string
             (includes "HTTP 5" message || includes "NetworkError" message)
     end.
Proof.
  intros Hmax run. subst run. unfold worker_uploadChunk.
  destruct (uploadAttempts_accounting config fetch random
              (WorkerRetryConfig.maxAttempts config) 0 None ltac:(lia))
    as (Hle & Hge & Hlen & Hnth & Hout & Hup).
  split; [split; [apply Hge; exact Hmax | exact Hle]|].
  split; [exact Hlen|]. split; [exact Hnth|].
  split; [apply Hout; left; exact Hmax|]. split; [exact Hup|].
  destruct (uploadAttempts_outcome config fetch random
              (WorkerRetryConfig.maxAttempts config) 0 None Hmax)
    as [_ Hlast].
  exact Hlast.
Qed.

Lemma worker_uploadChunk_accounting_witness :
  (1 <= WorkerRetryConfig.maxAttempts WorkerRetryConfig.default)%nat
  /\ (1 <= WorkerRun.fetches
             (worker_uploadChunk WorkerRetryConfig.default unavailableTwice
                                 noJitter)
      <= 3)%nat
  /\ WorkerRun.outcome
       (worker_uploadChunk WorkerRetryConfig.default unavailableTwice noJitter)
     <> NoAttempt.
Proof.
  assert (H : (1 <= WorkerRetryConfig.maxAttempts WorkerRetryConfig.default)%nat)
    by (cbn; lia).
  split; [exact H|].
  destruct (worker_uploadChunk_accounting WorkerRetryConfig.default
              unavailableTwice noJitter H) as (Hn & _ & _ & Hout & _).
  split; [exact Hn | exact Hout].
Defined.

Lemma includes_prefix (p s : string) : prefix p s = true -> includes p s = true.
Proof.
  unfold includes. destruct s as [|c r]; cbn [index].
  - destruct p; [reflexivity | discriminate].
  - intros ->. reflexivity.
Qed.

Lemma string_of_nat_4xx (status : nat) :
  (400 <= status <= 499)%nat ->
  exists r, string_of_nat status = String (Ascii.ascii_of_nat 52) r.
Proof.
  intros [Hlo Hhi].
  replace status with (400 + (status - 400))%nat by lia.
  assert (Hk : (status - 400 < 100)%nat) by lia.
  revert Hk. generalize (status - 400)%nat. intros k Hk.
  do 100 (destruct k as [|k]; [eexists; reflexivity|]).
  lia.
Qed.

(** X23. A response with a 4xx status is not retried by the worker unless
    its error message contains "HTTP 429": after that single request,
    without sleeping, the worker throws "Upload failed after <maxAttempts>
    attempts: HTTP <status>: <statusText>" (although one attempt was made),
    flagged retryable only if the message contains "HTTP 5" or
    "NetworkError". *)
Theorem worker_client_error_fails_fast (config : WorkerRetryConfig.t)
  (fetch : nat -> FetchResult) (random : nat -> R) (status : nat)
  (statusText : string) :
  let message := ("HTTP " ++ string_of_nat status ++ ": " ++ statusText)%string in
  (1 <= WorkerRetryConfig.maxAttempts config)%nat ->
  fetch 0%nat = Responded status statusText ->
  (400 <= status <= 499)%nat ->
  includes "HTTP 429" message = false ->
  worker_uploadChunk config fetch random
  = WorkerRun.mk
      (UploadFailed
         ("Upload failed after "
          ++ string_of_nat (WorkerRetryConfig.maxAttempts config)
          ++ " attempts: " ++ message)%string
         (includes "HTTP 5" message || includes "NetworkError" message))
      1 [].
Proof.
  intros message Hmax Hfetch Hstatus Hno429.
  unfold worker_uploadChunk.
  destruct (WorkerRetryConfig.maxAttempts config) as [|n] eqn:Hn; [lia|].
  cbn [uploadAttempts]. rewrite Hfetch. cbn [attemptResult].
  assert (Hok : response_ok status = false).
  { unfold response_ok. apply andb_false_iff. right. apply Nat.leb_gt. lia. }
  rewrite Hok. fold message. rewrite Hno429.
  assert (H4 : includes "HTTP 4" message = true).
  { apply includes_prefix. subst message.
    destruct (string_of_nat_4xx status Hstatus) as (r & ->).
    cbn. destruct (r ++ _)%string; reflexivity. }
  rewrite H4. cbn [andb negb afterLoop]. rewrite Hn. reflexivity.
Qed.

Lemma worker_client_error_fails_fast_witness :
  (1 <= WorkerRetryConfig.maxAttempts WorkerRetryConfig.default)%nat
  /\ (400 <= 404 <= 499)%nat
  /\ worker_uploadChunk WorkerRetryConfig.default notFound noJitter
     = WorkerRun.mk
         (UploadFailed "Upload failed after 3 attempts: HTTP 404: Not Found"
                       false)
         1 [].
Proof.
  assert (H1 : (1 <= WorkerRetryConfig.maxAttempts WorkerRetryConfig.default)%nat)
    by (cbn; lia).
  assert (H2 : (400 <= 404 <= 499)%nat) by lia.
  split; [exact H1|]. split; [exact H2|].
  apply (worker_client_error_fails_fast WorkerRetryConfig.default notFound
           noJitter 404 "Not Found" H1 eq_refl H2 eq_refl).
Defined.

Lemma uploadAttempts_rate_limited (config : WorkerRetryConfig.t)
  (fetch : nat -> FetchResult) (random : nat -> R) (statusText : string) :
  (forall i, fetch i = Responded 429 statusText) ->
  forall remaining attempt lastError,
    let run := uploadAttempts remaining attempt config fetch random lastError in
    WorkerRun.fetches run = remaining
    /\ WorkerRun.outcome run
       = afterLoop config
           (match remaining with
            | O => lastError
            | S _ => Some ("HTTP 429: " ++ statusText)%string
            end).
Proof.
  intros Hfetch. induction remaining as [|remaining IH];
    intros attempt lastError run; subst run; cbn [uploadAttempts].
  - split; reflexivity.
  - rewrite Hfetch. cbn [attemptResult]. 
    change (response_ok 429) with false. cbn iota.
    change (string_of_nat 429) with "429"%string.
    change ("HTTP " ++ "429" ++ ": " ++ statusText)%string
      with ("HTTP 429: " ++ statusText)%string.
    assert (H429 : includes "HTTP 429" ("HTTP 429: " ++ statusText) = true)
      by (apply includes_prefix; cbn; destruct statusText; reflexivity).
    rewrite H429, andb_false_r.
    destruct (IH (S attempt) (Some ("HTTP 429: " ++ statusText)%string))
      as [Hf Ho].
    cbn [WorkerRun.fetches WorkerRun.outcome]. rewrite Hf, Ho.
    split; [reflexivity|]. destruct remaining; reflexivity.
Qed.

(** X24. Rate limiting is retried by the worker but not by the manager:
    when every request is answered 429, the worker makes all [maxAttempts]
    requests and then reports an error that is not retryable (its message
    contains neither "HTTP 5" nor "NetworkError"); the manager's error
    handler then schedules no retry and adds the chunk to the failed set of
    the upload the event is routed to. *)
Theorem persistent_rate_limit_fails_chunk (config : WorkerRetryConfig.t)
  (fetch : nat -> FetchResult) (random : nat -> R) (statusText : string)
  (typeError : string) (now : Z) (jitter : R) (k : nat) (m : Manager.t)
  (pos : nat) (upload : Upload.t) (chunk : Chunk.t) :
  let message := ("HTTP 429: " ++ statusText)%string in
  let run := worker_uploadChunk config fetch random in
  (1 <= WorkerRetryConfig.maxAttempts config)%nat ->
  (forall i, fetch i = Responded 429 statusText) ->
  includes "HTTP 5" message = false ->
  includes "NetworkError" message = false ->
  findUploadByChunkIndex k m = Some (pos, upload) ->
  nth_error (Upload.chunks upload) k = Some chunk ->
  WorkerRun.fetches run = WorkerRetryConfig.maxAttempts config
  /\ exists data,
       workerMessage typeError k (WorkerRun.outcome run)
       = CHUNK_UPLOAD_ERROR data
       /\ ErrorData.chunkIndex data = k
       /\ ErrorData.retryable data = false
       /\ Outcome.effects (handleChunkUploadError now jitter data m) = []
       /\ exists key upload',
            nth_error
              (Manager.uploads
                 (Outcome.manager (handleChunkUploadError now jitter data m)))
              pos
            = Some (key, upload')
            /\ In k (Upload.failedChunks upload').
Proof.
  intros message run Hmax Hfetch H5 Hnet Hfind Hchunk.
  destruct (uploadAttempts_rate_limited config fetch random statusText Hfetch
              (WorkerRetryConfig.maxAttempts config) 0%nat None)
    as [Hf Ho].
  fold (worker_uploadChunk config fetch random) in Hf, Ho. fold run in Hf, Ho.
  split; [exact Hf|].
  destruct (WorkerRetryConfig.maxAttempts config) as [|n] eqn:Hn; [lia|].
  cbn [afterLoop] in Ho. fold message in Ho. rewrite H5, Hnet in Ho.
  cbn [orb] in Ho. rewrite Ho. cbn [workerMessage].
  eexists. split; [reflexivity|].
  cbn [ErrorData.chunkIndex ErrorData.retryable].
  split; [reflexivity|]. split; [reflexivity|].
  match goal with
  | |- context [handleChunkUploadError now jitter ?d m] =>
      destruct (handleChunkUploadError_found now jitter d m pos upload chunk
                  Hfind Hchunk)
        as (_ & Heff & key & upload' & _ & Hpos & Hview & _)
  end.
  cbn [ErrorData.retryable ErrorData.chunkIndex andb] in Heff, Hview.
  split; [exact Heff|].
  exists key, upload'. split; [exact Hpos|].
  apply sessionView_eq in Hview. destruct Hview as (_ & _ & _ & -> & _).
  match goal with
  | |- In _ (Upload.failedChunks (markChunkFailed ?i ?u)) =>
      destruct (markChunkFailed_spec i u) as (_ & _ & -> & _)
  end.
  apply Set_add_In.
Qed.

Lemma persistent_rate_limit_fails_chunk_witness :
  (1 <= WorkerRetryConfig.maxAttempts WorkerRetryConfig.default)%nat
  /\ WorkerRun.fetches
       (worker_uploadChunk WorkerRetryConfig.default alwaysRateLimited noJitter)
     = 3%nat.
Proof.
  assert (H1 : (1 <= WorkerRetryConfig.maxAttempts WorkerRetryConfig.default)%nat)
    by (cbn; lia).
  split; [exact H1|].
  apply (persistent_rate_limit_fails_chunk WorkerRetryConfig.default
           alwaysRateLimited noJitter "Too Many Requests" "TypeError" 2000 0
           1 (managerOf (retried 0)) 0 (retried 0)
           (Chunk.set_retryCount 0
              (Chunk.set_status UPLOADING
                 (newChunk (File.mk "a.bin" 15728640) 1048576 1)))
           H1 (fun _ => eq_refl) eq_refl eq_refl eq_refl eq_refl).
Defined.

(** ** Throwing progress computation, start after creation, file names *)

Lemma completedBytes_None (chunks : list Chunk.t) (completed : list nat) :
  forall sum,
    completedBytes chunks completed sum = None <->
    exists i, In i completed /\ (length chunks <= i)%nat.
Proof.
  induction completed as [|i r IH]; intros sum; cbn [completedBytes].
  - split; [discriminate | intros (i & [] & _)].
  - destruct (nth_error chunks i) as [c|] eqn:E.
    + rewrite IH. split.
      * intros (j & Hj & Hlen). exists j. split; [right; exact Hj | exact Hlen].
      * intros (j & [Hj|Hj] & Hlen).
        -- subst j. apply nth_error_None in Hlen. congruence.
        -- exists j. split; assumption.
    + split; [|reflexivity]. intros _. exists i.
      split; [left; reflexivity | apply nth_error_None; exact E].
Qed.

(** X26. [updateUploadProgress] throws exactly when the completed set
    holds an index at which the plan has no chunk (the read of [chunk.size]
    on an undefined element). *)
Theorem updateUploadProgress_throws (now : Z) (d : NetworkDiagnostics.t)
  (upload : Upload.t) :
  updateUploadProgress now d upload = None <->
  exists i, In i (Upload.completedChunks upload)
            /\ (length (Upload.chunks upload) <= i)%nat.
Proof.
  unfold updateUploadProgress.
  destruct (completedBytes (Upload.chunks upload)
                           (Upload.completedChunks upload) 0) as [bytes|] eqn:E.
  - split; [discriminate|]. intros H.
    apply (completedBytes_None _ _ 0) in H. congruence.
  - split; [|reflexivity]. intros _.
    apply (completedBytes_None _ _ 0). exact E.
Qed.

(** X27. A completion event for chunk k of an upload whose completed set
    holds an index outside the plan (as after a re-plan into fewer, larger
    chunks) makes the handler throw: chunk k has been recorded in the
    completed set by then, but progress is not updated, the diagnostics get
    no sample and no finalize request is issued, whatever the size of the
    completed set. *)
Theorem handleChunkUploadComplete_throws (now : Z) (k : nat) (m : Manager.t)
  (pos : nat) (upload : Upload.t) :
  findUploadByChunkIndex k m = Some (pos, upload) ->
  (exists i, In i (Upload.completedChunks upload)
             /\ (length (Upload.chunks upload) <= i)%nat) ->
  Outcome.threw (handleChunkUploadComplete now k m) = true
  /\ Outcome.effects (handleChunkUploadComplete now k m) = []
  /\ Manager.networkDiagnostics
       (Outcome.manager (handleChunkUploadComplete now k m))
     = Manager.networkDiagnostics m
  /\ exists key upload',
       nth_error
         (Manager.uploads
            (Outcome.manager (handleChunkUploadComplete now k m))) pos
       = Some (key, upload')
       /\ In k (Upload.completedChunks upload')
       /\ Upload.progress upload' = Upload.progress upload
       /\ Upload.status upload' = Upload.status upload.
Proof.
  intros Hfind (i & Hin & Hlen).
  pose proof (findUploadByChunkIndex_from_Some _ _ _ _ _ Hfind)
    as (_ & (key & Hkey) & _ & _).
  rewrite Nat.sub_0_r in Hkey.
  unfold handleChunkUploadComplete. rewrite Hfind.
  set (marked := Upload.set_completedChunks _ _).
  assert (Hnone : updateUploadProgress now (Manager.networkDiagnostics m)
                                       marked = None).
  { unfold updateUploadProgress.
    replace (completedBytes (Upload.chunks marked)
                            (Upload.completedChunks marked) 0)
      with (@None Z); [reflexivity|].
    symmetry. apply completedBytes_None. exists i. subst marked.
    cbn [Upload.chunks Upload.completedChunks Upload.set_chunks
         Upload.set_completedChunks].
    rewrite length_update_nth. split; [|exact Hlen].
    apply (Set_add_incl k). exact Hin. }
  rewrite Hnone. cbn [Outcome.threw Outcome.effects Outcome.manager].
  split; [reflexivity|]. split; [reflexivity|]. split; [reflexivity|].
  exists key, marked. split; [apply (storeUpload_same _ _ _ _ _ Hkey)|].
  split; [apply Set_add_In|]. split; reflexivity.
Qed.

Lemma handleChunkUploadComplete_throws_witness :
  findUploadByChunkIndex 1 (managerOf replanned) = Some (0%nat, replanned)
  /\ (exists i, In i (Upload.completedChunks replanned)
                /\ (length (Upload.chunks replanned) <= i)%nat)
  /\ Outcome.threw (handleChunkUploadComplete 9000 1 (managerOf replanned))
     = true
  /\ Outcome.effects (handleChunkUploadComplete 9000 1 (managerOf replanned))
     = [].
Proof.
  assert (H1 : findUploadByChunkIndex 1 (managerOf replanned)
               = Some (0%nat, replanned)) by reflexivity.
  assert (H2 : exists i, In i (Upload.completedChunks replanned)
                         /\ (length (Upload.chunks replanned) <= i)%nat).
  { exists 5%nat. split; [cbn; tauto | apply Nat.leb_le; reflexivity]. }
  split; [exact H1|]. split; [exact H2|].
  destruct (handleChunkUploadComplete_throws 9000 1 (managerOf replanned)
              0 replanned H1 H2) as (Ht & He & _).
  split; [exact Ht | exact He].
Defined.



Lemma listIncludes_compressible_not_compressed (extension : string) :
  listIncludes compressibleTypes extension = true ->
  listIncludes alreadyCompressed extension = false.
Proof.
  unfold listIncludes, compressibleTypes. cbn [existsb].
  repeat match goal with
         | |- (String.eqb extension ?s || _)%bool = true -> _ =>
             destruct (String.eqb extension s) eqn:E;
             [apply String.eqb_eq in E; subst extension; intros _; reflexivity
             | clear E; cbn [orb]]
         end.
  discriminate.
Qed.

Lemma lowerAscii_idempotent (c : Ascii.ascii) :
  lowerAscii (lowerAscii c) = lowerAscii c.
Proof.
  destruct c as [[] [] [] [] [] [] [] []]; reflexivity.
Qed.

Lemma toLowerCase_idempotent (s : string) :
  toLowerCase (toLowerCase s) = toLowerCase s.
Proof.
  induction s as [|c r IH]; cbn [toLowerCase]; [reflexivity|].
  rewrite lowerAscii_idempotent, IH. reflexivity.
Qed.

(** X29. [isCompressibleFile] answers by the compressible list alone: no
    extension is in both lists, so the already-compressed test never
    changes the result.  The answer does not depend on the case of the
    letters of the name. *)
Theorem isCompressibleFile_by_extension (filename : string) :
  isCompressibleFile filename
  = listIncludes compressibleTypes (lastSegment (toLowerCase filename))
  /\ isCompressibleFile (toLowerCase filename) = isCompressibleFile filename.
Proof.
  split.
  - unfold isCompressibleFile.
    destruct (listIncludes compressibleTypes
                (lastSegment (toLowerCase filename))) eqn:E; [|reflexivity].
    rewrite (listIncludes_compressible_not_compressed _ E). reflexivity.
  - unfold isCompressibleFile. rewrite toLowerCase_idempotent. reflexivity.
Qed.

(** ** Attempts per chunk *)

Lemma handleChunkUploadComplete_effects (now : Z) (k : nat) (m : Manager.t) :
  Outcome.effects (handleChunkUploadComplete now k m) = []
  \/ exists uploadId storageType,
       Outcome.effects (handleChunkUploadComplete now k m)
       = [FetchFinalize uploadId storageType].
Proof.
  unfold handleChunkUploadComplete.
  destruct (findUploadByChunkIndex k m) as [[pos upload]|]; [|left; reflexivity].
  destruct (updateUploadProgress _ _ _) as [[d' upload']|]; [|left; reflexivity].
  unfold checkUploadCompletion.
  destruct (_ =? _)%nat; cbn [Outcome.effects];
    [right; eexists _, _; reflexivity | left; reflexivity].
Qed.

Lemma workerMessage_index (typeError : string) (k : nat)
  (outcome : WorkerOutcome) :
  workerMessage typeError k outcome = CHUNK_UPLOAD_COMPLETE k
  \/ exists data,
       workerMessage typeError k outcome = CHUNK_UPLOAD_ERROR data
       /\ ErrorData.chunkIndex data = k.
Proof.
  destruct outcome; cbn [workerMessage];
    [left; reflexivity | right; eexists; split; reflexivity
     | right; eexists; split; reflexivity].
Qed.

Lemma worker_default_requests (fetch : nat -> FetchResult) (jitter : nat -> R) :
  (1 <= WorkerRun.fetches
          (worker_uploadChunk WorkerRetryConfig.default fetch jitter) <= 3)%nat.
Proof.
  unfold worker_uploadChunk.
  destruct (uploadAttempts_accounting WorkerRetryConfig.default fetch jitter
              (WorkerRetryConfig.maxAttempts WorkerRetryConfig.default) 0 None
              ltac:(lia))
    as (Hle & Hge & _).
  cbn [WorkerRetryConfig.maxAttempts WorkerRetryConfig.default] in *.
  split; [apply Hge; lia | exact Hle].
Qed.

(** The transfer request of a chunk whose digest is known. *)
Lemma uploadChunk_with_hash (k : nat) (upload : Upload.t) (chunk : Chunk.t) :
  nth_error (Upload.chunks upload) k = Some chunk ->
  hasHash chunk = true ->
  uploadChunk k upload
  = (Upload.set_chunks
       (update_nth k (Chunk.set_status UPLOADING) (Upload.chunks upload))
       upload,
     [UPLOAD_CHUNK (Chunk.uploadUrl chunk) (Chunk.chunkIndex chunk)
        (Chunk.start chunk) (Chunk.end_ chunk - 1)
        (File.size (Upload.file upload)) (Chunk.hash chunk)]).
Proof.
  intros Hchunk Hhash. unfold uploadChunk. rewrite Hchunk, Hhash. reflexivity.
Qed.

(** One dispatch: the worker makes one to three requests; then either the
    chunk is settled (completed or failed for good), or its error count
    went up by one, below 3, and it is in flight again. *)
Lemma chunkRound_spec (dispatch : nat) (env : Environment.t) (k : nat)
  (m : Manager.t) (p1 : nat) (u1 : Upload.t) (chunk : Chunk.t) :
  findUploadByChunkIndex k m = Some (p1, u1) ->
  nth_error (Upload.chunks u1) k = Some chunk ->
  hasHash chunk = true ->
  zeroLatency (Manager.networkDiagnostics m) ->
  let run :=
    worker_uploadChunk WorkerRetryConfig.default
                       (Environment.fetch env dispatch)
                       (Environment.jitter env dispatch) in
  let message :=
    workerMessage (Environment.typeError env) k (WorkerRun.outcome run) in
  exists m' requests again,
    chunkRound dispatch env k m = (m', requests, again)
    /\ requests = WorkerRun.fetches run
    /\ (1 <= requests <= 3)%nat
    /\ zeroLatency (Manager.networkDiagnostics m')
    /\ (forall data,
          message = CHUNK_UPLOAD_ERROR data ->
          again = ErrorData.retryable data
                  && (S (Chunk.retryCount chunk) <? 3)%nat)
    /\ (again = true ->
        (S (Chunk.retryCount chunk) < 3)%nat
        /\ exists u1' chunk',
             findUploadByChunkIndex k m' = Some (p1, u1')
             /\ nth_error (Upload.chunks u1') k = Some chunk'
             /\ Chunk.retryCount chunk' = S (Chunk.retryCount chunk)
             /\ Chunk.status chunk' = UPLOADING
             /\ hasHash chunk' = true)
    /\ (again = false ->
        exists key u' chunk',
          nth_error (Manager.uploads m') p1 = Some (key, u')
          /\ nth_error (Upload.chunks u') k = Some chunk'
          /\ (message = CHUNK_UPLOAD_COMPLETE k
              /\ Chunk.status chunk' = COMPLETED
              /\ In k (Upload.completedChunks u')
              /\ Chunk.retryCount chunk' = Chunk.retryCount chunk
              \/ (exists data, message = CHUNK_UPLOAD_ERROR data)
                 /\ Chunk.status chunk' = FAILED
                 /\ In k (Upload.failedChunks u')
                 /\ Chunk.retryCount chunk' = S (Chunk.retryCount chunk))).
Proof.
  intros Hfind Hchunk Hhash Hz run message. subst message.
  pose proof (findUploadByChunkIndex_from_Some _ _ _ _ _ Hfind)
    as (_ & (key & Hkey) & Hlen & Hfirst).
  rewrite Nat.sub_0_r in Hkey, Hfirst.
  unfold chunkRound. fold run.
  pose proof (worker_default_requests (Environment.fetch env dispatch)
                (Environment.jitter env dispatch)) as Hreq.
  fold run in Hreq.
  destruct (workerMessage_index (Environment.typeError env) k
              (WorkerRun.outcome run)) as [Hmsg|(data & Hmsg & Hidx)];
    rewrite Hmsg; cbn [onUploadWorkerMessage].
  - (* the chunk was accepted *)
    destruct (chunk_handlers_continue (Environment.now env dispatch) 0 k
                (ErrorData.mk k "" false) m Hz) as [[Hz' _] _].
    destruct (handleChunkUploadComplete_routed (Environment.now env dispatch)
                k m p1 u1 Hfind)
      as (_ & key' & u1' & Hkey' & Hpos & Hdone & _ & Hchunks).
    specialize (Hchunks Hz).
    assert (Hbranch :
              match Outcome.effects
                      (handleChunkUploadComplete (Environment.now env dispatch)
                                                 k m),
                    findUploadByChunkIndex k m
              with
              | [SetTimeoutRetry _ _ _], Some (pos, _) =>
                  (Outcome.manager
                     (retryTimer pos k
                        (Outcome.manager
                           (handleChunkUploadComplete
                              (Environment.now env dispatch) k m))),
                   WorkerRun.fetches run,
                   match Outcome.effects
                           (retryTimer pos k
                              (Outcome.manager
                                 (handleChunkUploadComplete
                                    (Environment.now env dispatch) k m)))
                   with
                   | [UPLOAD_CHUNK _ _ _ _ _ _] => true
                   | _ => false
                   end)
              | _, _ =>
                  (Outcome.manager
                     (handleChunkUploadComplete (Environment.now env dispatch)
                                                k m),
                   WorkerRun.fetches run, false)
              end
              = (Outcome.manager
                   (handleChunkUploadComplete (Environment.now env dispatch)
                                              k m),
                 WorkerRun.fetches run, false)).
    { destruct (handleChunkUploadComplete_effects
                  (Environment.now env dispatch) k m)
        as [->|(i & st & ->)]; reflexivity. }
    eexists _, _, _. split; [exact Hbranch|]. split; [reflexivity|].
    split; [exact Hreq|]. split; [exact Hz'|].
    split; [intros data Hd; discriminate Hd|].
    split; [discriminate|]. intros _.
    exists key', u1', (Chunk.set_status COMPLETED chunk).
    split; [exact Hpos|].
    split; [rewrite Hchunks, nth_error_update_nth_eq, Hchunk; reflexivity|].
    left. split; [reflexivity|]. split; [reflexivity|].
    split; [rewrite Hdone; apply Set_add_In | reflexivity].
  - (* the worker reported an error *)
    subst k.
    destruct (chunk_handlers_continue (Environment.now env dispatch)
                (Environment.random env dispatch) 0 data m Hz)
      as [_ [Hz' _]].
    destruct (handleChunkUploadError_routed (Environment.now env dispatch)
                (Environment.random env dispatch) data m p1 u1 chunk
                Hfind Hchunk)
      as (Hothers & Heff & key' & u1' & Hkey' & Hpos & _ & Hfailed & Hchunks).
    cbv zeta in Hothers, Heff, Hfailed, Hchunks.
    specialize (Hchunks Hz).
    rewrite Heff, Hfind.
    destruct (ErrorData.retryable data
              && (S (Chunk.retryCount chunk) <? 3)%nat) eqn:Hretry.
    + (* a retry is scheduled and its timer fires *)
      apply andb_true_iff in Hretry. destruct Hretry as [Hretryable Hlt].
      apply Nat.ltb_lt in Hlt.
      set (m' := Outcome.manager
                   (handleChunkUploadError (Environment.now env dispatch)
                      (Environment.random env dispatch) data m)) in *.
      assert (Hcounted :
                nth_error (Upload.chunks u1') (ErrorData.chunkIndex data)
                = Some (Chunk.set_retryCount (S (Chunk.retryCount chunk)) chunk))
        by (rewrite Hchunks, nth_error_update_nth_eq, Hchunk; reflexivity).
      assert (Hagain :
                retryTimer p1 (ErrorData.chunkIndex data) m'
                = Outcome.mk
                    (storeUpload p1
                       (Upload.set_chunks
                          (update_nth (ErrorData.chunkIndex data)
                                      (Chunk.set_status UPLOADING)
                                      (Upload.chunks u1')) u1') m')
                    [UPLOAD_CHUNK (Chunk.uploadUrl chunk)
                       (Chunk.chunkIndex chunk) (Chunk.start chunk)
                       (Chunk.end_ chunk - 1) (File.size (Upload.file u1'))
                       (Chunk.hash chunk)]
                    false).
      { unfold retryTimer. rewrite Hpos.
        rewrite (uploadChunk_with_hash _ _ _ Hcounted Hhash). reflexivity. }
      rewrite Hagain. cbn [Outcome.manager Outcome.effects].
      eexists _, _, _. split; [reflexivity|]. split; [reflexivity|].
      split; [exact Hreq|]. split; [exact Hz'|].
      split.
      { intros data' Hd. injection Hd as <-. rewrite Hretryable.
        symmetry. apply Nat.ltb_lt. exact Hlt. }
      split; [|discriminate]. intros _. split; [exact Hlt|].
      eexists _, _. split; [|split; [|split; [|split]]].
      * unfold findUploadByChunkIndex.
        apply (findUploadByChunkIndex_from_first (ErrorData.chunkIndex data)
                 _ 0 p1 key').
        -- apply (storeUpload_same _ _ _ _ _ Hpos).
        -- cbn [Upload.chunks Upload.set_chunks].
           rewrite length_update_nth, Hchunks, length_update_nth. exact Hlen.
        -- intros j key'' u'' Hj Hn.
           rewrite storeUpload_other in Hn by lia.
           rewrite Hothers in Hn by lia.
           apply (Hfirst j key'' u'' Hj Hn).
      * cbn [Upload.chunks Upload.set_chunks].
        rewrite nth_error_update_nth_eq, Hcounted. reflexivity.
      * reflexivity.
      * reflexivity.
      * exact Hhash.
    + (* the chunk fails for good *)
      eexists _, _, _. split; [reflexivity|]. split; [reflexivity|].
      split; [exact Hreq|]. split; [exact Hz'|].
      split; [intros data' Hd; injection Hd as <-; symmetry; exact Hretry|].
      split; [discriminate|]. intros _.
      exists key', u1'. eexists. split; [exact Hpos|].
      split.
      * rewrite Hchunks, !nth_error_update_nth_eq, Hchunk. reflexivity.
      * right. split; [exists data; reflexivity|]. split; [reflexivity|].
        split; [rewrite Hfailed; apply Set_add_In | reflexivity].
Qed.

(** The dispatches of a chunk end: each error report that schedules a
    retry raises the error count, and no retry is scheduled from 3 on. *)
Lemma chunkLife_spec (env : Environment.t) (k : nat) (p1 : nat) :
  forall (rounds dispatch : nat) (m : Manager.t) (u1 : Upload.t)
         (chunk : Chunk.t),
    findUploadByChunkIndex k m = Some (p1, u1) ->
    nth_error (Upload.chunks u1) k = Some chunk ->
    hasHash chunk = true ->
    zeroLatency (Manager.networkDiagnostics m) ->
    (1 <= rounds)%nat ->
    (3 <= rounds + Chunk.retryCount chunk)%nat ->
    let life := chunkLife rounds dispatch env k m in
    (1 <= ChunkLife.dispatches life)%nat
    /\ (ChunkLife.dispatches life + Chunk.retryCount chunk
        <= Nat.max 3 (S (Chunk.retryCount chunk)))%nat
    /\ (ChunkLife.dispatches life <= ChunkLife.requests life
        <= 3 * ChunkLife.dispatches life)%nat
    /\ (forall more, chunkLife (rounds + more) dispatch env k m = life)
    /\ exists key u' chunk',
         nth_error (Manager.uploads (ChunkLife.manager life)) p1
         = Some (key, u')
         /\ nth_error (Upload.chunks u') k = Some chunk'
         /\ (Chunk.status chunk' = COMPLETED
             /\ In k (Upload.completedChunks u')
             /\ S (Chunk.retryCount chunk')
                = (Chunk.retryCount chunk + ChunkLife.dispatches life)%nat
             \/ Chunk.status chunk' = FAILED
                /\ In k (Upload.failedChunks u')
                /\ Chunk.retryCount chunk'
                   = (Chunk.retryCount chunk + ChunkLife.dispatches life)%nat).
Proof.
  induction rounds as [|rounds IH];
    intros dispatch m u1 chunk Hfind Hchunk Hhash Hz Hpos Hfuel life; [lia|].
  destruct (chunkRound_spec dispatch env k m p1 u1 chunk Hfind Hchunk Hhash Hz)
    as (m' & requests & again & Hround & _ & Hreq & Hz' & _ & Htrue & Hfalse).
  subst life. cbn [chunkLife Nat.add]. rewrite Hround.
  destruct again.
  - destruct (Htrue eq_refl)
      as (Hlt & u1' & chunk' & Hfind' & Hchunk' & Hcount & _ & Hhash').
    destruct (IH (S dispatch) m' u1' chunk' Hfind' Hchunk' Hhash' Hz'
                 ltac:(lia) ltac:(lia))
      as (Hd & Hbound & Hrq & Hmore & key & u' & c' & Hn & Hc & Hend).
    cbn [ChunkLife.dispatches ChunkLife.requests ChunkLife.manager].
    rewrite Hcount in Hbound, Hend.
    split; [lia|]. split; [lia|]. split; [lia|].
    split.
    + intros more. rewrite (Hmore more). reflexivity.
    + exists key, u', c'. split; [exact Hn|]. split; [exact Hc|].
      destruct Hend as [(Hs & Hin & Hr)|(Hs & Hin & Hr)];
        [left | right]; (split; [exact Hs|]; split; [exact Hin | lia]).
  - destruct (Hfalse eq_refl) as (key & u' & c' & Hn & Hc & Hend).
    cbn [ChunkLife.dispatches ChunkLife.requests ChunkLife.manager].
    split; [lia|]. split; [lia|]. split; [lia|].
    split.
    + intros more. reflexivity.
    + exists key, u', c'. split; [exact Hn|]. split; [exact Hc|].
      destruct Hend as [(_ & Hs & Hin & Hr)|(_ & Hs & Hin & Hr)];
        [left | right]; (split; [exact Hs|]; split; [exact Hin | lia]).
Qed.

(** When every dispatch ends in an error report flagged retryable, after
    three requests of the worker, the chunk uses up all its dispatches. *)
Lemma chunkLife_all_retryable (env : Environment.t) (k : nat) (p1 : nat) :
  (forall dispatch,
     let run :=
       worker_uploadChunk WorkerRetryConfig.default
                          (Environment.fetch env dispatch)
                          (Environment.jitter env dispatch) in
     WorkerRun.fetches run = 3%nat
     /\ exists data,
          workerMessage (Environment.typeError env) k (WorkerRun.outcome run)
          = CHUNK_UPLOAD_ERROR data
          /\ ErrorData.retryable data = true) ->
  forall (rounds dispatch : nat) (m : Manager.t) (u1 : Upload.t)
         (chunk : Chunk.t),
    findUploadByChunkIndex k m = Some (p1, u1) ->
    nth_error (Upload.chunks u1) k = Some chunk ->
    hasHash chunk = true ->
    zeroLatency (Manager.networkDiagnostics m) ->
    (Chunk.retryCount chunk <= 2)%nat ->
    (3 <= rounds + Chunk.retryCount chunk)%nat ->
    let life := chunkLife rounds dispatch env k m in
    ChunkLife.dispatches life = (3 - Chunk.retryCount chunk)%nat
    /\ ChunkLife.requests life = (3 * (3 - Chunk.retryCount chunk))%nat
    /\ exists key u' chunk',
         nth_error (Manager.uploads (ChunkLife.manager life)) p1
         = Some (key, u')
         /\ nth_error (Upload.chunks u') k = Some chunk'
         /\ Chunk.status chunk' = FAILED
         /\ In k (Upload.failedChunks u')
         /\ Chunk.retryCount chunk' = 3%nat.
Proof.
  intros Hall.
  induction rounds as [|rounds IH];
    intros dispatch m u1 chunk Hfind Hchunk Hhash Hz Hle Hfuel life; [lia|].
  destruct (chunkRound_spec dispatch env k m p1 u1 chunk Hfind Hchunk Hhash Hz)
    as (m' & requests & again & Hround & Hreq & _ & Hz' & Hagain & Htrue
        & Hfalse).
  destruct (Hall dispatch) as (Hthree & data & Hmsg & Hretryable).
  cbv zeta in Hthree, Hmsg. rewrite Hthree in Hreq. subst requests.
  specialize (Hagain data Hmsg). rewrite Hretryable in Hagain.
  cbn [andb] in Hagain.
  subst life. cbn [chunkLife]. rewrite Hround.
  destruct again.
  - destruct (Htrue eq_refl)
      as (Hlt & u1' & chunk' & Hfind' & Hchunk' & Hcount & _ & Hhash').
    destruct (IH (S dispatch) m' u1' chunk' Hfind' Hchunk' Hhash' Hz'
                 ltac:(lia) ltac:(lia))
      as (Hd & Hrq & Hend).
    cbn [ChunkLife.dispatches ChunkLife.requests ChunkLife.manager].
    rewrite Hd, Hrq, Hcount. split; [lia|]. split; [lia|]. exact Hend.
  - symmetry in Hagain. apply Nat.ltb_ge in Hagain.
    destruct (Hfalse eq_refl) as (key & u' & c' & Hn & Hc & Hend).
    cbn [ChunkLife.dispatches ChunkLife.requests ChunkLife.manager].
    split; [lia|]. split; [lia|].
    exists key, u', c'. split; [exact Hn|]. split; [exact Hc|].
    destruct Hend as [(Hcomplete & _)|(_ & Hs & Hin & Hr)].
    + rewrite Hmsg in Hcomplete. discriminate Hcomplete.
    + split; [exact Hs|]. split; [exact Hin | lia].
Qed.

(** C5 (as stated, refuted). When every request is answered 503, chunk 1
    is dispatched three times, the worker makes three requests for each
    dispatch, and the chunk is marked FAILED after 9 upload requests, not
    after 5; its error count is then 3. *)
Lemma chunk_attempts_counterexample :
  let life := chunkLife 3 0 alwaysUnavailable 1 (managerOf inFlight) in
  ChunkLife.dispatches life = 3%nat
  /\ ChunkLife.requests life = 9%nat
  /\ (exists key u' chunk',
        nth_error (Manager.uploads (ChunkLife.manager life)) 0 = Some (key, u')
        /\ nth_error (Upload.chunks u') 1 = Some chunk'
        /\ Chunk.status chunk' = FAILED
        /\ In 1%nat (Upload.failedChunks u')
        /\ Chunk.retryCount chunk' = 3%nat)
  /\ ~ (ChunkLife.requests life <= 5)%nat.
Proof.
  intros life.
  assert (Hall : forall dispatch,
             let run :=
               worker_uploadChunk WorkerRetryConfig.default
                 (Environment.fetch alwaysUnavailable dispatch)
                 (Environment.jitter alwaysUnavailable dispatch) in
             WorkerRun.fetches run = 3%nat
             /\ exists data,
                  workerMessage (Environment.typeError alwaysUnavailable) 1
                                (WorkerRun.outcome run)
                  = CHUNK_UPLOAD_ERROR data
                  /\ ErrorData.retryable data = true).
  { intros dispatch run. subst run.
    cbn [alwaysUnavailable Environment.fetch Environment.jitter
         Environment.typeError].
    split; [vm_compute; reflexivity|].
    exists (ErrorData.mk 1
              "Upload failed after 3 attempts: HTTP 503: Service Unavailable"
              true).
    split; [vm_compute; reflexivity | reflexivity]. }
  destruct (chunkLife_all_retryable alwaysUnavailable 1 0 Hall 3 0
              (managerOf inFlight) inFlight
              (Chunk_set_hash (Some "9f86d0"%string)
                 (Chunk.set_uploadUrl (Some "https://s3/part2"%string)
                    (Chunk.set_status UPLOADING
                       (newChunk (File.mk "a.bin" 15728640) 1048576 1))))
              eq_refl eq_refl eq_refl ltac:(constructor)
              ltac:(cbn; lia) ltac:(cbn; lia))
    as (Hd & Hrq & Hend).
  fold life in Hd, Hrq, Hend.
  cbn [Chunk.retryCount Chunk_set_hash Chunk.set_uploadUrl Chunk.set_status
       newChunk Nat.sub Nat.mul Nat.add] in Hd, Hrq.
  split; [exact Hd|]. split; [exact Hrq|]. split; [exact Hend|].
  rewrite Hrq. lia.
Qed.

(** C5 (amended). For every chunk, an error report of the upload worker
    flagged retryable leads to another dispatch while the chunk has fewer
    than 3 error reports, this one included, and the chunk is marked FAILED
    at its third error report or at the first one not flagged retryable.
    The worker makes one to three requests per dispatch (its default
    [maxAttempts]; the manager passes no retry configuration), so a chunk
    is dispatched at most 3 times and receives at most 9 upload requests
    before it is completed or fails for good; [maxAttempts: 5] of
    [getRetryConfig] is read by no code. *)
Theorem chunk_attempts_bounded (env : Environment.t) (k : nat) (m : Manager.t)
  (p1 : nat) (u1 : Upload.t) (chunk : Chunk.t) :
  findUploadByChunkIndex k m = Some (p1, u1) ->
  nth_error (Upload.chunks u1) k = Some chunk ->
  hasHash chunk = true ->
  zeroLatency (Manager.networkDiagnostics m) ->
  let n := Chunk.retryCount chunk in
  let life := chunkLife 3 0 env k m in
  (forall now random data,
     ErrorData.chunkIndex data = k ->
     let out := handleChunkUploadError now random data m in
     let retry := ErrorData.retryable data && (S n <? 3)%nat in
     Outcome.effects out
     = (if retry
        then [SetTimeoutRetry (Upload.id u1) k
                (RetryConfig.delay (getRetryConfig (S n) random))]
        else [])
     /\ exists key u',
          nth_error (Manager.uploads (Outcome.manager out)) p1 = Some (key, u')
          /\ Upload.failedChunks u'
             = (if retry then Upload.failedChunks u1
                else Set_add k (Upload.failedChunks u1))
          /\ nth_error (Upload.chunks u') k
             = Some (if retry then Chunk.set_retryCount (S n) chunk
                     else Chunk.set_status FAILED
                            (Chunk.set_retryCount (S n) chunk)))
  /\ (1 <= ChunkLife.dispatches life)%nat
  /\ (ChunkLife.dispatches life + n <= Nat.max 3 (S n))%nat
  /\ (ChunkLife.dispatches life <= ChunkLife.requests life
      <= 3 * ChunkLife.dispatches life)%nat
  /\ (n = 0%nat ->
      (ChunkLife.dispatches life <= 3)%nat
      /\ (ChunkLife.requests life <= 9)%nat)
  /\ (forall rounds, (3 <= rounds)%nat ->
        chunkLife rounds 0 env k m = life)
  /\ exists key u' chunk',
       nth_error (Manager.uploads (ChunkLife.manager life)) p1 = Some (key, u')
       /\ nth_error (Upload.chunks u') k = Some chunk'
       /\ (Chunk.status chunk' = COMPLETED
           /\ In k (Upload.completedChunks u')
           /\ S (Chunk.retryCount chunk')
              = (n + ChunkLife.dispatches life)%nat
           \/ Chunk.status chunk' = FAILED
              /\ In k (Upload.failedChunks u')
              /\ Chunk.retryCount chunk' = (n + ChunkLife.dispatches life)%nat).
Proof.
  intros Hfind Hchunk Hhash Hz n life.
  destruct (chunkLife_spec env k p1 3 0 m u1 chunk Hfind Hchunk Hhash Hz
              ltac:(lia) ltac:(lia))
    as (Hd & Hbound & Hrq & Hmore & Hend).
  fold life in Hd, Hbound, Hrq, Hmore, Hend. fold n in Hbound, Hend.
  split.
  { intros now random data Hidx out retry. subst k.
    destruct (handleChunkUploadError_routed now random data m p1 u1 chunk
                Hfind Hchunk)
      as (_ & Heff & key & u' & _ & Hpos & _ & Hfailed & Hchunks).
    cbv zeta in Heff, Hfailed, Hchunks. specialize (Hchunks Hz).
    fold n in Heff, Hfailed, Hchunks. fold retry in Heff, Hfailed, Hchunks.
    split; [exact Heff|]. exists key, u'. split; [exact Hpos|].
    split; [exact Hfailed|]. rewrite Hchunks.
    destruct retry; rewrite !nth_error_update_nth_eq, Hchunk; reflexivity. }
  split; [exact Hd|]. split; [exact Hbound|]. split; [exact Hrq|].
  split; [intros Hn; rewrite Hn in Hbound; lia|].
  split; [|exact Hend].
  intros rounds Hrounds.
  replace rounds with (3 + (rounds - 3))%nat by lia. apply Hmore.
Qed.

Lemma chunk_attempts_bounded_witness :
  findUploadByChunkIndex 1 (managerOf inFlight) = Some (0%nat, inFlight)
  /\ hasHash
       (Chunk_set_hash (Some "9f86d0"%string)
          (Chunk.set_uploadUrl (Some "https://s3/part2"%string)
             (Chunk.set_status UPLOADING
                (newChunk (File.mk "a.bin" 15728640) 1048576 1))))
     = true
  /\ zeroLatency (Manager.networkDiagnostics (managerOf inFlight))
  /\ (1 <= ChunkLife.dispatches
             (chunkLife 3 0 alwaysUnavailable 1 (managerOf inFlight)))%nat
  /\ (ChunkLife.requests
        (chunkLife 3 0 alwaysUnavailable 1 (managerOf inFlight)) <= 9)%nat.
Proof.
  assert (H1 : findUploadByChunkIndex 1 (managerOf inFlight)
               = Some (0%nat, inFlight)) by reflexivity.
  assert (H2 : nth_error (Upload.chunks inFlight) 1
               = Some (Chunk_set_hash (Some "9f86d0"%string)
                         (Chunk.set_uploadUrl (Some "https://s3/part2"%string)
                            (Chunk.set_status UPLOADING
                               (newChunk (File.mk "a.bin" 15728640)
                                         1048576 1))))) by reflexivity.
  assert (H3 : hasHash
                 (Chunk_set_hash (Some "9f86d0"%string)
                    (Chunk.set_uploadUrl (Some "https://s3/part2"%string)
                       (Chunk.set_status UPLOADING
                          (newChunk (File.mk "a.bin" 15728640) 1048576 1))))
               = true) by reflexivity.
  assert (H4 : zeroLatency (Manager.networkDiagnostics (managerOf inFlight)))
    by constructor.
  split; [exact H1|]. split; [exact H3|]. split; [exact H4|].
  destruct (chunk_attempts_bounded alwaysUnavailable 1 (managerOf inFlight)
              0 inFlight _ H1 H2 H3 H4)
    as (_ & Hd & _ & _ & Hnine & _).
  split; [exact Hd|]. apply Hnine. reflexivity.
Defined.

(** ** Live sessions never re-plan *)
















